(** * Payment gateway: the idempotent processing pipeline

    A shallow embedding of the Go packages [core], [db], [database],
    [messaging], [service] and [http] of the payment gateway, and the
    properties of its creation and processing paths.

    Conventions of the embedding.
    - A Go [string] is a [string] of bytes; [uuid.UUID] is the 128-bit number
      its sixteen bytes spell; [time.Time] is a count of nanoseconds whose zero
      is Go's zero time; [float64] is the kernel's binary64 [float].
    - A Go [error] is a value of [error]: [None : option error] is [nil].
    - The PostgreSQL table is a finite map from primary key to row, and the
      RabbitMQ queue a list of deliveries. Every call that leaves the process
      takes, from an environment record, what the outside world decides: the
      failure the driver reports (if any), the clock, the random source, and
      what the columns of the table keep of an amount and of a timestamp. *)

From Stdlib Require Import ZArith NArith String Ascii List Bool Floats Uint63 Lia DecimalString.
From stdpp Require Import base gmap strings.

Open Scope string_scope.

(** ** Go runtime and standard library *)

Module golang.

(** [uuid.UUID], a [[16]byte] array read as a big-endian number. *)
Definition UUID := N.
Definition uuid_Nil : UUID := 0%N.

(** [uuid.New()]: sixteen random bytes with the version nibble forced to 4
    and the variant bits to binary 10 (RFC 4122). *)
Definition uuid_New (entropy : N) : UUID :=
  N.lor (N.land (entropy mod 2 ^ 128)
                (N.lnot (N.lor (N.shiftl 0xf0 72) (N.shiftl 0xc0 56)) 128))
        (N.lor (N.shiftl 0x40 72) (N.shiftl 0x80 56)).

(** [time.Time]; [IsZero] holds of the zero value only. *)
Definition Time := Z.
Definition Time_zero : Time := 0%Z.
Definition IsZero (t : Time) : bool := (t =? 0)%Z.

(** Go errors. [ErrRecordNotFound] is gorm's sentinel, compared by identity;
    [External] is an error value made outside this repository (database
    driver, AMQP client, encoders), of which only the text is known;
    [New text] is [fmt.Errorf] without a wrapped error, its text already
    formatted; [Wrap prefix e] is [fmt.Errorf(prefix + "%w", e)]. *)
Inductive error : Type :=
| ErrRecordNotFound
| External (text : string)
| New (text : string)
| Wrap (prefix : string) (wrapped : error).

(** The [Error()] method. *)
Fixpoint Error (e : error) : string :=
  match e with
  | ErrRecordNotFound => "record not found"
  | External text => text
  | New text => text
  | Wrap prefix w => prefix +:+ Error w
  end.

#[global] Instance error_eq_dec : EqDecision error.
Proof. solve_decision. Defined.

(** A pair [(T, error)] of which exactly one side is meaningful. *)
Inductive result (A : Type) : Type :=
| Ok (a : A)
| Err (e : error).
Arguments Ok {A} a.
Arguments Err {A} e.

(** [strings.HasPrefix(s, p)]. *)
Fixpoint HasPrefix (s p : string) : bool :=
  match p, s with
  | EmptyString, _ => true
  | String _ _, EmptyString => false
  | String b p', String a s' => Ascii.eqb a b && HasPrefix s' p'
  end.

(** [strings.Contains(s, substr)]: [substr] starts at some offset of [s]. *)
Fixpoint Contains (s substr : string) : bool :=
  HasPrefix s substr
  || match s with
     | EmptyString => false
     | String _ s' => Contains s' substr
     end.

(** White space as [unicode.IsSpace] has it, in UTF-8: the six ASCII
    characters tab, line feed, vertical tab, form feed, carriage return and
    space; U+0085 and U+00A0 (two bytes each); U+1680, U+2000 to U+200A,
    U+2028, U+2029, U+202F, U+205F and U+3000 (three bytes each). A UTF-8
    decoder never takes any other byte sequence for a space, so trimming
    runes is trimming these sequences. *)
Definition asciiSpace (c : ascii) : bool :=
  let n := nat_of_ascii c in
  (9 <=? n)%nat && (n <=? 13)%nat || (n =? 32)%nat.

(** [space2 a b], [space3 a b c]: the bytes encode a white-space rune. *)
Definition space2 (a b : ascii) : bool :=
  (nat_of_ascii a =? 0xc2)%nat
  && ((nat_of_ascii b =? 0x85)%nat || (nat_of_ascii b =? 0xa0)%nat).

Definition space3 (a b c : ascii) : bool :=
  let '(x, y, z) := (nat_of_ascii a, nat_of_ascii b, nat_of_ascii c) in
  (x =? 0xe1)%nat && (y =? 0x9a)%nat && (z =? 0x80)%nat
  || (x =? 0xe2)%nat && (y =? 0x80)%nat
     && ((0x80 <=? z)%nat && (z <=? 0x8a)%nat
         || (z =? 0xa8)%nat || (z =? 0xa9)%nat || (z =? 0xaf)%nat)
  || (x =? 0xe2)%nat && (y =? 0x81)%nat && (z =? 0x9f)%nat
  || (x =? 0xe3)%nat && (y =? 0x80)%nat && (z =? 0x80)%nat.

(** [strings.TrimLeftFunc(s, unicode.IsSpace)]. *)
Fixpoint TrimLeftSpace (s : string) : string :=
  match s with
  | EmptyString => EmptyString
  | String a s1 =>
      if asciiSpace a then TrimLeftSpace s1
      else match s1 with
           | EmptyString => s
           | String b s2 =>
               if space2 a b then TrimLeftSpace s2
               else match s2 with
                    | EmptyString => s
                    | String c s3 =>
                        if space3 a b c then TrimLeftSpace s3 else s
                    end
           end
  end.

(** The same from the right end, on the reversed bytes. *)
Fixpoint TrimLeftSpace_rev (s : string) : string :=
  match s with
  | EmptyString => EmptyString
  | String a s1 =>
      if asciiSpace a then TrimLeftSpace_rev s1
      else match s1 with
           | EmptyString => s
           | String b s2 =>
               if space2 b a then TrimLeftSpace_rev s2
               else match s2 with
                    | EmptyString => s
                    | String c s3 =>
                        if space3 c b a then TrimLeftSpace_rev s3 else s
                    end
           end
  end.

Definition string_rev (s : string) : string :=
  string_of_list_ascii (rev (list_ascii_of_string s)).

(** [strings.TrimRightFunc(s, unicode.IsSpace)]. *)
Definition TrimRightSpace (s : string) : string :=
  string_rev (TrimLeftSpace_rev (string_rev s)).

(** [strings.TrimSpace(s)]. *)
Definition TrimSpace (s : string) : string :=
  TrimRightSpace (TrimLeftSpace s).

End golang.
Export golang.

(** ** Package core: the domain entity *)

Module core.

(** [type PaymentStatus string]. *)
Definition PaymentStatus := string.
Definition PaymentStatusPending : PaymentStatus := "PENDING".
Definition PaymentStatusSuccess : PaymentStatus := "SUCCESS".
Definition PaymentStatusFailed : PaymentStatus := "FAILED".

(** [type Currency string]. *)
Definition Currency := string.
Definition CurrencyETB : Currency := "ETB".
Definition CurrencyUSD : Currency := "USD".

Record Payment : Type := mkPayment {
  ID : UUID;
  Amount : float;
  Currency_ : Currency;
  Reference : string;
  Status : PaymentStatus;
  CreatedAt : Time;
  UpdatedAt : Time
}.

Definition IsPending (p : Payment) : bool :=
  String.eqb (Status p) PaymentStatusPending.

Definition IsTerminal (p : Payment) : bool :=
  String.eqb (Status p) PaymentStatusSuccess
  || String.eqb (Status p) PaymentStatusFailed.

End core.

(** ** Package db: the row type and its gorm hooks *)

Module db.

Definition PaymentStatus := string.
Definition PaymentStatusPending : PaymentStatus := "PENDING".
Definition PaymentStatusSuccess : PaymentStatus := "SUCCESS".
Definition PaymentStatusFailed : PaymentStatus := "FAILED".

Definition Currency := string.
Definition CurrencyETB : Currency := "ETB".
Definition CurrencyUSD : Currency := "USD".

Record Payment : Type := mkPayment {
  ID : UUID;
  Amount : float;
  Currency_ : Currency;
  Reference : string;
  Status : PaymentStatus;
  CreatedAt : Time;
  UpdatedAt : Time
}.

(** [BeforeCreate]: fills a nil identifier and zero timestamps. *)
Definition BeforeCreate (entropy : N) (now : Time) (p : Payment) : Payment :=
  {| ID := if N.eqb (ID p) uuid_Nil then uuid_New entropy else ID p;
     Amount := Amount p;
     Currency_ := Currency_ p;
     Reference := Reference p;
     Status := Status p;
     CreatedAt := if IsZero (CreatedAt p) then now else CreatedAt p;
     UpdatedAt := if IsZero (UpdatedAt p) then now else UpdatedAt p |}.

(** [BeforeUpdate]: stamps the update time. *)
Definition BeforeUpdate (now : Time) (p : Payment) : Payment :=
  {| ID := ID p;
     Amount := Amount p;
     Currency_ := Currency_ p;
     Reference := Reference p;
     Status := Status p;
     CreatedAt := CreatedAt p;
     UpdatedAt := now |}.

Definition IsPending (p : Payment) : bool :=
  String.eqb (Status p) PaymentStatusPending.

Definition IsTerminal (p : Payment) : bool :=
  String.eqb (Status p) PaymentStatusSuccess
  || String.eqb (Status p) PaymentStatusFailed.

End db.

(** ** The [payments] table behind gorm *)

(** The table: rows by primary key [id], each as a read gives it back. The
    column types of the schema are the engine's: [amount] is
    [DECIMAL(15, 2)] and the timestamps are [TIMESTAMP]s, so a write holds
    the amount at scale two and a time at the precision of the column, not
    the [float64] and the [time.Time] it was sent; a value the engine refuses
    (an amount out of range, a reference too long) shows as a failure of the
    call. *)
Abbreviation Table := (gmap UUID db.Payment).

Module gorm.

(** What the outside world contributes to one gorm call: the failure the
    driver reports instead of executing the statement (a lost connection, a
    timeout, a rejected value), the clock and the random source the hooks
    read, and what the columns hold of the values a write assigns to them:
    [numeric x] is the amount read back after [x] went into
    [amount DECIMAL(15, 2)], [timestamp t] the time read back after [t] went
    into a [TIMESTAMP] column. *)
Record IO : Type := mkIO {
  failure : option string;
  clock : Time;
  random : N;
  numeric : float -> float;
  timestamp : Time -> Time
}.

(** A row as the table holds it after [INSERT] assigned every column. *)
Definition columns (io : IO) (row : db.Payment) : db.Payment :=
  {| db.ID := db.ID row;
     db.Amount := numeric io (db.Amount row);
     db.Currency_ := db.Currency_ row;
     db.Reference := db.Reference row;
     db.Status := db.Status row;
     db.CreatedAt := timestamp io (db.CreatedAt row);
     db.UpdatedAt := timestamp io (db.UpdatedAt row) |}.

Definition quote : string := String (ascii_of_nat 34) EmptyString.

(** PostgreSQL's report of a violated unique constraint (SQLSTATE 23505), as
    the driver renders it. *)
Definition unique_violation (constraint : string) : error :=
  External ("ERROR: duplicate key value violates unique constraint "
            +:+ quote +:+ constraint +:+ quote +:+ " (SQLSTATE 23505)").

(** Rows carrying a reference: [SELECT count( * ) ... WHERE reference = ?]. *)
Definition count_reference (reference : string) (t : Table) : Z :=
  Z.of_nat (size (filter (λ kv : UUID * db.Payment, db.Reference kv.2 = reference) t)).

(** [db.Create(row)]: runs the [BeforeCreate] hook on the row, then inserts
    it; the primary key and the unique index on [reference] reject a
    duplicate. Returns the error, the row as the hook left it (the Go value,
    which the insert does not read back), and the table, which holds the row
    as its columns take it. *)
Definition Create (io : IO) (row : db.Payment) (t : Table)
  : option error * db.Payment * Table :=
  let row := db.BeforeCreate (random io) (clock io) row in
  match failure io with
  | Some text => (Some (External text), row, t)
  | None =>
      if decide (is_Some (t !! db.ID row)) then
        (Some (unique_violation "payments_pkey"), row, t)
      else if (0 <? count_reference (db.Reference row) t)%Z then
        (Some (unique_violation "idx_payments_reference"), row, t)
      else (None, row, <[db.ID row := columns io row]> t)
  end.

(** [db.Where("id = ?", id).First(&row)], with or without [FOR UPDATE]. *)
Definition First (io : IO) (id : UUID) (t : Table) : result db.Payment :=
  match failure io with
  | Some text => Err (External text)
  | None =>
      match t !! id with
      | Some row => Ok row
      | None => Err ErrRecordNotFound
      end
  end.

(** [db.Model(&Payment{}).Where("reference = ?", r).Count(&count)]. *)
Definition Count (io : IO) (reference : string) (t : Table) : result Z :=
  match failure io with
  | Some text => Err (External text)
  | None => Ok (count_reference reference t)
  end.

(** [tx.Save(&row)]: runs the [BeforeUpdate] hook, then writes every column
    of the row whose primary key it carries. The repository saves the row it
    has just read under the lock: its amount and creation time come from the
    columns and go back as they are; the update time is the hook's, and the
    column takes it at its precision. *)
Definition Save (io : IO) (row : db.Payment) (t : Table) : option error * Table :=
  match failure io with
  | Some text => (Some (External text), t)
  | None =>
      let row := db.BeforeUpdate (clock io) row in
      (None, <[db.ID row := {| db.ID := db.ID row;
                               db.Amount := db.Amount row;
                               db.Currency_ := db.Currency_ row;
                               db.Reference := db.Reference row;
                               db.Status := db.Status row;
                               db.CreatedAt := db.CreatedAt row;
                               db.UpdatedAt := timestamp io (db.UpdatedAt row) |}]> t)
  end.

(** [db.Transaction(fc)]: begin, run [fc], commit when it returns nil and roll
    back otherwise. A failed begin or commit is returned as it is and leaves
    the table as it was. *)
Definition Transaction (begin commit : option string)
    (fc : Table -> option error * Table) (t : Table) : option error * Table :=
  match begin with
  | Some text => (Some (External text), t)
  | None =>
      match fc t with
      | (Some e, _) => (Some e, t)
      | (None, t') =>
          match commit with
          | Some text => (Some (External text), t)
          | None => (None, t')
          end
      end
  end.

End gorm.

(** ** Package database: GormPaymentRepository *)

Module database.

Definition toCore (p : db.Payment) : core.Payment :=
  {| core.ID := db.ID p;
     core.Amount := db.Amount p;
     core.Currency_ := db.Currency_ p;
     core.Reference := db.Reference p;
     core.Status := db.Status p;
     core.CreatedAt := db.CreatedAt p;
     core.UpdatedAt := db.UpdatedAt p |}.

Definition fromCore (p : core.Payment) : db.Payment :=
  {| db.ID := core.ID p;
     db.Amount := core.Amount p;
     db.Currency_ := core.Currency_ p;
     db.Reference := core.Reference p;
     db.Status := core.Status p;
     db.CreatedAt := core.CreatedAt p;
     db.UpdatedAt := core.UpdatedAt p |}.

(** [Create]: the entity passed by pointer comes back with the timestamps the
    hook set. *)
Definition Create (io : gorm.IO) (payment : core.Payment) (t : Table)
  : option error * core.Payment * Table :=
  let dbPayment := fromCore payment in
  match gorm.Create io dbPayment t with
  | (Some err, _, _) =>
      (Some (Wrap "failed to create payment: " err), payment, t)
  | (None, dbPayment, t') =>
      (None,
       {| core.ID := core.ID payment;
          core.Amount := core.Amount payment;
          core.Currency_ := core.Currency_ payment;
          core.Reference := core.Reference payment;
          core.Status := core.Status payment;
          core.CreatedAt := db.CreatedAt dbPayment;
          core.UpdatedAt := db.UpdatedAt dbPayment |},
       t')
  end.

Definition GetByID (io : gorm.IO) (id : UUID) (t : Table) : result core.Payment :=
  match gorm.First io id t with
  | Err err =>
      if decide (err = ErrRecordNotFound) then Err (New "payment not found")
      else Err (Wrap "failed to get payment: " err)
  | Ok dbPayment => Ok (toCore dbPayment)
  end.

(** The outside world during one [ProcessPayment] transaction. *)
Record TxIO : Type := mkTxIO {
  begin : option string;
  lock : gorm.IO;
  now : Time;
  save : gorm.IO;
  commit : option string
}.

(** The function [ProcessPayment] hands to [Transaction]. *)
Definition ProcessPayment_fc (io : TxIO) (id : UUID)
    (newStatus : core.PaymentStatus) (tx : Table) : option error * Table :=
  match gorm.First (lock io) id tx with
  | Err err =>
      if decide (err = ErrRecordNotFound) then (Some (New "payment not found"), tx)
      else (Some (Wrap "failed to lock payment: " err), tx)
  | Ok dbPayment =>
      if negb (String.eqb (db.Status dbPayment) db.PaymentStatusPending) then
        (Some (New ("payment already processed: current status is "
                    +:+ db.Status dbPayment)), tx)
      else
        let dbPayment :=
          {| db.ID := db.ID dbPayment;
             db.Amount := db.Amount dbPayment;
             db.Currency_ := db.Currency_ dbPayment;
             db.Reference := db.Reference dbPayment;
             db.Status := newStatus;
             db.CreatedAt := db.CreatedAt dbPayment;
             db.UpdatedAt := now io |} in
        match gorm.Save (save io) dbPayment tx with
        | (Some err, _) => (Some (Wrap "failed to update payment: " err), tx)
        | (None, tx') => (None, tx')
        end
  end.

(** [ProcessPayment]: the conditional transition, one transaction holding the
    row lock from the read to the write. *)
Definition ProcessPayment (io : TxIO) (id : UUID)
    (newStatus : core.PaymentStatus) (t : Table) : option error * Table :=
  gorm.Transaction (begin io) (commit io) (ProcessPayment_fc io id newStatus) t.

Definition ReferenceExists (io : gorm.IO) (reference : string) (t : Table)
  : result bool :=
  match gorm.Count io reference t with
  | Err err => Err (Wrap "failed to check reference: " err)
  | Ok count => Ok (0 <? count)%Z
  end.

End database.

(** ** Package messaging: RabbitMQClient *)

Module messaging.

Definition ExchangeName : string := "payments".
Definition QueueName : string := "payment_processing".
Definition RoutingKey : string := "payment.created".
Definition PrefetchCount : Z := 1.

(** The trigger notice. *)
Record PaymentMessage : Type := mkPaymentMessage {
  PaymentID : UUID;
  Timestamp : Time
}.

(** [encoding/json] on [PaymentMessage]: [json.Marshal] and [json.Unmarshal]
    belong to the Go library, the adapter is written against them. *)
Class Codec : Type := {
  Marshal : PaymentMessage -> result string;
  Unmarshal : string -> result PaymentMessage
}.

(** A message in the queue: what [amqp.Publishing] sets and what
    [amqp.Delivery] shows of it. *)
Record Delivery : Type := mkDelivery {
  ContentType : string;
  DeliveryMode : Z;
  Published : Time;
  Body : string;
  Redelivered : bool
}.

Definition Persistent : Z := 2.

(** The outside world during one publish: the two clock readings and the
    failure the channel reports, if any. *)
Record PublishIO : Type := mkPublishIO {
  stamped : Time;
  sent : Time;
  refused : option string
}.

(** [PublishPaymentMessage]: the queue bound to the exchange by the routing
    key receives the message at its tail. *)
Definition PublishPaymentMessage `{Codec} (io : PublishIO) (paymentID : UUID)
    (q : list Delivery) : option error * list Delivery :=
  let message := {| PaymentID := paymentID; Timestamp := stamped io |} in
  match Marshal message with
  | Err err => (Some (Wrap "failed to marshal message: " err), q)
  | Ok body =>
      match refused io with
      | Some text =>
          (Some (Wrap "failed to publish message: " (External text)), q)
      | None =>
          (None,
           (q ++ [{| ContentType := "application/json";
                     DeliveryMode := Persistent;
                     Published := sent io;
                     Body := body;
                     Redelivered := false |}])%list)
      end
  end.

(** [isTerminalError]. *)
Definition isTerminalError (err : option error) : bool :=
  match err with
  | None => false
  | Some e =>
      let errStr := Error e in
      Contains errStr "already processed" || Contains errStr "payment not found"
  end.

(** How the consumer settles a delivery: [msg.Ack(multiple)] or
    [msg.Nack(multiple, requeue)]. *)
Inductive Settlement : Type :=
| Ack (multiple : bool)
| Nack (multiple requeue : bool).

#[global] Instance Settlement_eq_dec : EqDecision Settlement.
Proof. solve_decision. Defined.

(** One turn of the loop [ConsumePaymentMessages] starts over the
    deliveries: the settlement of [msg] and the state [handler] leaves. (The
    set-up before the loop, QoS and consumer registration, is left out.) *)
Definition ConsumePaymentMessages_turn `{Codec} {S : Type}
    (handler : PaymentMessage -> S -> option error * S)
    (msg : Delivery) (s : S) : Settlement * S :=
  match Unmarshal (Body msg) with
  | Err err => (Nack false true, s)
  | Ok paymentMsg =>
      match handler paymentMsg s with
      | (Some err, s') =>
          if isTerminalError (Some err) then (Ack false, s')
          else (Nack false true, s')
      | (None, s') => (Ack false, s')
      end
  end.

(** What the client asks of the AMQP library while it is set up and closed,
    in order. *)
Inductive Event : Type :=
| Dialed (url : string)
| ChannelOpened
| ExchangeDeclared (name kind : string) (durable : bool)
| QueueDeclared (name : string) (durable : bool)
| QueueBound (name key exchange : string)
| ChannelClosed
| ConnClosed.

(** The failure each call of the set-up meets, if any. *)
Record SetupIO : Type := mkSetupIO {
  dial : option string;
  open_channel : option string;
  declare_exchange : option string;
  declare_queue : option string;
  bind_queue : option string
}.

(** The client: its two pointers, [true] for one that is not nil. *)
Record RabbitMQClient : Type := mkRabbitMQClient {
  conn : bool;
  channel : bool
}.

(** [NewRabbitMQClientConcrete]: the client or the error, and the calls that
    went through. *)
Definition NewRabbitMQClientConcrete (io : SetupIO) (amqpURL : string)
  : result RabbitMQClient * list Event :=
  match dial io with
  | Some text => (Err (Wrap "failed to connect to RabbitMQ: " (External text)), [])
  | None =>
      match open_channel io with
      | Some text =>
          (Err (Wrap "failed to open channel: " (External text)),
           [Dialed amqpURL; ConnClosed])
      | None =>
          match declare_exchange io with
          | Some text =>
              (Err (Wrap "failed to declare exchange: " (External text)),
               [Dialed amqpURL; ChannelOpened; ChannelClosed; ConnClosed])
          | None =>
              match declare_queue io with
              | Some text =>
                  (Err (Wrap "failed to declare queue: " (External text)),
                   [Dialed amqpURL; ChannelOpened;
                    ExchangeDeclared ExchangeName "direct" true;
                    ChannelClosed; ConnClosed])
              | None =>
                  match bind_queue io with
                  | Some text =>
                      (Err (Wrap "failed to bind queue: " (External text)),
                       [Dialed amqpURL; ChannelOpened;
                        ExchangeDeclared ExchangeName "direct" true;
                        QueueDeclared QueueName true;
                        ChannelClosed; ConnClosed])
                  | None =>
                      (Ok {| conn := true; channel := true |},
                       [Dialed amqpURL; ChannelOpened;
                        ExchangeDeclared ExchangeName "direct" true;
                        QueueDeclared QueueName true;
                        QueueBound QueueName RoutingKey ExchangeName])
                  end
              end
          end
      end
  end.

(** [Close]: closes the channel, then the connection, each if it is there;
    returns what closing the connection returned. *)
Definition Close (conn_close : option string) (c : RabbitMQClient)
  : option error * list Event :=
  ((if conn c then option_map External conn_close else None),
   ((if channel c then [ChannelClosed] else [])
      ++ (if conn c then [ConnClosed] else []))%list).

End messaging.

(** ** Package input: the service port *)

Module input.

Record CreatePaymentRequest : Type := mkCreatePaymentRequest {
  Amount : float;
  Currency : core.Currency;
  Reference : string
}.

(** The response has the request's field names; here they carry [Resp]. *)
Record PaymentResponse : Type := mkPaymentResponse {
  ID : UUID;
  RespAmount : float;
  RespCurrency : core.Currency;
  RespReference : string;
  Status : core.PaymentStatus;
  CreatedAt : Time
}.

End input.

(** ** The system state *)

(** The table of payments and the queue of trigger notices. *)
Record Sys : Type := mkSys {
  table : Table;
  queue : list messaging.Delivery
}.

Definition initial : Sys := {| table := ∅; queue := [] |}.

(** ** Package service: PaymentServiceImpl and PaymentProcessor *)

Module service.

(** The outside world during one [CreatePayment]: the bytes [uuid.New] draws
    and what each call to the store and to the channel meets. *)
Record CreateIO : Type := mkCreateIO {
  entropy : N;
  exists_ : gorm.IO;
  create : gorm.IO;
  publish : messaging.PublishIO
}.

Definition PaymentResponse_of (payment : core.Payment) : input.PaymentResponse :=
  {| input.ID := core.ID payment;
     input.RespAmount := core.Amount payment;
     input.RespCurrency := core.Currency_ payment;
     input.RespReference := core.Reference payment;
     input.Status := core.Status payment;
     input.CreatedAt := core.CreatedAt payment |}.

(** [CreatePayment], run with no other process touching the system between
    its calls. *)
Definition CreatePayment `{messaging.Codec} (io : CreateIO)
    (req : input.CreatePaymentRequest) (s : Sys)
  : result input.PaymentResponse * Sys :=
  if PrimFloat.leb (input.Amount req) 0%float then
    (Err (New "amount must be greater than zero"), s)
  else if negb (String.eqb (input.Currency req) core.CurrencyETB)
          && negb (String.eqb (input.Currency req) core.CurrencyUSD) then
    (Err (New "currency must be ETB or USD"), s)
  else
    let req := {| input.Amount := input.Amount req;
                  input.Currency := input.Currency req;
                  input.Reference := TrimSpace (input.Reference req) |} in
    if String.eqb (input.Reference req) "" then
      (Err (New "reference is required"), s)
    else
      match database.ReferenceExists (exists_ io) (input.Reference req) (table s) with
      | Err err => (Err (Wrap "failed to validate reference: " err), s)
      | Ok true => (Err (New "reference already exists"), s)
      | Ok false =>
          let payment :=
            {| core.ID := uuid_New (entropy io);
               core.Amount := input.Amount req;
               core.Currency_ := input.Currency req;
               core.Reference := input.Reference req;
               core.Status := core.PaymentStatusPending;
               core.CreatedAt := Time_zero;
               core.UpdatedAt := Time_zero |} in
          match database.Create (create io) payment (table s) with
          | (Some err, _, _) => (Err (Wrap "failed to create payment: " err), s)
          | (None, payment, t) =>
              let s := {| table := t; queue := queue s |} in
              match messaging.PublishPaymentMessage (publish io) (core.ID payment) (queue s) with
              | (Some err, _) =>
                  (Err (Wrap "payment created but failed to publish message: " err), s)
              | (None, q) =>
                  (Ok (PaymentResponse_of payment), {| table := table s; queue := q |})
              end
          end
      end.

(** [CreatePayment] cut at its calls to the store and to the channel, which
    are the points where another process can act: a call is about to
    validate and check the reference, or to insert, or to publish, or has
    returned. *)
Inductive Call : Type :=
| Checking (req : input.CreatePaymentRequest)
| Inserting (req : input.CreatePaymentRequest)
| Publishing (payment : core.Payment)
| Returned (r : result input.PaymentResponse).

Definition CreatePayment_step `{messaging.Codec} (io : CreateIO) (c : Call)
    (s : Sys) : Call * Sys :=
  match c with
  | Checking req =>
      if PrimFloat.leb (input.Amount req) 0%float then
        (Returned (Err (New "amount must be greater than zero")), s)
      else if negb (String.eqb (input.Currency req) core.CurrencyETB)
              && negb (String.eqb (input.Currency req) core.CurrencyUSD) then
        (Returned (Err (New "currency must be ETB or USD")), s)
      else
        let req := {| input.Amount := input.Amount req;
                      input.Currency := input.Currency req;
                      input.Reference := TrimSpace (input.Reference req) |} in
        if String.eqb (input.Reference req) "" then
          (Returned (Err (New "reference is required")), s)
        else
          match database.ReferenceExists (exists_ io) (input.Reference req) (table s) with
          | Err err => (Returned (Err (Wrap "failed to validate reference: " err)), s)
          | Ok true => (Returned (Err (New "reference already exists")), s)
          | Ok false => (Inserting req, s)
          end
  | Inserting req =>
      let payment :=
        {| core.ID := uuid_New (entropy io);
           core.Amount := input.Amount req;
           core.Currency_ := input.Currency req;
           core.Reference := input.Reference req;
           core.Status := core.PaymentStatusPending;
           core.CreatedAt := Time_zero;
           core.UpdatedAt := Time_zero |} in
      match database.Create (create io) payment (table s) with
      | (Some err, _, _) =>
          (Returned (Err (Wrap "failed to create payment: " err)), s)
      | (None, payment, t) => (Publishing payment, {| table := t; queue := queue s |})
      end
  | Publishing payment =>
      match messaging.PublishPaymentMessage (publish io) (core.ID payment) (queue s) with
      | (Some err, _) =>
          (Returned (Err (Wrap "payment created but failed to publish message: " err)), s)
      | (None, q) =>
          (Returned (Ok (PaymentResponse_of payment)), {| table := table s; queue := q |})
      end
  | Returned r => (Returned r, s)
  end.

(** [GetPayment]. *)
Definition GetPayment (io : gorm.IO) (id : UUID) (s : Sys)
  : result input.PaymentResponse :=
  match database.GetByID io id (table s) with
  | Err err => Err (Wrap "failed to get payment: " err)
  | Ok payment => Ok (PaymentResponse_of payment)
  end.

(** The outside world during one [ProcessPayment] of the processor: the
    number [rand.Float32] draws and what the transaction meets. *)
Record ProcessIO : Type := mkProcessIO {
  Float32 : float;
  tx : database.TxIO
}.

(** [PaymentProcessor.ProcessPayment]. *)
Definition ProcessPayment (io : ProcessIO) (paymentID : UUID) (t : Table)
  : option error * Table :=
  let status :=
    if PrimFloat.ltb (Float32 io) 0.5%float then core.PaymentStatusSuccess
    else core.PaymentStatusFailed in
  match database.ProcessPayment (tx io) paymentID status t with
  | (Some err, t') => (Some (Wrap "failed to process payment: " err), t')
  | (None, t') => (None, t')
  end.

End service.

(** ** Package http: PaymentHandler *)

Module http.

Definition StatusOK : Z := 200.
Definition StatusCreated : Z := 201.
Definition StatusBadRequest : Z := 400.
Definition StatusNotFound : Z := 404.
Definition StatusConflict : Z := 409.
Definition StatusInternalServerError : Z := 500.

Record CreatePaymentRequest : Type := mkCreatePaymentRequest {
  Amount : float;
  Currency : string;
  Reference : string
}.

(** What [c.JSON(code, body)] sends: an error object or a payment. The
    payment's identifier and creation time are rendered to text by the
    encoder; here they stay as they are. *)
Inductive Body : Type :=
| ErrorBody (error_ : string)
| PaymentBody (payment : input.PaymentResponse).

Record Response : Type := JSON {
  code : Z;
  body : Body
}.

(** The reply of [CreatePayment] to what the service returned. *)
Definition CreatePayment_reply (r : result input.PaymentResponse) : Response :=
  match r with
  | Err err =>
      if Contains (Error err) "must be greater than zero"
         || Contains (Error err) "must be ETB or USD"
         || Contains (Error err) "reference is required" then
        JSON StatusBadRequest (ErrorBody (Error err))
      else if Contains (Error err) "already exists" then
        JSON StatusConflict (ErrorBody (Error err))
      else
        JSON StatusInternalServerError (ErrorBody "Failed to create payment")
  | Ok response => JSON StatusCreated (PaymentBody response)
  end.

(** [CreatePayment], from the outcome of [c.Bind(&req)] on. *)
Definition CreatePayment `{messaging.Codec} (io : service.CreateIO)
    (bind : result CreatePaymentRequest) (s : Sys) : Response * Sys :=
  match bind with
  | Err _ => (JSON StatusBadRequest (ErrorBody "Invalid request body"), s)
  | Ok req =>
      let serviceReq :=
        {| input.Amount := Amount req;
           input.Currency := Currency req;
           input.Reference := Reference req |} in
      let '(r, s') := service.CreatePayment io serviceReq s in
      (CreatePayment_reply r, s')
  end.

(** The reply of [GetPayment] to what the service returned. *)
Definition GetPayment_reply (r : result input.PaymentResponse) : Response :=
  match r with
  | Err err =>
      if Contains (Error err) "not found" then
        JSON StatusNotFound (ErrorBody "Payment not found")
      else
        JSON StatusInternalServerError (ErrorBody "Failed to retrieve payment")
  | Ok response => JSON StatusOK (PaymentBody response)
  end.

(** [GetPayment], from the outcome of [uuid.Parse(c.Param("id"))] on. *)
Definition GetPayment (io : gorm.IO) (parse : result UUID) (s : Sys) : Response :=
  match parse with
  | Err _ => JSON StatusBadRequest (ErrorBody "Invalid payment ID")
  | Ok id => GetPayment_reply (service.GetPayment io id s)
  end.

End http.

(** ** The worker process and the broker *)

Module worker.

(** The handler [main] gives to [ConsumePaymentMessages]. *)
Definition handler (io : service.ProcessIO) (msg : messaging.PaymentMessage)
    (s : Sys) : option error * Sys :=
  let '(err, t) := service.ProcessPayment io (messaging.PaymentID msg) (table s) in
  (err, {| table := t; queue := queue s |}).

(** The broker's side of a settlement: an acknowledged delivery is gone; one
    rejected with requeue goes back to the head of the queue, marked as
    redelivered; one rejected without requeue is dropped. *)
Definition settle (a : messaging.Settlement) (msg : messaging.Delivery)
    (q : list messaging.Delivery) : list messaging.Delivery :=
  match a with
  | messaging.Ack _ => q
  | messaging.Nack _ true =>
      {| messaging.ContentType := messaging.ContentType msg;
         messaging.DeliveryMode := messaging.DeliveryMode msg;
         messaging.Published := messaging.Published msg;
         messaging.Body := messaging.Body msg;
         messaging.Redelivered := true |} :: q
  | messaging.Nack _ false => q
  end.

(** The consumer takes the delivery at the head of the queue (prefetch is
    one), runs a turn of its loop on it and settles it. [None]: the queue is
    empty and the consumer waits. *)
Definition consume `{messaging.Codec} (io : service.ProcessIO) (s : Sys)
  : option (messaging.Settlement * Sys) :=
  match queue s with
  | [] => None
  | msg :: rest =>
      let '(a, s') :=
        messaging.ConsumePaymentMessages_turn (handler io) msg
          {| table := table s; queue := rest |} in
      Some (a, {| table := table s'; queue := settle a msg (queue s') |})
  end.

Definition deliver `{messaging.Codec} (io : service.ProcessIO) (s : Sys) : Sys :=
  match consume io s with
  | Some (_, s') => s'
  | None => s
  end.

(** The consumer loop, one turn for each entry of [ios]. *)
Fixpoint run `{messaging.Codec} (ios : list service.ProcessIO) (s : Sys) : Sys :=
  match ios with
  | [] => s
  | io :: ios' => run ios' (deliver io s)
  end.

(** The settlements of these turns, in order. *)
Fixpoint settlements `{messaging.Codec} (ios : list service.ProcessIO) (s : Sys)
  : list messaging.Settlement :=
  match ios with
  | [] => []
  | io :: ios' =>
      match consume io s with
      | Some (a, s') => a :: settlements ios' s'
      | None => settlements ios' s
      end
  end.

End worker.

(** ** The system: API processes, workers, broker *)

Section System.

Context `{messaging.Codec}.

(** One atomic step: an API process advances a [CreatePayment] call by one
    store or channel operation, a worker consumes the head of the queue, or
    the broker delivers a queued notice once more (at-least-once delivery).
    The call that advances may stand at any of its points with any local
    state: this covers every interleaving of concurrent calls, and more. The
    conditional transition of a worker is one transaction under the row lock,
    hence one step. *)
Inductive step : Sys -> Sys -> Prop :=
| step_api (io : service.CreateIO) (c : service.Call) (s : Sys) :
    step s (service.CreatePayment_step io c s).2
| step_worker (io : service.ProcessIO) (s : Sys) :
    step s (worker.deliver io s)
| step_redeliver (d : messaging.Delivery) (s : Sys) :
    In d (queue s) ->
    step s {| table := table s; queue := worker.settle (messaging.Nack false true) d (queue s) |}.

Inductive reachable : Sys -> Prop :=
| reachable_initial : reachable initial
| reachable_step (s s' : Sys) : reachable s -> step s s' -> reachable s'.

End System.

(** ** A codec for the examples *)

Module plain.

Definition dec_N (n : N) : string := NilEmpty.string_of_uint (N.to_uint n).
Definition dec_Z (z : Z) : string := NilZero.string_of_int (Z.to_int z).

Definition key (name : string) : string :=
  gorm.quote +:+ name +:+ gorm.quote +:+ ":".

Fixpoint strip (p s : string) : option string :=
  match p, s with
  | EmptyString, _ => Some s
  | String _ _, EmptyString => None
  | String b p', String a s' => if Ascii.eqb a b then strip p' s' else None
  end.

Definition cut (sep s : string) : option (string * string) :=
  match String.index 0 sep s with
  | Some n =>
      Some (String.substring 0 n s,
            String.substring (n + String.length sep)
                             (String.length s - n - String.length sep) s)
  | None => None
  end.

Definition syntax_error : error := External "invalid character in payment message".

(** Writes an object with the two fields in decimal, [payment_id] then
    [timestamp], and reads back exactly that form. Anything else is a syntax
    error: a stricter reader than [encoding/json], with which it agrees on
    bytes that are not JSON at all. *)
#[export] Instance codec : messaging.Codec := {|
  messaging.Marshal m :=
    Ok ("{" +:+ key "payment_id" +:+ dec_N (messaging.PaymentID m) +:+ ","
        +:+ key "timestamp" +:+ dec_Z (messaging.Timestamp m) +:+ "}");
  messaging.Unmarshal s :=
    match strip ("{" +:+ key "payment_id") s with
    | None => Err syntax_error
    | Some s1 =>
        match cut ("," +:+ key "timestamp") s1 with
        | None => Err syntax_error
        | Some (id, s2) =>
            match cut "}" s2 with
            | Some (ts, EmptyString) =>
                match NilEmpty.uint_of_string id, NilZero.int_of_string ts with
                | Some (Decimal.Nil), _ => Err syntax_error
                | Some n, Some z =>
                    Ok {| messaging.PaymentID := N.of_uint n;
                          messaging.Timestamp := Z.of_int z |}
                | _, _ => Err syntax_error
                end
            | _ => Err syntax_error
            end
        end
    end
|}.

End plain.

(** * Statements *)

(** ** The conditional transition *)

(** The transaction meets no failure of the store. *)
Definition available (io : database.TxIO) : Prop :=
  database.begin io = None
  /\ gorm.failure (database.lock io) = None
  /\ gorm.failure (database.save io) = None
  /\ database.commit io = None.

(** The error [ProcessPayment] returns for a record that left PENDING. *)
Definition AlreadyProcessed (current : db.PaymentStatus) : error :=
  New ("payment already processed: current status is " +:+ current).

(** Two conditional transitions in a row on the record [id]: the first
    returns nil and changes the status to its target, the second fails with
    [AlreadyProcessed] carrying the status the first wrote, and writes
    nothing. *)
Definition transition_twice (io1 io2 : database.TxIO) (id : UUID)
    (target1 target2 : core.PaymentStatus) (t : Table) : Prop :=
  exists row, t !! id = Some row
  /\ let first := database.ProcessPayment io1 id target1 t in
     let second := database.ProcessPayment io2 id target2 first.2 in
     first.1 = None
     /\ (exists row1, first.2 !! id = Some row1
                      /\ db.Status row1 = target1
                      /\ db.Status row1 <> db.Status row)
     /\ second.1 = Some (AlreadyProcessed target1)
     /\ second.2 = first.2.

(** ** The status of a payment over the runs of the system *)

(** Every row is stored under its own identifier. *)
Definition keyed (t : Table) : Prop :=
  forall id row, t !! id = Some row -> db.ID row = id.

Definition known_status (st : db.PaymentStatus) : Prop :=
  st = db.PaymentStatusPending
  \/ st = db.PaymentStatusSuccess
  \/ st = db.PaymentStatusFailed.

Definition terminal (st : db.PaymentStatus) : Prop :=
  st = db.PaymentStatusSuccess \/ st = db.PaymentStatusFailed.

(** A step from [s] to [s']: a payment that appears starts PENDING; a payment
    that was there stays, its status the same or gone from PENDING to SUCCESS
    or to FAILED; a payment in SUCCESS or FAILED keeps its status. *)
Definition monotone_step (s s' : Sys) : Prop :=
  (forall id row', table s !! id = None -> table s' !! id = Some row' ->
                   db.Status row' = db.PaymentStatusPending)
  /\ (forall id row, table s !! id = Some row ->
        exists row', table s' !! id = Some row'
                     /\ (db.Status row' = db.Status row
                         \/ db.Status row = db.PaymentStatusPending
                            /\ terminal (db.Status row')))
  /\ (forall id row row', table s !! id = Some row -> terminal (db.Status row) ->
        table s' !! id = Some row' -> db.Status row' = db.Status row).

(** ** The delivery adapter *)

Definition NotFound : error := New "payment not found".

(** What the processor returns to the adapter, by the place it comes from:
    nil after the transition succeeded, the wrapped already-processed error,
    the wrapped not-found error. *)
Definition processed (outcome : option error) : Prop := outcome = None.

Definition already_processed (outcome : option error) : Prop :=
  exists current,
    outcome = Some (Wrap "failed to process payment: " (AlreadyProcessed current)).

Definition not_found (outcome : option error) : Prop :=
  outcome = Some (Wrap "failed to process payment: " NotFound).

(** The text of a failure of the store holds neither of the two phrases by
    which [isTerminalError] recognises a permanent outcome. The adapter sees
    the processor's error as text only, so this is what keeps a failure of
    the driver from being taken for one of the two. *)
Definition unmarked (text : string) : Prop :=
  Contains text "already processed" = false
  /\ Contains text "payment not found" = false.

Definition unmarked_failures (io : database.TxIO) : Prop :=
  forall text,
    database.begin io = Some text
    \/ gorm.failure (database.lock io) = Some text
    \/ gorm.failure (database.save io) = Some text
    \/ database.commit io = Some text ->
    unmarked text.

(** The processor's error reads like a permanent outcome: its text holds one
    of the two phrases [isTerminalError] looks for. *)
Definition marked (outcome : option error) : Prop :=
  exists e,
    outcome = Some e
    /\ (Contains (Error e) "already processed" = true
        \/ Contains (Error e) "payment not found" = true).

(** The delivery as the broker hands it out again. *)
Definition redelivered (d : messaging.Delivery) : messaging.Delivery :=
  {| messaging.ContentType := messaging.ContentType d;
     messaging.DeliveryMode := messaging.DeliveryMode d;
     messaging.Published := messaging.Published d;
     messaging.Body := messaging.Body d;
     messaging.Redelivered := true |}.

Definition undecodable `{messaging.Codec} (d : messaging.Delivery) : Prop :=
  exists e, messaging.Unmarshal (messaging.Body d) = Err e.

(** The policy for a notice that does not decode, as the specification words
    it: rejected with requeue at the first delivery, acknowledged and dropped
    at the second. *)
Definition requeue_once_then_drop `{messaging.Codec}
    (io1 io2 : service.ProcessIO) (s : Sys) : Prop :=
  worker.settlements [io1; io2] s
  = [messaging.Nack false true; messaging.Ack false].

(** C7 as the specification words it: the notice at the head of the queue,
    which decodes to [pm], is acknowledged exactly when the processor's
    result is success, already-processed or not-found, and rejected with
    requeue on every other failure. *)
Definition settles_by_outcome `{messaging.Codec} (io : service.ProcessIO)
    (pm : messaging.PaymentMessage) (s : Sys) : Prop :=
  let run := service.ProcessPayment io (messaging.PaymentID pm) (table s) in
  let permanent := processed run.1 \/ already_processed run.1 \/ not_found run.1 in
  exists a s',
    worker.consume io s = Some (a, s')
    /\ (a = messaging.Ack false <-> permanent)
    /\ (~ permanent -> a = messaging.Nack false true).

(** The processor's answer to a conditional transition that failed with
    already-processed, as the specification words it: no error. *)
Definition absorbed_without_error (io : service.ProcessIO) (id : UUID)
    (t : Table) : Prop :=
  (service.ProcessPayment io id t).1 = None.

(** ** White space around a reference *)

(** [runs p1 p2 p3 s]: [s] is a sequence of runes, each of one byte that [p1]
    accepts, of two that [p2] accepts or of three that [p3] accepts. *)
Inductive runs (p1 : ascii -> bool) (p2 : ascii -> ascii -> bool)
    (p3 : ascii -> ascii -> ascii -> bool) : string -> Prop :=
| runs_nil : runs p1 p2 p3 ""
| runs_1 a s : p1 a = true -> runs p1 p2 p3 s -> runs p1 p2 p3 (String a s)
| runs_2 a b s :
    p2 a b = true -> runs p1 p2 p3 s -> runs p1 p2 p3 (String a (String b s))
| runs_3 a b c s :
    p3 a b c = true -> runs p1 p2 p3 s ->
    runs p1 p2 p3 (String a (String b (String c s))).

(** [s] starts with such a rune. *)
Definition starts (p1 : ascii -> bool) (p2 : ascii -> ascii -> bool)
    (p3 : ascii -> ascii -> ascii -> bool) (s : string) : bool :=
  match s with
  | EmptyString => false
  | String a s1 =>
      p1 a
      || match s1 with
         | EmptyString => false
         | String b s2 =>
             p2 a b
             || match s2 with
                | EmptyString => false
                | String c _ => p3 a b c
                end
         end
  end.

(** A run of white-space runes, in UTF-8. *)
Definition white : string -> Prop := runs asciiSpace space2 space3.

(** The string starts, or ends, with a white-space rune. *)
Definition leading_space : string -> bool := starts asciiSpace space2 space3.

Definition trailing_space (s : string) : bool :=
  starts asciiSpace (fun a b => space2 b a) (fun a b c => space3 c b a)
    (string_rev s).

(** ** The creation service *)

(** The request passes the three validations of [CreatePayment]. *)
Definition passes_validation (req : input.CreatePaymentRequest) : Prop :=
  PrimFloat.leb (input.Amount req) 0%float = false
  /\ (input.Currency req = core.CurrencyETB \/ input.Currency req = core.CurrencyUSD)
  /\ TrimSpace (input.Reference req) <> "".

(** The row [CreatePayment] sends to the insert, as the hook leaves it. *)
Definition sent_row (io : service.CreateIO) (req : input.CreatePaymentRequest)
  : db.Payment :=
  {| db.ID := uuid_New (service.entropy io);
     db.Amount := input.Amount req;
     db.Currency_ := input.Currency req;
     db.Reference := TrimSpace (input.Reference req);
     db.Status := db.PaymentStatusPending;
     db.CreatedAt := gorm.clock (service.create io);
     db.UpdatedAt := gorm.clock (service.create io) |}.

(** The row the table holds after [CreatePayment] inserted it (the amount and
    the timestamps as the columns take them) and the response it returns
    (the amount of the request and the time the hook read). *)
Definition new_row (io : service.CreateIO) (req : input.CreatePaymentRequest)
  : db.Payment :=
  {| db.ID := uuid_New (service.entropy io);
     db.Amount := gorm.numeric (service.create io) (input.Amount req);
     db.Currency_ := input.Currency req;
     db.Reference := TrimSpace (input.Reference req);
     db.Status := db.PaymentStatusPending;
     db.CreatedAt :=
       gorm.timestamp (service.create io) (gorm.clock (service.create io));
     db.UpdatedAt :=
       gorm.timestamp (service.create io) (gorm.clock (service.create io)) |}.

Definition new_response (io : service.CreateIO) (req : input.CreatePaymentRequest)
  : input.PaymentResponse :=
  {| input.ID := uuid_New (service.entropy io);
     input.RespAmount := input.Amount req;
     input.RespCurrency := input.Currency req;
     input.RespReference := TrimSpace (input.Reference req);
     input.Status := core.PaymentStatusPending;
     input.CreatedAt := gorm.clock (service.create io) |}.

(** C9 as the specification words it: the call leaves exactly one new
    record, PENDING, and returns a response that carries that record's
    identifier, amount, currency, reference and status. *)
Definition response_carries_record `{messaging.Codec} (io : service.CreateIO)
    (req : input.CreatePaymentRequest) (s : Sys) : Prop :=
  exists resp row,
    (service.CreatePayment io req s).1 = Ok resp
    /\ table (service.CreatePayment io req s).2 = <[db.ID row := row]> (table s)
    /\ table s !! db.ID row = None
    /\ db.Status row = db.PaymentStatusPending
    /\ input.ID resp = db.ID row
    /\ input.RespAmount resp = db.Amount row
    /\ input.RespCurrency resp = db.Currency_ row
    /\ input.RespReference resp = db.Reference row
    /\ input.Status resp = core.PaymentStatusPending.

(** The eight ways [CreatePayment] ends, each with the conditions under which
    it is taken, the result and the system it leaves. *)
Inductive CreateOutcome `{messaging.Codec} (io : service.CreateIO)
    (req : input.CreatePaymentRequest) (s : Sys)
  : result input.PaymentResponse * Sys -> Prop :=
| InvalidAmount :
    PrimFloat.leb (input.Amount req) 0%float = true ->
    CreateOutcome io req s (Err (New "amount must be greater than zero"), s)
| InvalidCurrency :
    PrimFloat.leb (input.Amount req) 0%float = false ->
    input.Currency req <> core.CurrencyETB ->
    input.Currency req <> core.CurrencyUSD ->
    CreateOutcome io req s (Err (New "currency must be ETB or USD"), s)
| InvalidReference :
    PrimFloat.leb (input.Amount req) 0%float = false ->
    (input.Currency req = core.CurrencyETB \/ input.Currency req = core.CurrencyUSD) ->
    TrimSpace (input.Reference req) = "" ->
    CreateOutcome io req s (Err (New "reference is required"), s)
| CheckFailed (text : string) :
    passes_validation req ->
    gorm.failure (service.exists_ io) = Some text ->
    CreateOutcome io req s
      (Err (Wrap "failed to validate reference: "
              (Wrap "failed to check reference: " (External text))), s)
| ReferenceConflict :
    passes_validation req ->
    gorm.failure (service.exists_ io) = None ->
    (0 < gorm.count_reference (TrimSpace (input.Reference req)) (table s))%Z ->
    CreateOutcome io req s (Err (New "reference already exists"), s)
| CreateFailed (e : error) :
    passes_validation req ->
    gorm.failure (service.exists_ io) = None ->
    (gorm.count_reference (TrimSpace (input.Reference req)) (table s) <= 0)%Z ->
    (exists text, gorm.failure (service.create io) = Some text /\ e = External text)
    \/ (gorm.failure (service.create io) = None
        /\ is_Some (table s !! uuid_New (service.entropy io))
        /\ e = gorm.unique_violation "payments_pkey") ->
    CreateOutcome io req s
      (Err (Wrap "failed to create payment: " (Wrap "failed to create payment: " e)), s)
| CreatedButNotQueued (err : error) (q : list messaging.Delivery) :
    passes_validation req ->
    gorm.failure (service.exists_ io) = None ->
    (gorm.count_reference (TrimSpace (input.Reference req)) (table s) <= 0)%Z ->
    gorm.failure (service.create io) = None ->
    table s !! uuid_New (service.entropy io) = None ->
    messaging.PublishPaymentMessage (service.publish io)
      (uuid_New (service.entropy io)) (queue s) = (Some err, q) ->
    CreateOutcome io req s
      (Err (Wrap "payment created but failed to publish message: " err),
       {| table := <[uuid_New (service.entropy io) := new_row io req]> (table s);
          queue := queue s |})
| Created (q : list messaging.Delivery) :
    passes_validation req ->
    gorm.failure (service.exists_ io) = None ->
    (gorm.count_reference (TrimSpace (input.Reference req)) (table s) <= 0)%Z ->
    gorm.failure (service.create io) = None ->
    table s !! uuid_New (service.entropy io) = None ->
    messaging.PublishPaymentMessage (service.publish io)
      (uuid_New (service.entropy io)) (queue s) = (None, q) ->
    CreateOutcome io req s
      (Ok (new_response io req),
       {| table := <[uuid_New (service.entropy io) := new_row io req]> (table s);
          queue := q |}).

(** ** Sample values for the examples *)

Module sample.

(** Columns for the examples. [numeric]: the amount rounded to the nearest
    hundredth, a tie away from zero, and read back as the nearest [float64];
    NaN, which [numeric] columns hold, and what is out of the range of the
    column are left as they are. [timestamp]: the time, in nanoseconds, cut
    to microseconds. *)
Definition of_Z (z : Z) : float :=
  if (z <? 0)%Z then PrimFloat.opp (PrimFloat.of_uint63 (Uint63.of_Z (- z)))
  else PrimFloat.of_uint63 (Uint63.of_Z z).

(** The hundredth nearest to [m * 2 ^ e], in hundredths. *)
Definition hundredths (m : positive) (e : Z) : Z :=
  if (0 <=? e)%Z then (Zpos m * 100 * 2 ^ e)%Z
  else ((2 * (Zpos m * 100) + 2 ^ (- e)) / (2 * 2 ^ (- e)))%Z.

Definition numeric (x : float) : float :=
  match Prim2SF x with
  | S754_finite negative m e =>
      let c := hundredths m e in
      if (c <? 10 ^ 15)%Z then
        PrimFloat.div (of_Z (if negative then (- c)%Z else c)) 100%float
      else x
  | _ => x
  end.

Definition timestamp (t : Time) : Time := (t / 1000 * 1000)%Z.

Definition healthy : gorm.IO :=
  {| gorm.failure := None; gorm.clock := 1700000000%Z; gorm.random := 7%N;
     gorm.numeric := numeric; gorm.timestamp := timestamp |}.

Definition txio : database.TxIO :=
  {| database.begin := None;
     database.lock := healthy;
     database.now := 1700000001%Z;
     database.save := healthy;
     database.commit := None |}.

Definition row (id : UUID) (reference : string) (status : db.PaymentStatus)
  : db.Payment :=
  {| db.ID := id;
     db.Amount := 100.5%float;
     db.Currency_ := db.CurrencyUSD;
     db.Reference := reference;
     db.Status := status;
     db.CreatedAt := 1600000000%Z;
     db.UpdatedAt := 1600000000%Z |}.

Definition publishing : messaging.PublishIO :=
  {| messaging.stamped := 1700000002%Z;
     messaging.sent := 1700000003%Z;
     messaging.refused := None |}.

Definition createio (entropy : N) : service.CreateIO :=
  {| service.entropy := entropy;
     service.exists_ := healthy;
     service.create := healthy;
     service.publish := publishing |}.

Definition request (amount : float) (reference : string)
  : input.CreatePaymentRequest :=
  {| input.Amount := amount;
     input.Currency := core.CurrencyUSD;
     input.Reference := reference |}.

Definition processio (draw : float) : service.ProcessIO :=
  {| service.Float32 := draw; service.tx := txio |}.

(** A channel that refuses the publish. *)
Definition refusing (entropy : N) : service.CreateIO :=
  {| service.entropy := entropy;
     service.exists_ := healthy;
     service.create := healthy;
     service.publish :=
       {| messaging.stamped := 1700000002%Z;
          messaging.sent := 1700000003%Z;
          messaging.refused := Some "channel closed" |} |}.

(** The body [plain.codec] writes for a notice. *)
Definition body (id : UUID) : string :=
  match messaging.Marshal (Codec := plain.codec)
          {| messaging.PaymentID := id; messaging.Timestamp := 1700000002%Z |} with
  | Ok text => text
  | Err _ => EmptyString
  end.

Definition notice (body : string) : messaging.Delivery :=
  {| messaging.ContentType := "application/json";
     messaging.DeliveryMode := messaging.Persistent;
     messaging.Published := 1700000003%Z;
     messaging.Body := body;
     messaging.Redelivered := false |}.

End sample.

(** ** Further statements: the store, repeated processing, the client *)

(** No two rows carry the same reference. *)
Definition unique_references (t : Table) : Prop :=
  forall id1 id2 row1 row2,
    t !! id1 = Some row1 -> t !! id2 = Some row2 ->
    db.Reference row1 = db.Reference row2 -> id1 = id2.

(** The store reads: the transaction begins and the locking read goes
    through. *)
Definition readable (io : database.TxIO) : Prop :=
  database.begin io = None /\ gorm.failure (database.lock io) = None.

(** What a lookup answers for the payment of which [CreatePayment] returned
    [resp], once the record is in status [st]: the response with the amount
    and the creation time as the columns took them. *)
Definition read_back (io : service.CreateIO) (resp : input.PaymentResponse)
    (st : core.PaymentStatus) : input.PaymentResponse :=
  {| input.ID := input.ID resp;
     input.RespAmount := gorm.numeric (service.create io) (input.RespAmount resp);
     input.RespCurrency := input.RespCurrency resp;
     input.RespReference := input.RespReference resp;
     input.Status := st;
     input.CreatedAt := gorm.timestamp (service.create io) (input.CreatedAt resp) |}.

(** The status the processor picks from its draw. *)
Definition picked (io : service.ProcessIO) : core.PaymentStatus :=
  if PrimFloat.ltb (service.Float32 io) 0.5%float then core.PaymentStatusSuccess
  else core.PaymentStatusFailed.

(** The processor called once for each entry of [ios] on the same payment:
    what each call returned, and the table at the end. *)
Fixpoint process_all (ios : list service.ProcessIO) (id : UUID) (t : Table)
  : list (option error) * Table :=
  match ios with
  | [] => ([], t)
  | io :: ios' =>
      let '(err, t1) := service.ProcessPayment io id t in
      let '(errs, t2) := process_all ios' id t1 in
      (err :: errs, t2)
  end.

(** Connections and channels opened and not closed by a sequence of calls. *)
Fixpoint held (events : list messaging.Event) : Z * Z :=
  match events with
  | [] => (0, 0)%Z
  | e :: rest =>
      let '(conns, chans) := held rest in
      match e with
      | messaging.Dialed _ => (conns + 1, chans)
      | messaging.ChannelOpened => (conns, chans + 1)
      | messaging.ConnClosed => (conns - 1, chans)
      | messaging.ChannelClosed => (conns, chans - 1)
      | _ => (conns, chans)
      end%Z
  end.

(** The notice decodes to a message for the payment [id]. *)
Definition addressed `{messaging.Codec} (id : UUID) (d : messaging.Delivery) : Prop :=
  exists pm, messaging.Unmarshal (messaging.Body d) = Ok pm
             /\ messaging.PaymentID pm = id.

(** Further sample values. *)
Module example.

Definition entity (id : UUID) (reference : string) : core.Payment :=
  {| core.ID := id;
     core.Amount := 250%float;
     core.Currency_ := core.CurrencyETB;
     core.Reference := reference;
     core.Status := core.PaymentStatusPending;
     core.CreatedAt := Time_zero;
     core.UpdatedAt := Time_zero |}.

Definition failing (text : string) : gorm.IO :=
  {| gorm.failure := Some text; gorm.clock := 1700000000%Z; gorm.random := 7%N;
     gorm.numeric := sample.numeric; gorm.timestamp := sample.timestamp |}.

(** White space: U+00A0, U+2003, tab, U+3000 and line feed, in UTF-8. *)
Definition nbsp : string :=
  String (ascii_of_nat 0xc2) (String (ascii_of_nat 0xa0) "").

Definition em_space : string :=
  String (ascii_of_nat 0xe2) (String (ascii_of_nat 0x80) (String (ascii_of_nat 0x83) "")).

Definition tab : string := String (ascii_of_nat 9) "".

Definition ideographic_space : string :=
  String (ascii_of_nat 0xe3) (String (ascii_of_nat 0x80) (String (ascii_of_nat 0x80) "")).

Definition newline : string := String (ascii_of_nat 10) "".

(** A store whose clock reads a time that is not a whole microsecond. *)
Definition precise : gorm.IO :=
  {| gorm.failure := None; gorm.clock := 1700000000123456789%Z;
     gorm.random := 7%N;
     gorm.numeric := sample.numeric; gorm.timestamp := sample.timestamp |}.

(** A store that cannot open a transaction, and says so in words that hold
    one of the phrases of [isTerminalError]. *)
Definition misleading : service.ProcessIO :=
  {| service.Float32 := 0.25%float;
     service.tx :=
       {| database.begin := Some "pool: session for payment not found";
          database.lock := sample.healthy;
          database.now := 1700000001%Z;
          database.save := sample.healthy;
          database.commit := None |} |}.

Definition creating (entropy : N) : service.CreateIO :=
  {| service.entropy := entropy;
     service.exists_ := sample.healthy;
     service.create := precise;
     service.publish := sample.publishing |}.

End example.

(** * Proofs *)

(** ** The conditional transition *)

Lemma eqb_false_of_neq (a b : string) : a <> b -> String.eqb a b = false.
Proof. intros Hne. apply String.eqb_neq. exact Hne. Qed.

(** A transaction that meets no failure, on a PENDING record: the row is
    saved with the target status. *)
Lemma ProcessPayment_pending (io : database.TxIO) (id : UUID)
    (target : core.PaymentStatus) (t : Table) (row : db.Payment) :
  available io ->
  t !! id = Some row ->
  db.Status row = db.PaymentStatusPending ->
  database.ProcessPayment io id target t
  = (None,
     <[db.ID row :=
         {| db.ID := db.ID row;
            db.Amount := db.Amount row;
            db.Currency_ := db.Currency_ row;
            db.Reference := db.Reference row;
            db.Status := target;
            db.CreatedAt := db.CreatedAt row;
            db.UpdatedAt :=
              gorm.timestamp (database.save io)
                (gorm.clock (database.save io)) |}]> t).
Proof.
  intros (Hb & Hl & Hs & Hc) Hrow Hst.
  unfold database.ProcessPayment, gorm.Transaction, database.ProcessPayment_fc,
    gorm.First, gorm.Save.
  rewrite Hb, Hl, Hrow, Hst, Hs, Hc. reflexivity.
Qed.

(** On a record that is not PENDING, whatever the target: the guard fires and
    the table is left as it was. *)
Lemma ProcessPayment_not_pending (io : database.TxIO) (id : UUID)
    (target : core.PaymentStatus) (t : Table) (row : db.Payment) :
  database.begin io = None ->
  gorm.failure (database.lock io) = None ->
  t !! id = Some row ->
  db.Status row <> db.PaymentStatusPending ->
  database.ProcessPayment io id target t
  = (Some (AlreadyProcessed (db.Status row)), t).
Proof.
  intros Hb Hl Hrow Hst.
  unfold database.ProcessPayment, gorm.Transaction, database.ProcessPayment_fc,
    gorm.First.
  rewrite Hb, Hl, Hrow, (eqb_false_of_neq _ _ Hst). reflexivity.
Qed.

(** On an identifier the table does not hold. *)
Lemma ProcessPayment_absent (io : database.TxIO) (id : UUID)
    (target : core.PaymentStatus) (t : Table) :
  database.begin io = None ->
  gorm.failure (database.lock io) = None ->
  t !! id = None ->
  database.ProcessPayment io id target t = (Some (New "payment not found"), t).
Proof.
  intros Hb Hl Hrow.
  unfold database.ProcessPayment, gorm.Transaction, database.ProcessPayment_fc,
    gorm.First.
  rewrite Hb, Hl, Hrow. reflexivity.
Qed.

(** C1 (as amended). For every record whose status is PENDING, stored under
    its identifier, and targets of which the first is not PENDING, when the
    store reports no failure: the first conditional transition returns nil
    and changes the status to its target; the second, whatever its target,
    fails with the already-processed error carrying that status and leaves
    the table as the first call left it. *)
Theorem ProcessPayment_twice (io1 io2 : database.TxIO) (id : UUID)
    (target1 target2 : core.PaymentStatus) (t : Table) (row : db.Payment) :
  t !! id = Some row ->
  db.ID row = id ->
  db.Status row = db.PaymentStatusPending ->
  target1 <> core.PaymentStatusPending ->
  available io1 ->
  available io2 ->
  transition_twice io1 io2 id target1 target2 t.
Proof.
  intros Hrow Hid Hst Htarget Hio1 Hio2.
  exists row. split; [exact Hrow|].
  rewrite (ProcessPayment_pending io1 id target1 t row Hio1 Hrow Hst).
  cbn [fst snd]. rewrite Hid.
  set (row1 := db.mkPayment _ _ _ _ _ _ _).
  assert (Hrow1 : <[id := row1]> t !! id = Some row1) by apply lookup_insert_eq.
  destruct Hio2 as (Hb & Hl & _ & _).
  rewrite (ProcessPayment_not_pending io2 id target2 _ row1 Hb Hl Hrow1 Htarget).
  cbn [fst snd]. repeat split.
  exists row1. repeat split; [exact Hrow1|].
  cbn. rewrite Hst. exact Htarget.
Qed.

Lemma ProcessPayment_twice_witness :
  transition_twice sample.txio sample.txio 1%N
    core.PaymentStatusSuccess core.PaymentStatusFailed
    {[ 1%N := sample.row 1%N "REF-001" db.PaymentStatusPending ]}.
Proof.
  apply (ProcessPayment_twice sample.txio sample.txio 1%N
           core.PaymentStatusSuccess core.PaymentStatusFailed
           {[ 1%N := sample.row 1%N "REF-001" db.PaymentStatusPending ]}
           (sample.row 1%N "REF-001" db.PaymentStatusPending)).
  - vm_compute. reflexivity.
  - reflexivity.
  - reflexivity.
  - vm_compute. discriminate.
  - vm_compute. repeat split.
  - vm_compute. repeat split.
Defined.

(** C1 (as stated) fails twice over. With PENDING as the first target the
    first call returns nil without changing the status, and the second call
    succeeds instead of failing. On a record that already is SUCCESS the first
    call itself is the one that fails. *)
Lemma transition_twice_refuted :
  ~ transition_twice sample.txio sample.txio 1%N
      core.PaymentStatusPending core.PaymentStatusSuccess
      {[ 1%N := sample.row 1%N "REF-001" db.PaymentStatusPending ]}
  /\ ~ transition_twice sample.txio sample.txio 1%N
         core.PaymentStatusSuccess core.PaymentStatusFailed
         {[ 1%N := sample.row 1%N "REF-001" db.PaymentStatusSuccess ]}.
Proof.
  split.
  - intros (row & _ & _ & _ & Hsecond & _).
    vm_compute in Hsecond. discriminate Hsecond.
  - intros (row & _ & Hfirst & _).
    vm_compute in Hfirst. discriminate Hfirst.
Qed.

(** ** What a step does to the table *)

(** [gorm.Create] either fails and leaves the table, or inserts the row the
    hook produced, as the columns take it, under a key that was free. *)
Lemma gorm_Create_cases (io : gorm.IO) (row : db.Payment) (t : Table) :
  let row' := db.BeforeCreate (gorm.random io) (gorm.clock io) row in
  (exists e, gorm.Create io row t = (Some e, row', t))
  \/ (gorm.Create io row t = (None, row', <[db.ID row' := gorm.columns io row']> t)
      /\ gorm.failure io = None
      /\ t !! db.ID row' = None
      /\ (gorm.count_reference (db.Reference row') t <= 0)%Z).
Proof.
  intros row'. unfold gorm.Create. fold row'.
  destruct (gorm.failure io) as [text|]; [left; eauto|].
  destruct (decide (is_Some (t !! db.ID row'))) as [Hsome|Hnone]; [left; eauto|].
  destruct (0 <? gorm.count_reference (db.Reference row') t)%Z eqn:Hcount;
    [left; eauto|].
  right. repeat split.
  - destruct (t !! db.ID row') eqn:E; [|reflexivity].
    exfalso. apply Hnone. eauto.
  - apply Z.ltb_ge. exact Hcount.
Qed.

Lemma database_Create_cases (io : gorm.IO) (payment : core.Payment) (t : Table) :
  let row' := db.BeforeCreate (gorm.random io) (gorm.clock io)
                (database.fromCore payment) in
  (exists e, database.Create io payment t = (Some e, payment, t))
  \/ (exists payment',
        database.Create io payment t
        = (None, payment', <[db.ID row' := gorm.columns io row']> t)
        /\ core.ID payment' = core.ID payment
        /\ core.Amount payment' = core.Amount payment
        /\ core.Currency_ payment' = core.Currency_ payment
        /\ core.Reference payment' = core.Reference payment
        /\ core.Status payment' = core.Status payment
        /\ core.CreatedAt payment' = db.CreatedAt row'
        /\ gorm.failure io = None
        /\ t !! db.ID row' = None
        /\ (gorm.count_reference (db.Reference row') t <= 0)%Z).
Proof.
  intros row'. unfold database.Create.
  pose proof (gorm_Create_cases io (database.fromCore payment) t) as Hc.
  cbv zeta in Hc. fold row' in Hc.
  destruct Hc as [[e He]|(He & Hf & Hfree & Hcount)]; rewrite He.
  - left. eauto.
  - right. eexists. repeat split; assumption.
Qed.

(** The conditional transition either leaves the table or saves, under the
    identifier of a PENDING row, that row with the target status. *)
Lemma ProcessPayment_cases (io : database.TxIO) (id : UUID)
    (target : core.PaymentStatus) (t : Table) :
  (exists e, database.ProcessPayment io id target t = (Some e, t))
  \/ (exists row stamp,
        database.ProcessPayment io id target t
        = (None,
           <[db.ID row :=
               {| db.ID := db.ID row;
                  db.Amount := db.Amount row;
                  db.Currency_ := db.Currency_ row;
                  db.Reference := db.Reference row;
                  db.Status := target;
                  db.CreatedAt := db.CreatedAt row;
                  db.UpdatedAt := stamp |}]> t)
        /\ t !! id = Some row
        /\ db.Status row = db.PaymentStatusPending).
Proof.
  unfold database.ProcessPayment, gorm.Transaction, database.ProcessPayment_fc,
    gorm.First, gorm.Save.
  destruct (database.begin io); [left; eauto|].
  destruct (gorm.failure (database.lock io)).
  { destruct (decide (External s = ErrRecordNotFound)); left; eauto. }
  destruct (t !! id) as [row|] eqn:Hrow.
  2:{ destruct (decide (ErrRecordNotFound = ErrRecordNotFound)); left; eauto. }
  destruct (String.eqb (db.Status row) db.PaymentStatusPending) eqn:Hst;
    cbn [negb]; [|left; eauto].
  destruct (gorm.failure (database.save io)); [left; eauto|].
  destruct (database.commit io); [left; eauto|].
  right. exists row, (gorm.timestamp (database.save io) (gorm.clock (database.save io))).
  repeat split.
  apply String.eqb_eq. exact Hst.
Qed.

Section Steps.

Context `{messaging.Codec}.

(** What a step does to the table: nothing, or the insertion of a PENDING
    row under a free key, or the move of a PENDING row to SUCCESS or to
    FAILED. *)
Lemma step_table (s s' : Sys) :
  step s s' ->
  table s' = table s
  \/ (exists row,
        table s' = <[db.ID row := row]> (table s)
        /\ table s !! db.ID row = None
        /\ db.Status row = db.PaymentStatusPending)
  \/ (exists id row target stamp,
        table s' = <[db.ID row :=
                       {| db.ID := db.ID row;
                          db.Amount := db.Amount row;
                          db.Currency_ := db.Currency_ row;
                          db.Reference := db.Reference row;
                          db.Status := target;
                          db.CreatedAt := db.CreatedAt row;
                          db.UpdatedAt := stamp |}]> (table s)
        /\ table s !! id = Some row
        /\ db.Status row = db.PaymentStatusPending
        /\ terminal target).
Proof.
  intros Hstep. destruct Hstep as [io c s|io s|d s Hin].
  - destruct c as [req|req|payment|r]; cbn [service.CreatePayment_step].
    + repeat match goal with
             | |- context [if ?b then _ else _] => destruct b
             | |- context [match ?x with Ok _ => _ | Err _ => _ end] => destruct x
             end; left; reflexivity.
    + match goal with
      | |- context [database.Create ?i ?p ?t] =>
          destruct (database_Create_cases i p t)
            as [[e He]|(p' & He & _ & _ & _ & _ & _ & _ & _ & Hfree & _)];
          rewrite He; cbn [snd table]
      end.
      * left; reflexivity.
      * right; left.
        match goal with |- context [<[_ := ?r]> _] => exists r end.
        split; [reflexivity|split; [exact Hfree|reflexivity]].
    + destruct (messaging.PublishPaymentMessage _ _ _) as [[e|] q];
        left; reflexivity.
    + left; reflexivity.
  - unfold worker.deliver, worker.consume.
    destruct (queue s) as [|msg rest]; [left; reflexivity|].
    unfold messaging.ConsumePaymentMessages_turn.
    destruct (messaging.Unmarshal (messaging.Body msg)) as [pm|e];
      [|left; reflexivity].
    unfold worker.handler, service.ProcessPayment. cbn [table queue].
    match goal with
    | |- context [database.ProcessPayment ?i ?k ?st ?t] =>
        destruct (ProcessPayment_cases i k st t)
          as [[e He]|(row & stamp & He & Hrow & Hst)];
        rewrite He
    end.
    + destruct (messaging.isTerminalError _); left; reflexivity.
    + right; right. exists (messaging.PaymentID pm), row. do 2 eexists.
      cbn [snd table].
      split; [reflexivity|split; [exact Hrow|split; [exact Hst|]]].
      destruct (PrimFloat.ltb _ _); [left|right]; reflexivity.
  - left; reflexivity.
Qed.

End Steps.

(** ** The status of a payment is monotone *)

Section Monotone.

Context `{messaging.Codec}.

Lemma keyed_insert (t : Table) (row : db.Payment) :
  keyed t -> keyed (<[db.ID row := row]> t).
Proof.
  intros Hk id r. rewrite lookup_insert.
  destruct (decide (db.ID row = id)) as [<-|Hne].
  - intros [= <-]. reflexivity.
  - apply Hk.
Qed.

Lemma step_keyed (s s' : Sys) : step s s' -> keyed (table s) -> keyed (table s').
Proof.
  intros Hstep Hk.
  destruct (step_table s s' Hstep)
    as [->|[(row & -> & _)|(id & row & target & stamp & -> & _)]].
  - exact Hk.
  - apply keyed_insert. exact Hk.
  - apply (keyed_insert _ (db.mkPayment _ _ _ _ _ _ _)). exact Hk.
Qed.

Lemma reachable_keyed (s : Sys) : reachable s -> keyed (table s).
Proof.
  induction 1 as [|s s' _ IH Hstep].
  - intros id row. cbn. rewrite lookup_empty. discriminate.
  - exact (step_keyed s s' Hstep IH).
Qed.

Lemma step_monotone (s s' : Sys) :
  keyed (table s) -> step s s' -> monotone_step s s'.
Proof.
  intros Hk Hstep.
  destruct (step_table s s' Hstep)
    as [Heq|[(new & Heq & Hfree & Hst)|(k & old & target & stamp & Heq & Hold & Hst & Hterm)]];
    unfold monotone_step; rewrite Heq; clear Heq.
  - repeat split.
    + intros id row' Hnone Hsome. congruence.
    + intros id row Hrow. exists row. split; [exact Hrow|left; reflexivity].
    + intros id row row' Hrow _ Hrow'. congruence.
  - repeat split.
    + intros id row' Hnone. rewrite lookup_insert.
      destruct (decide (db.ID new = id)); [|congruence].
      intros [= <-]. exact Hst.
    + intros id row Hrow. exists row. split; [|left; reflexivity].
      rewrite lookup_insert_ne; [exact Hrow|congruence].
    + intros id row row' Hrow _. rewrite lookup_insert_ne; congruence.
  - pose proof (Hk k old Hold) as Hid. cbn [db.ID]. rewrite Hid.
    repeat split.
    + intros id row' Hnone. rewrite lookup_insert_ne; congruence.
    + intros id row Hrow. rewrite lookup_insert.
      destruct (decide (k = id)) as [<-|Hne].
      * eexists. split; [reflexivity|]. right. cbn [db.Status].
        split; [congruence|exact Hterm].
      * exists row. split; [exact Hrow|left; reflexivity].
    + intros id row row' Hrow Hterm'. rewrite lookup_insert.
      destruct (decide (k = id)) as [<-|Hne]; [|congruence].
      exfalso. assert (row = old) as -> by congruence.
      rewrite Hst in Hterm'. destruct Hterm' as [Habs|Habs]; discriminate Habs.
Qed.

Lemma reachable_known_status (s : Sys) :
  reachable s ->
  forall id row, table s !! id = Some row -> known_status (db.Status row).
Proof.
  induction 1 as [|s s' Hreach IH Hstep].
  - intros id row. cbn. rewrite lookup_empty. discriminate.
  - intros id row' Hrow'.
    destruct (step_monotone s s' (reachable_keyed s Hreach) Hstep)
      as (Hnew & Hold & _).
    destruct (table s !! id) as [row|] eqn:Hrow.
    + destruct (Hold id row Hrow) as (r & Hr & Hchange).
      assert (r = row') as -> by congruence.
      destruct Hchange as [Hsame|[_ [Hs|Hf]]].
      * rewrite Hsame. exact (IH id row Hrow).
      * right; left. exact Hs.
      * right; right. exact Hf.
    + left. exact (Hnew id row' Hrow Hrow').
Qed.

(** C2. In every reachable state of the system each payment has one of the
    three statuses, and every step from such a state is monotone: a payment
    that appears starts PENDING, a payment already there keeps its status or
    goes from PENDING to SUCCESS or FAILED, and a payment in SUCCESS or FAILED
    keeps that status. *)
Theorem payment_status_monotone (s : Sys) :
  reachable s ->
  (forall id row, table s !! id = Some row -> known_status (db.Status row))
  /\ (forall s', step s s' -> monotone_step s s').
Proof.
  intros Hreach. split.
  - exact (reachable_known_status s Hreach).
  - intros s' Hstep. exact (step_monotone s s' (reachable_keyed s Hreach) Hstep).
Qed.

End Monotone.

Lemma payment_status_monotone_witness :
  let s := (service.CreatePayment_step (H := plain.codec) (sample.createio 5)
              (service.Inserting (sample.request 100.5%float "REF-001"))
              initial).2 in
  (forall id row, table s !! id = Some row -> known_status (db.Status row))
  /\ (forall s', step (H := plain.codec) s s' -> monotone_step s s').
Proof.
  intros s.
  apply (payment_status_monotone (H := plain.codec) s).
  apply (reachable_step (H := plain.codec) initial s).
  - apply reachable_initial.
  - apply (step_api (H := plain.codec)).
Defined.

(** ** The delivery adapter: a notice that does not decode *)

Section Malformed.

Context `{messaging.Codec}.

Lemma consume_undecodable (io : service.ProcessIO) (s : Sys)
    (d : messaging.Delivery) (rest : list messaging.Delivery) :
  queue s = d :: rest ->
  undecodable d ->
  worker.consume io s
  = Some (messaging.Nack false true,
          {| table := table s; queue := redelivered d :: rest |}).
Proof.
  intros Hq [e He]. unfold worker.consume, messaging.ConsumePaymentMessages_turn.
  rewrite Hq, He. reflexivity.
Qed.

(** C3 (as amended). A notice that fails to decode is rejected with requeue
    at every delivery: however many turns the consumer takes, each one
    settles it with a requeue, the table is untouched and the notice is still
    at the head of the queue. *)
Theorem undecodable_always_requeued (ios : list service.ProcessIO) (s : Sys)
    (d : messaging.Delivery) (rest : list messaging.Delivery) :
  queue s = d :: rest ->
  undecodable d ->
  worker.settlements ios s = repeat (messaging.Nack false true) (length ios)
  /\ table (worker.run ios s) = table s
  /\ queue (worker.run ios s)
     = match ios with [] => d :: rest | _ :: _ => redelivered d :: rest end.
Proof.
  revert s d. induction ios as [|io ios IH]; intros s d Hq Hd.
  - cbn. auto.
  - cbn [worker.settlements worker.run length repeat]. unfold worker.deliver.
    rewrite (consume_undecodable io s d rest Hq Hd).
    destruct (IH {| table := table s; queue := redelivered d :: rest |}
                 (redelivered d) eq_refl Hd) as (Hset & Htab & Hqueue).
    rewrite Hset, Htab, Hqueue. repeat split.
    destruct ios; reflexivity.
Qed.

End Malformed.

Lemma undecodable_always_requeued_witness :
  let s := {| table := ∅; queue := [sample.notice "not json"] |} in
  worker.settlements (H := plain.codec)
    [sample.processio 0.25%float; sample.processio 0.75%float] s
  = repeat (messaging.Nack false true) 2
  /\ table (worker.run (H := plain.codec)
              [sample.processio 0.25%float; sample.processio 0.75%float] s)
     = table s
  /\ queue (worker.run (H := plain.codec)
              [sample.processio 0.25%float; sample.processio 0.75%float] s)
     = [redelivered (sample.notice "not json")].
Proof.
  intros s.
  apply (undecodable_always_requeued (H := plain.codec)
           [sample.processio 0.25%float; sample.processio 0.75%float] s
           (sample.notice "not json") []).
  - reflexivity.
  - exists plain.syntax_error. vm_compute. reflexivity.
Defined.

(** C3 (as stated) fails: the second delivery of a notice that does not
    decode is rejected with requeue like the first, not acknowledged. *)
Lemma requeue_once_then_drop_refuted :
  undecodable (H := plain.codec) (sample.notice "not json")
  /\ ~ requeue_once_then_drop (H := plain.codec)
        (sample.processio 0.25%float) (sample.processio 0.75%float)
        {| table := ∅; queue := [sample.notice "not json"] |}.
Proof.
  split.
  - exists plain.syntax_error. vm_compute. reflexivity.
  - unfold requeue_once_then_drop. vm_compute. intros Heq. discriminate Heq.
Qed.

(** ** The processor and the adapter on a notice that decodes *)

(** Where an error of the conditional transition comes from. *)
Lemma ProcessPayment_error (io : database.TxIO) (id : UUID)
    (target : core.PaymentStatus) (t t' : Table) (e : error) :
  database.ProcessPayment io id target t = (Some e, t') ->
  t' = t
  /\ ((exists text, database.begin io = Some text /\ e = External text)
      \/ (exists text, gorm.failure (database.lock io) = Some text
                       /\ e = Wrap "failed to lock payment: " (External text))
      \/ (database.begin io = None /\ gorm.failure (database.lock io) = None
          /\ t !! id = None /\ e = NotFound)
      \/ (exists row, database.begin io = None
                      /\ gorm.failure (database.lock io) = None
                      /\ t !! id = Some row
                      /\ db.Status row <> db.PaymentStatusPending
                      /\ e = AlreadyProcessed (db.Status row))
      \/ (exists text, gorm.failure (database.save io) = Some text
                       /\ e = Wrap "failed to update payment: " (External text))
      \/ (exists text, database.commit io = Some text /\ e = External text)).
Proof.
  unfold database.ProcessPayment, gorm.Transaction, database.ProcessPayment_fc,
    gorm.First, gorm.Save.
  destruct (database.begin io) as [text|] eqn:Hb.
  { intros [= <- <-]. split; [reflexivity|]. left. eauto. }
  destruct (gorm.failure (database.lock io)) as [text|] eqn:Hl.
  { destruct (decide (External text = ErrRecordNotFound)) as [Habs|_];
      [discriminate Habs|].
    intros [= <- <-]. split; [reflexivity|]. right; left. eauto. }
  destruct (t !! id) as [row|] eqn:Hrow.
  2:{ destruct (decide (ErrRecordNotFound = ErrRecordNotFound)) as [_|Habs];
        [|contradiction].
      intros [= <- <-]. split; [reflexivity|]. right; right; left. auto. }
  destruct (String.eqb (db.Status row) db.PaymentStatusPending) eqn:Hst;
    cbn [negb].
  2:{ intros [= <- <-]. split; [reflexivity|]. right; right; right; left.
      exists row. repeat split. apply String.eqb_neq. exact Hst. }
  destruct (gorm.failure (database.save io)) as [text|] eqn:Hs.
  { intros [= <- <-]. split; [reflexivity|]. do 4 right; left. eauto. }
  destruct (database.commit io) as [text|] eqn:Hc; [|discriminate].
  intros [= <- <-]. split; [reflexivity|]. do 5 right. eauto.
Qed.

(** The prefixes the repository and the processor put before a failure of
    the store bring neither phrase with them. *)
Lemma Contains_process_prefix (text : string) :
  Contains ("failed to process payment: " +:+ text) "already processed"
  = Contains text "already processed"
  /\ Contains ("failed to process payment: " +:+ text) "payment not found"
     = Contains text "payment not found".
Proof. split; reflexivity. Qed.

Lemma Contains_lock_prefix (text : string) :
  Contains ("failed to lock payment: " +:+ text) "already processed"
  = Contains text "already processed"
  /\ Contains ("failed to lock payment: " +:+ text) "payment not found"
     = Contains text "payment not found".
Proof. split; reflexivity. Qed.

Lemma Contains_update_prefix (text : string) :
  Contains ("failed to update payment: " +:+ text) "already processed"
  = Contains text "already processed"
  /\ Contains ("failed to update payment: " +:+ text) "payment not found"
     = Contains text "payment not found".
Proof. split; reflexivity. Qed.

Lemma isTerminalError_already_processed (current : db.PaymentStatus) :
  messaging.isTerminalError
    (Some (Wrap "failed to process payment: " (AlreadyProcessed current))) = true.
Proof. reflexivity. Qed.

Lemma isTerminalError_not_found :
  messaging.isTerminalError
    (Some (Wrap "failed to process payment: " NotFound)) = true.
Proof. reflexivity. Qed.

Lemma isTerminalError_unmarked (text : string) :
  unmarked text ->
  messaging.isTerminalError
    (Some (Wrap "failed to process payment: " (External text))) = false
  /\ messaging.isTerminalError
       (Some (Wrap "failed to process payment: "
                (Wrap "failed to lock payment: " (External text)))) = false
  /\ messaging.isTerminalError
       (Some (Wrap "failed to process payment: "
                (Wrap "failed to update payment: " (External text)))) = false.
Proof.
  intros [Ha Hn]. unfold messaging.isTerminalError. cbn [Error].
  destruct (Contains_process_prefix text) as [P1 P2].
  destruct (Contains_process_prefix ("failed to lock payment: " +:+ text)) as [L1 L2].
  destruct (Contains_process_prefix ("failed to update payment: " +:+ text)) as [U1 U2].
  destruct (Contains_lock_prefix text) as [L3 L4].
  destruct (Contains_update_prefix text) as [U3 U4].
  rewrite P1, P2, L1, L2, U1, U2, L3, L4, U3, U4, Ha, Hn. auto.
Qed.

(** C5 (as amended). When the conditional transition fails with the
    already-processed error, the processor returns that failure to its caller
    as an error: the same error behind the prefix of the processor, carrying
    the current status, with the table left as it was. The text keeps the
    phrase by which the delivery adapter takes it for a permanent outcome. *)
Theorem ProcessPayment_already_processed (io : service.ProcessIO) (id : UUID)
    (t : Table) (current : db.PaymentStatus) :
  (forall target,
     (database.ProcessPayment (service.tx io) id target t).1
     = Some (AlreadyProcessed current)) ->
  service.ProcessPayment io id t
  = (Some (Wrap "failed to process payment: " (AlreadyProcessed current)), t)
  /\ (service.ProcessPayment io id t).1 <> None
  /\ messaging.isTerminalError (service.ProcessPayment io id t).1 = true.
Proof.
  intros Hfail. unfold service.ProcessPayment.
  match goal with
  | |- context [database.ProcessPayment ?i ?k ?st ?tb] =>
      pose proof (Hfail st) as Hst;
      destruct (database.ProcessPayment i k st tb) as [[e|] t'] eqn:E
  end; cbn [fst] in Hst; [|discriminate Hst].
  injection Hst as ->.
  destruct (ProcessPayment_error _ _ _ _ _ _ E) as [-> _].
  cbn [fst]. split; [reflexivity|]. split; [discriminate|].
  apply isTerminalError_already_processed.
Qed.

Lemma ProcessPayment_already_processed_witness :
  let t : Table := {[ 1%N := sample.row 1%N "REF-001" db.PaymentStatusSuccess ]} in
  service.ProcessPayment (sample.processio 0.25%float) 1%N t
  = (Some (Wrap "failed to process payment: "
             (AlreadyProcessed db.PaymentStatusSuccess)), t)
  /\ (service.ProcessPayment (sample.processio 0.25%float) 1%N t).1 <> None
  /\ messaging.isTerminalError
       (service.ProcessPayment (sample.processio 0.25%float) 1%N t).1 = true.
Proof.
  intros t.
  apply (ProcessPayment_already_processed (sample.processio 0.25%float) 1%N t
           db.PaymentStatusSuccess).
  intros target. vm_compute. reflexivity.
Defined.

(** C5 (as stated) fails: on a payment that is already SUCCESS the
    conditional transition fails with already-processed, and the processor
    hands its caller an error, not nil. *)
Lemma absorbed_without_error_refuted :
  let t : Table := {[ 1%N := sample.row 1%N "REF-001" db.PaymentStatusSuccess ]} in
  (forall target,
     (database.ProcessPayment sample.txio 1%N target t).1
     = Some (AlreadyProcessed db.PaymentStatusSuccess))
  /\ ~ absorbed_without_error (sample.processio 0.25%float) 1%N t.
Proof.
  intros t. split.
  - intros target. vm_compute. reflexivity.
  - unfold absorbed_without_error. vm_compute. intros Heq. discriminate Heq.
Qed.

Section Adapter.

Context `{messaging.Codec}.

(** What the adapter does by the place the processor's result comes from. *)
Lemma settlement_by_origin (io : service.ProcessIO) (s : Sys)
    (msg : messaging.Delivery) (rest : list messaging.Delivery)
    (pm : messaging.PaymentMessage) :
  queue s = msg :: rest ->
  messaging.Unmarshal (messaging.Body msg) = Ok pm ->
  let run := service.ProcessPayment io (messaging.PaymentID pm) (table s) in
  let permanent := processed run.1 \/ already_processed run.1 \/ not_found run.1 in
  exists a s',
    worker.consume io s = Some (a, s')
    /\ table s' = run.2
    /\ (permanent -> a = messaging.Ack false /\ queue s' = rest)
    /\ (unmarked_failures (service.tx io) ->
        (a = messaging.Ack false <-> permanent)
        /\ (~ permanent ->
            a = messaging.Nack false true /\ queue s' = redelivered msg :: rest))
    /\ (database.begin (service.tx io) = None ->
        gorm.failure (database.lock (service.tx io)) = None ->
        table s !! messaging.PaymentID pm = None ->
        not_found run.1 /\ a = messaging.Ack false /\ queue s' = rest).
Proof.
  intros Hq Hdec run permanent.
  unfold worker.consume, messaging.ConsumePaymentMessages_turn, worker.handler.
  rewrite Hq, Hdec. cbn [table queue]. fold run.
  assert (Hrun : run = service.ProcessPayment io (messaging.PaymentID pm) (table s))
    by reflexivity.
  unfold service.ProcessPayment in Hrun.
  match type of Hrun with
  | context [database.ProcessPayment ?i ?k ?st ?tb] =>
      destruct (database.ProcessPayment i k st tb) as [[e|] t'] eqn:E
  end; subst permanent; rewrite Hrun; clear Hrun.
  2:{ (* the transition succeeded *)
      do 2 eexists. split; [reflexivity|]. cbn [fst snd table queue].
      split; [reflexivity|]. split; [intros _; split; reflexivity|]. split.
      - intros _. split.
        + split; [intros _; left; reflexivity|intros _; reflexivity].
        + intros Hnot. exfalso. apply Hnot. left. reflexivity.
      - intros Hb Hl Hnone.
        rewrite (ProcessPayment_absent _ _ _ _ Hb Hl Hnone) in E. discriminate E. }
  destruct (ProcessPayment_error _ _ _ _ _ _ E) as [-> Hshape].
  set (outcome := Some (Wrap "failed to process payment: " e)).
  (* the two permanent failures, and the others *)
  assert (Hcases :
            (e = NotFound /\ database.begin (service.tx io) = None
             /\ gorm.failure (database.lock (service.tx io)) = None
             /\ table s !! messaging.PaymentID pm = None)
            \/ (exists row, e = AlreadyProcessed (db.Status row)
                            /\ table s !! messaging.PaymentID pm = Some row)
            \/ (~ (processed outcome \/ already_processed outcome \/ not_found outcome)
                /\ (unmarked_failures (service.tx io) ->
                    messaging.isTerminalError outcome = false)
                /\ (database.begin (service.tx io) = None ->
                    gorm.failure (database.lock (service.tx io)) = None ->
                    table s !! messaging.PaymentID pm = None -> False))).
  { subst outcome.
    destruct Hshape
      as [(text & Hb & ->)|[(text & Hl & ->)|[(Hb & Hl & Hnone & ->)
         |[(row & Hb & Hl & Hrow & Hst & ->)|[(text & Hs & ->)|(text & Hc & ->)]]]]].
    - right; right. split; [|split].
      + intros [Hp|[[c Hp]|Hp]]; discriminate Hp.
      + intros Hclean.
        exact (proj1 (isTerminalError_unmarked text (Hclean text (or_introl Hb)))).
      + intros Hb'. congruence.
    - right; right. split; [|split].
      + intros [Hp|[[c Hp]|Hp]]; discriminate Hp.
      + intros Hclean.
        exact (proj1 (proj2 (isTerminalError_unmarked text
                               (Hclean text (or_intror (or_introl Hl)))))).
      + intros _ Hl'. congruence.
    - left. auto.
    - right; left. exists row. auto.
    - right; right. split; [|split].
      + intros [Hp|[[c Hp]|Hp]]; discriminate Hp.
      + intros Hclean.
        exact (proj2 (proj2 (isTerminalError_unmarked text
                               (Hclean text (or_intror (or_intror (or_introl Hs))))))).
      + intros Hb Hl Hnone.
        rewrite (ProcessPayment_absent _ _ _ _ Hb Hl Hnone) in E.
        injection E as E. discriminate E.
    - right; right. split; [|split].
      + intros [Hp|[[c Hp]|Hp]]; discriminate Hp.
      + intros Hclean.
        exact (proj1 (isTerminalError_unmarked text
                        (Hclean text (or_intror (or_intror (or_intror Hc)))))).
      + intros Hb Hl Hnone.
        rewrite (ProcessPayment_absent _ _ _ _ Hb Hl Hnone) in E.
        injection E as E. discriminate E. }
  destruct Hcases as [(-> & Hb & Hl & Hnone)|[(row & -> & Hrow)|(Hnot & Hterm & Habsent)]].
  - subst outcome. rewrite isTerminalError_not_found.
    do 2 eexists. split; [reflexivity|]. cbn [fst snd table queue worker.settle].
    split; [reflexivity|]. split; [intros _; split; reflexivity|]. split.
    + intros _. split.
      * split; [intros _; right; right; reflexivity|intros _; reflexivity].
      * intros Hno. exfalso. apply Hno. right; right. reflexivity.
    + intros _ _ _. repeat split.
  - subst outcome. rewrite isTerminalError_already_processed.
    do 2 eexists. split; [reflexivity|]. cbn [fst snd table queue worker.settle].
    split; [reflexivity|]. split; [intros _; split; reflexivity|]. split.
    + intros _. split.
      * split; [intros _; right; left; eexists; reflexivity|intros _; reflexivity].
      * intros Hno. exfalso. apply Hno. right; left. eexists. reflexivity.
    + intros _ _ Hnone. congruence.
  - fold outcome. destruct (messaging.isTerminalError outcome) eqn:Hterminal.
    + do 2 eexists. split; [reflexivity|]. cbn [fst snd table queue worker.settle].
      split; [reflexivity|]. split; [intros Hp; contradiction|]. split.
      * intros Hclean. pose proof (Hterm Hclean) as Hfalse. congruence.
      * intros Hb Hl Hnone. exfalso. exact (Habsent Hb Hl Hnone).
    + do 2 eexists. split; [reflexivity|]. cbn [fst snd table queue worker.settle].
      split; [reflexivity|]. split; [intros Hp; contradiction|]. split.
      * intros _. split.
        -- split; [intros Hack; discriminate Hack|intros Hp; contradiction].
        -- intros _. split; reflexivity.
      * intros Hb Hl Hnone. exfalso. exact (Habsent Hb Hl Hnone).
Qed.

(** C7. For every notice that decodes, the adapter acknowledges, and the
    notice leaves the queue, whenever the processor returned nil, the
    already-processed error or the not-found error. It acknowledges exactly
    when the processor returned nil or an error whose text holds one of the
    two marker phrases, and otherwise rejects with requeue, the notice going
    back to the head of the queue; so when the failures of the store carry
    neither phrase it acknowledges exactly on the three results above and
    rejects with requeue on every other failure. A notice for an identifier
    the table does not hold gets the not-found error, hence the
    acknowledgement. *)
Theorem adapter_settlement (io : service.ProcessIO) (s : Sys)
    (msg : messaging.Delivery) (rest : list messaging.Delivery)
    (pm : messaging.PaymentMessage) :
  queue s = msg :: rest ->
  messaging.Unmarshal (messaging.Body msg) = Ok pm ->
  let run := service.ProcessPayment io (messaging.PaymentID pm) (table s) in
  let permanent := processed run.1 \/ already_processed run.1 \/ not_found run.1 in
  exists a s',
    worker.consume io s = Some (a, s')
    /\ table s' = run.2
    /\ (permanent -> a = messaging.Ack false /\ queue s' = rest)
    /\ (a = messaging.Ack false <-> processed run.1 \/ marked run.1)
    /\ (a = messaging.Ack false /\ queue s' = rest
        \/ a = messaging.Nack false true /\ queue s' = redelivered msg :: rest)
    /\ (unmarked_failures (service.tx io) ->
        (a = messaging.Ack false <-> permanent)
        /\ (~ permanent ->
            a = messaging.Nack false true /\ queue s' = redelivered msg :: rest))
    /\ (database.begin (service.tx io) = None ->
        gorm.failure (database.lock (service.tx io)) = None ->
        table s !! messaging.PaymentID pm = None ->
        not_found run.1 /\ a = messaging.Ack false /\ queue s' = rest).
Proof.
  intros Hq Hdec run permanent.
  destruct (settlement_by_origin io s msg rest pm Hq Hdec)
    as (a & s' & Hc & Ht & Hperm & Hun & Habs).
  exists a, s'.
  split; [exact Hc|]. split; [exact Ht|]. split; [exact Hperm|].
  split; [|split; [|split; [exact Hun|exact Habs]]].
  - unfold worker.consume, messaging.ConsumePaymentMessages_turn, worker.handler
      in Hc.
    rewrite Hq, Hdec in Hc. cbn [table queue] in Hc. subst run.
    unfold processed, marked.
    destruct (service.ProcessPayment io (messaging.PaymentID pm) (table s))
      as [[e|] t'].
    + cbn [fst]. unfold messaging.isTerminalError in Hc.
      destruct (Contains (Error e) "already processed") eqn:Ha;
        [|destruct (Contains (Error e) "payment not found") eqn:Hn];
        cbn [orb] in Hc; injection Hc as <- _.
      * split; [intros _; right; exists e; auto|reflexivity].
      * split; [intros _; right; exists e; auto|reflexivity].
      * split; [discriminate|].
        intros [Hnil|(e' & [= <-] & [Ha'|Hn'])]; congruence.
    + injection Hc as <- _. split; [intros _; left; reflexivity|reflexivity].
  - unfold worker.consume, messaging.ConsumePaymentMessages_turn, worker.handler
      in Hc.
    rewrite Hq, Hdec in Hc. cbn [table queue] in Hc.
    destruct (service.ProcessPayment io (messaging.PaymentID pm) (table s))
      as [[e|] t'].
    + destruct (messaging.isTerminalError (Some e)); injection Hc as <- <-;
        [left|right]; split; reflexivity.
    + injection Hc as <- <-. left. split; reflexivity.
Qed.

End Adapter.

Lemma adapter_settlement_witness :
  let io := sample.processio 0.25%float in
  let msg := sample.notice (sample.body 9%N) in
  let s := {| table := ∅; queue := [msg] |} in
  let run := service.ProcessPayment io 9%N (table s) in
  let permanent := processed run.1 \/ already_processed run.1 \/ not_found run.1 in
  exists a s',
    worker.consume (H := plain.codec) io s = Some (a, s')
    /\ table s' = run.2
    /\ (permanent -> a = messaging.Ack false /\ queue s' = [])
    /\ (a = messaging.Ack false <-> processed run.1 \/ marked run.1)
    /\ (a = messaging.Ack false /\ queue s' = []
        \/ a = messaging.Nack false true /\ queue s' = [redelivered msg])
    /\ (unmarked_failures (service.tx io) ->
        (a = messaging.Ack false <-> permanent)
        /\ (~ permanent ->
            a = messaging.Nack false true /\ queue s' = [redelivered msg]))
    /\ (database.begin (service.tx io) = None ->
        gorm.failure (database.lock (service.tx io)) = None ->
        table s !! 9%N = None ->
        not_found run.1 /\ a = messaging.Ack false /\ queue s' = []).
Proof.
  intros io msg s.
  apply (adapter_settlement (H := plain.codec) io s msg []
           {| messaging.PaymentID := 9%N; messaging.Timestamp := 1700000002%Z |}).
  - reflexivity.
  - vm_compute. reflexivity.
Defined.

(** C7 (as stated) fails when a failure of the store reads like a permanent
    outcome. The transaction cannot begin and the driver's text holds
    "payment not found": the processor's result is none of success,
    already-processed and not-found, yet the adapter acknowledges the notice,
    which leaves the queue while the payment is still PENDING. *)
Lemma settles_by_outcome_refuted :
  let pending := sample.row 1%N "REF-001" db.PaymentStatusPending in
  let s := {| table := {[ 1%N := pending ]};
              queue := [sample.notice (sample.body 1%N)] |} in
  let pm := {| messaging.PaymentID := 1%N; messaging.Timestamp := 1700000002%Z |} in
  let run := service.ProcessPayment example.misleading 1%N (table s) in
  messaging.Unmarshal (Codec := plain.codec) (messaging.Body (sample.notice (sample.body 1%N)))
  = Ok pm
  /\ run.1 = Some (Wrap "failed to process payment: "
                     (External "pool: session for payment not found"))
  /\ ~ (processed run.1 \/ already_processed run.1 \/ not_found run.1)
  /\ worker.consume (H := plain.codec) example.misleading s
     = Some (messaging.Ack false, {| table := {[ 1%N := pending ]}; queue := [] |})
  /\ ~ settles_by_outcome (H := plain.codec) example.misleading pm s.
Proof.
  intros pending s pm run.
  assert (Hnot : ~ (processed run.1 \/ already_processed run.1 \/ not_found run.1)).
  { vm_compute. intros [Hp|[[current Hp]|Hp]]; discriminate Hp. }
  split; [vm_compute; reflexivity|]. split; [vm_compute; reflexivity|].
  split; [exact Hnot|]. split; [vm_compute; reflexivity|].
  intros (a & s' & Hc & _ & Hnack).
  specialize (Hnack Hnot). subst a.
  vm_compute in Hc. discriminate Hc.
Qed.

(** ** The creation service *)

Lemma uuid_New_not_Nil (entropy : N) : uuid_New entropy <> uuid_Nil.
Proof.
  unfold uuid_New, uuid_Nil. intros Hz.
  apply N.lor_eq_0_iff in Hz. destruct Hz as [_ Hz].
  vm_compute in Hz. discriminate Hz.
Qed.

(** A positive amount is not [<= 0]; the converse fails for NaN only. *)
Lemma positive_not_leb_zero (a : float) :
  PrimFloat.ltb 0%float a = true -> PrimFloat.leb a 0%float = false.
Proof.
  rewrite FloatAxioms.ltb_spec, FloatAxioms.leb_spec. unfold SFltb, SFleb.
  replace (Prim2SF 0%float) with (S754_zero false) by (vm_compute; reflexivity).
  destruct (Prim2SF a) as [sg|sg| |sg m e]; cbn; try discriminate;
    destruct sg; cbn; try discriminate; reflexivity.
Qed.

Lemma count_reference_none (reference : string) (t : Table) :
  (forall id row, t !! id = Some row -> db.Reference row <> reference) ->
  gorm.count_reference reference t = 0%Z.
Proof.
  intros Hfresh. unfold gorm.count_reference.
  replace (filter _ t) with (∅ : Table); [reflexivity|].
  symmetry. apply map_empty_filter. intros id row Hrow. cbn.
  exact (Hfresh id row Hrow).
Qed.

Lemma count_reference_some (reference : string) (t : Table) (id : UUID)
    (row : db.Payment) :
  t !! id = Some row ->
  db.Reference row = reference ->
  (0 < gorm.count_reference reference t)%Z.
Proof.
  intros Hrow Href. unfold gorm.count_reference.
  assert (Hne : size (filter (λ kv : UUID * db.Payment, db.Reference kv.2 = reference) t) <> 0).
  { apply map_size_non_empty_iff. intros Hempty.
    assert (Hin : filter (λ kv : UUID * db.Payment, db.Reference kv.2 = reference) t !! id
                  = Some row)
      by (apply map_lookup_filter_Some; split; [exact Hrow|exact Href]).
    rewrite Hempty, lookup_empty in Hin. discriminate Hin. }
  lia.
Qed.

Lemma BeforeCreate_new_row (io : service.CreateIO) (req : input.CreatePaymentRequest) :
  db.BeforeCreate (gorm.random (service.create io)) (gorm.clock (service.create io))
    (database.fromCore
       {| core.ID := uuid_New (service.entropy io);
          core.Amount := input.Amount req;
          core.Currency_ := input.Currency req;
          core.Reference := TrimSpace (input.Reference req);
          core.Status := core.PaymentStatusPending;
          core.CreatedAt := Time_zero;
          core.UpdatedAt := Time_zero |})
  = sent_row io req.
Proof.
  unfold db.BeforeCreate, database.fromCore, sent_row.
  cbn [core.ID core.Amount core.Currency_ core.Reference core.Status
       core.CreatedAt core.UpdatedAt db.ID db.Amount db.Currency_ db.Reference
       db.Status db.CreatedAt db.UpdatedAt].
  rewrite (proj2 (N.eqb_neq _ _) (uuid_New_not_Nil (service.entropy io))).
  reflexivity.
Qed.

Section Creation.

Context `{messaging.Codec}.

(** [CreatePayment] ends in one of the eight ways of [CreateOutcome]. *)
Lemma CreatePayment_outcome (io : service.CreateIO)
    (req : input.CreatePaymentRequest) (s : Sys) :
  CreateOutcome io req s (service.CreatePayment io req s).
Proof.
  unfold service.CreatePayment.
  destruct (PrimFloat.leb (input.Amount req) 0%float) eqn:Hamount;
    [apply InvalidAmount; exact Hamount|].
  destruct (String.eqb (input.Currency req) core.CurrencyETB) eqn:Hetb;
    destruct (String.eqb (input.Currency req) core.CurrencyUSD) eqn:Husd;
    cbn [negb andb].
  4:{ apply InvalidCurrency; [exact Hamount| |]; apply String.eqb_neq; assumption. }
  all: assert (Hcur : input.Currency req = core.CurrencyETB
                      \/ input.Currency req = core.CurrencyUSD)
         by (first [left; apply String.eqb_eq; assumption
                   |right; apply String.eqb_eq; assumption]);
       clear Hetb Husd.
  all: cbn [input.Reference input.Amount input.Currency].
  all: destruct (String.eqb (TrimSpace (input.Reference req)) "") eqn:Href;
         [apply String.eqb_eq in Href;
          apply InvalidReference; assumption|].
  all: apply String.eqb_neq in Href.
  all: assert (Hvalid : passes_validation req) by (repeat split; assumption).
  all: unfold database.ReferenceExists, gorm.Count.
  all: destruct (gorm.failure (service.exists_ io)) as [text|] eqn:Hexists;
         [apply CheckFailed; assumption|].
  all: destruct (0 <? gorm.count_reference (TrimSpace (input.Reference req)) (table s))%Z
         eqn:Hcount;
         [apply Z.ltb_lt in Hcount; apply ReferenceConflict; assumption|].
  all: apply Z.ltb_ge in Hcount.
  all: unfold database.Create, gorm.Create; rewrite BeforeCreate_new_row.
  all: change (gorm.columns (service.create io) (sent_row io req))
         with (new_row io req).
  all: cbn [db.ID db.Reference db.CreatedAt db.UpdatedAt sent_row].
  all: destruct (gorm.failure (service.create io)) as [text|] eqn:Hcreate;
         [apply CreateFailed; try assumption; left; eauto|].
  all: destruct (decide (is_Some (table s !! uuid_New (service.entropy io))))
         as [Htaken|Hfree];
         [apply CreateFailed; try assumption; right; auto|].
  all: rewrite (proj2 (Z.ltb_ge _ _) Hcount).
  all: assert (Hnone : table s !! uuid_New (service.entropy io) = None)
         by (destruct (table s !! uuid_New (service.entropy io)); [|reflexivity];
             exfalso; apply Hfree; eauto).
  all: cbn [core.ID table queue].
  all: destruct (messaging.PublishPaymentMessage (service.publish io)
                   (uuid_New (service.entropy io)) (queue s)) as [[err|] q] eqn:Hpub.
  all: first [ apply (CreatedButNotQueued io req s err q); assumption
             | apply (Created io req s q); assumption ].
Qed.

End Creation.

Section CreationClaims.

Context `{messaging.Codec}.

(** The call has reached the point of publishing: it passed validation and
    the existence check, and its insert went through. *)
Lemma CreatePayment_step_created (io : service.CreateIO)
    (req : input.CreatePaymentRequest) (s s1 s2 : Sys) (c1 : service.Call)
    (payment : core.Payment) :
  service.CreatePayment_step io (service.Checking req) s = (c1, s1) ->
  service.CreatePayment_step io c1 s1 = (service.Publishing payment, s2) ->
  passes_validation req
  /\ gorm.failure (service.exists_ io) = None
  /\ (gorm.count_reference (TrimSpace (input.Reference req)) (table s) <= 0)%Z
  /\ gorm.failure (service.create io) = None
  /\ table s !! uuid_New (service.entropy io) = None
  /\ core.ID payment = uuid_New (service.entropy io)
  /\ s2 = {| table := <[uuid_New (service.entropy io) := new_row io req]> (table s);
             queue := queue s |}.
Proof.
  cbn [service.CreatePayment_step].
  destruct (PrimFloat.leb (input.Amount req) 0%float) eqn:Hamount.
  { intros [= <- <-]. cbn. discriminate. }
  destruct (String.eqb (input.Currency req) core.CurrencyETB) eqn:Hetb;
    destruct (String.eqb (input.Currency req) core.CurrencyUSD) eqn:Husd;
    cbn [negb andb].
  4:{ intros [= <- <-]. cbn. discriminate. }
  all: assert (Hcur : input.Currency req = core.CurrencyETB
                      \/ input.Currency req = core.CurrencyUSD)
         by (first [left; apply String.eqb_eq; assumption
                   |right; apply String.eqb_eq; assumption]);
       clear Hetb Husd.
  all: cbn [input.Reference input.Amount input.Currency].
  all: destruct (String.eqb (TrimSpace (input.Reference req)) "") eqn:Href;
         [intros [= <- <-]; cbn; discriminate|].
  all: apply String.eqb_neq in Href.
  all: unfold database.ReferenceExists, gorm.Count.
  all: destruct (gorm.failure (service.exists_ io)) as [text|] eqn:Hexists;
         [intros [= <- <-]; cbn; discriminate|].
  all: destruct (0 <? gorm.count_reference (TrimSpace (input.Reference req)) (table s))%Z
         eqn:Hcount;
         [intros [= <- <-]; cbn; discriminate|].
  all: apply Z.ltb_ge in Hcount.
  all: intros [= <- <-]; cbn [service.CreatePayment_step].
  all: cbn [input.Reference input.Amount input.Currency].
  all: unfold database.Create, gorm.Create; rewrite BeforeCreate_new_row.
  all: change (gorm.columns (service.create io) (sent_row io req))
         with (new_row io req).
  all: cbn [db.ID db.Reference db.CreatedAt db.UpdatedAt sent_row].
  all: destruct (gorm.failure (service.create io)) as [text|] eqn:Hcreate;
         [discriminate|].
  all: destruct (decide (is_Some (table s !! uuid_New (service.entropy io))))
         as [Htaken|Hfree]; [discriminate|].
  all: rewrite (proj2 (Z.ltb_ge _ _) Hcount).
  all: intros [= <- <-].
  all: repeat split; try assumption; try reflexivity.
  all: destruct (table s !! uuid_New (service.entropy io)); [|reflexivity];
       exfalso; apply Hfree; eauto.
Qed.

(** The errors [CreatePayment] returns before it has written anything do not
    read like the one it returns after a failed publish. *)
Lemma pre_write_failure_text (io : service.CreateIO)
    (req : input.CreatePaymentRequest) (s : Sys) (e err : error) :
  service.CreatePayment io req s = (Err e, s) ->
  Error e <> Error (Wrap "payment created but failed to publish message: " err).
Proof.
  intros Hrun. pose proof (CreatePayment_outcome io req s) as Hout.
  rewrite Hrun in Hout.
  inversion Hout; subst; try (cbn; discriminate).
  exfalso.
  match goal with
  | Hfree : table (mkSys _ _) !! _ = None |- _ =>
      cbn [table] in Hfree; rewrite lookup_insert_eq in Hfree;
      discriminate Hfree
  end.
Qed.

(** C6. If publishing the trigger notice fails after the record has been
    created, [CreatePayment] returns the created-but-not-published error
    around the failure, whose text no failure that precedes the write can
    have, and the system it leaves holds the new record, PENDING, in a table
    that is otherwise the one it found, and the queue it found. *)
Theorem publish_failure_keeps_record (io : service.CreateIO)
    (req : input.CreatePaymentRequest) (s s1 s2 : Sys) (c1 : service.Call)
    (payment : core.Payment) (err : error) (q : list messaging.Delivery) :
  service.CreatePayment_step io (service.Checking req) s = (c1, s1) ->
  service.CreatePayment_step io c1 s1 = (service.Publishing payment, s2) ->
  messaging.PublishPaymentMessage (service.publish io) (core.ID payment) (queue s2)
  = (Some err, q) ->
  service.CreatePayment io req s
  = (Err (Wrap "payment created but failed to publish message: " err), s2)
  /\ (table s !! core.ID payment = None
      /\ table s2 = <[core.ID payment := new_row io req]> (table s)
      /\ db.Status (new_row io req) = db.PaymentStatusPending
      /\ queue s2 = queue s)
  /\ (forall io' req' s' e',
        service.CreatePayment io' req' s' = (Err e', s') ->
        Error e'
        <> Error (Wrap "payment created but failed to publish message: " err)).
Proof.
  intros Hcheck Hinsert Hpub.
  destruct (CreatePayment_step_created io req s s1 s2 c1 payment Hcheck Hinsert)
    as (Hvalid & Hexists & Hcount & Hcreate & Hfree & Hid & ->).
  rewrite Hid in *. cbn [queue] in Hpub.
  split; [|split].
  - pose proof (CreatePayment_outcome io req s) as Hout.
    destruct Hvalid as (Hamount & Hcur & Href).
    inversion Hout as [ Ha Heq | Ha Hc1 Hc2 Heq | Ha Hc Hr Heq | text Hv He Heq
                      | Hv He Hc Heq | e Hv He Hc Hor Heq
                      | err' q' Hv He Hc Hcr Hf Hp Heq | q' Hv He Hc Hcr Hf Hp Heq ].
    + congruence.
    + destruct Hcur; contradiction.
    + contradiction.
    + congruence.
    + lia.
    + destruct Hor as [(text & Hf & _)|(_ & [x Hx] & _)]; congruence.
    + rewrite Hpub in Hp. injection Hp as <- <-. reflexivity.
    + rewrite Hpub in Hp. discriminate Hp.
  - cbn [table queue]. repeat split. exact Hfree.
  - intros io' req' s' e' Hrun. exact (pre_write_failure_text io' req' s' e' err Hrun).
Qed.

End CreationClaims.

Lemma publish_failure_keeps_record_witness :
  let io := sample.refusing 5%N in
  let req := sample.request 100.5%float "REF-001" in
  let payment :=
    {| core.ID := uuid_New 5%N;
       core.Amount := 100.5%float;
       core.Currency_ := core.CurrencyUSD;
       core.Reference := "REF-001";
       core.Status := core.PaymentStatusPending;
       core.CreatedAt := 1700000000%Z;
       core.UpdatedAt := 1700000000%Z |} in
  let err := Wrap "failed to publish message: " (External "channel closed") in
  let s2 := {| table := {[ uuid_New 5%N := new_row io req ]}; queue := [] |} in
  service.CreatePayment (H := plain.codec) io req initial
  = (Err (Wrap "payment created but failed to publish message: " err), s2)
  /\ (table initial !! core.ID payment = None
      /\ table s2 = <[core.ID payment := new_row io req]> (table initial)
      /\ db.Status (new_row io req) = db.PaymentStatusPending
      /\ queue s2 = queue initial)
  /\ (forall io' req' s' e',
        service.CreatePayment (H := plain.codec) io' req' s' = (Err e', s') ->
        Error e'
        <> Error (Wrap "payment created but failed to publish message: " err)).
Proof.
  intros io req payment err s2.
  apply (publish_failure_keeps_record (H := plain.codec) io req initial initial s2
           (service.Inserting req) payment err []).
  - vm_compute. reflexivity.
  - vm_compute. reflexivity.
  - vm_compute. reflexivity.
Defined.

(** ** Trimming *)

Lemma append_cons (a : ascii) (s t : string) :
  String a s +:+ t = String a (s +:+ t).
Proof. reflexivity. Qed.

Lemma append_nil_r (s : string) : s +:+ "" = s.
Proof. induction s as [|a s IH]; [reflexivity|].
  simpl. rewrite ?append_cons. f_equal. exact IH.
Qed.

Lemma append_assoc (a b c : string) : (a +:+ b) +:+ c = a +:+ (b +:+ c).
Proof. induction a as [|x a IH]; [reflexivity|].
  simpl. rewrite ?append_cons. f_equal. exact IH.
Qed.

Lemma string_of_list_ascii_app (l1 l2 : list ascii) :
  string_of_list_ascii (l1 ++ l2)%list
  = string_of_list_ascii l1 +:+ string_of_list_ascii l2.
Proof. induction l1 as [|a l1 IH]; [reflexivity|].
  simpl. rewrite ?append_cons. f_equal. exact IH.
Qed.

Lemma list_ascii_of_string_app (s1 s2 : string) :
  list_ascii_of_string (s1 +:+ s2)
  = (list_ascii_of_string s1 ++ list_ascii_of_string s2)%list.
Proof. induction s1 as [|a s1 IH]; [reflexivity|].
  simpl. rewrite ?append_cons. f_equal. exact IH.
Qed.

Lemma string_rev_app (s1 s2 : string) :
  string_rev (s1 +:+ s2) = string_rev s2 +:+ string_rev s1.
Proof.
  unfold string_rev.
  rewrite list_ascii_of_string_app, rev_app_distr, string_of_list_ascii_app.
  reflexivity.
Qed.

Lemma string_rev_involutive (s : string) : string_rev (string_rev s) = s.
Proof.
  unfold string_rev.
  rewrite list_ascii_of_string_of_list_ascii, rev_involutive.
  apply string_of_list_ascii_of_string.
Qed.

Lemma string_rev_cons (a : ascii) (s : string) :
  string_rev (String a s) = string_rev s +:+ String a "".
Proof. exact (string_rev_app (String a "") s). Qed.

Section Runes.

Variables (p1 : ascii -> bool) (p2 : ascii -> ascii -> bool)
          (p3 : ascii -> ascii -> ascii -> bool) (f : string -> string).

Hypothesis f_nil : f "" = "".
Hypothesis f_1 : forall a s, p1 a = true -> f (String a s) = f s.
Hypothesis f_2 : forall a b s, p2 a b = true -> f (String a (String b s)) = f s.
Hypothesis f_3 :
  forall a b c s, p3 a b c = true -> f (String a (String b (String c s))) = f s.
Hypothesis f_stop : forall s, starts p1 p2 p3 s = false -> f s = s.

Lemma runs_app (l1 l2 : string) :
  runs p1 p2 p3 l1 -> runs p1 p2 p3 l2 -> runs p1 p2 p3 (l1 +:+ l2).
Proof.
  intros H1 H2. induction H1; rewrite ?append_cons; [exact H2| | |].
  - apply runs_1; assumption.
  - apply runs_2; assumption.
  - apply runs_3; assumption.
Qed.

Lemma trim_runs (l t : string) : runs p1 p2 p3 l -> f (l +:+ t) = f t.
Proof.
  intros Hl. induction Hl; rewrite ?append_cons; [reflexivity| | |].
  - rewrite f_1; assumption.
  - rewrite f_2; assumption.
  - rewrite f_3; assumption.
Qed.

Lemma trim_cut_bounded (n : nat) :
  forall s, (String.length s <= n)%nat ->
    exists l, runs p1 p2 p3 l /\ s = l +:+ f s /\ starts p1 p2 p3 (f s) = false.
Proof.
  induction n as [|n IH]; intros s Hlen.
  - destruct s; [|cbn in Hlen; lia]. exists "". rewrite f_nil.
    split; [constructor|split; reflexivity].
  - destruct (starts p1 p2 p3 s) eqn:Hs.
    2:{ exists "". rewrite (f_stop s Hs). split; [constructor|split; [reflexivity|exact Hs]]. }
    destruct s as [|a s1]; [discriminate Hs|]. cbn [starts] in Hs.
    cbn [String.length] in Hlen.
    destruct (p1 a) eqn:H1.
    { destruct (IH s1 ltac:(lia)) as (l & Hl & Heq & Hstop).
      exists (String a l). rewrite (f_1 a s1 H1). rewrite ?append_cons.
      split; [apply runs_1; assumption|]. split; [rewrite <- Heq; reflexivity|exact Hstop]. }
    cbn [orb] in Hs. destruct s1 as [|b s2]; [discriminate Hs|].
    cbn [String.length] in Hlen.
    destruct (p2 a b) eqn:H2.
    { destruct (IH s2 ltac:(lia)) as (l & Hl & Heq & Hstop).
      exists (String a (String b l)). rewrite (f_2 a b s2 H2). rewrite ?append_cons.
      split; [apply runs_2; assumption|]. split; [rewrite <- Heq; reflexivity|exact Hstop]. }
    cbn [orb] in Hs. destruct s2 as [|c s3]; [discriminate Hs|].
    cbn [String.length] in Hlen.
    destruct (IH s3 ltac:(lia)) as (l & Hl & Heq & Hstop).
    exists (String a (String b (String c l))). rewrite (f_3 a b c s3 Hs).
    rewrite ?append_cons.
    split; [apply runs_3; assumption|]. split; [rewrite <- Heq; reflexivity|exact Hstop].
Qed.

Lemma trim_cut (s : string) :
  exists l, runs p1 p2 p3 l /\ s = l +:+ f s /\ starts p1 p2 p3 (f s) = false.
Proof. apply (trim_cut_bounded (String.length s)). lia. Qed.

Lemma starts_prefix (p q : string) :
  starts p1 p2 p3 (p +:+ q) = false -> starts p1 p2 p3 p = false.
Proof.
  destruct p as [|a [|b [|c p]]]; rewrite ?append_cons; cbn [starts]; try reflexivity.
  - destruct (p1 a); [|reflexivity]. destruct q; discriminate.
  - destruct (p1 a); [destruct q; discriminate|]. cbn [orb].
    destruct (p2 a b); [destruct q; discriminate|]. reflexivity.
  - intros H. exact H.
Qed.

End Runes.

(** Bytes. *)
Ltac bytes :=
  unfold asciiSpace, space2, space3 in *; cbv beta iota zeta in *;
  repeat match goal with
         | |- _ = false => apply not_true_is_false; intros ?
         | H : _ && _ = true |- _ => apply andb_true_iff in H; destruct H
         | H : _ || _ = true |- _ => apply orb_true_iff in H; destruct H
         | H : _ || _ = false |- _ => apply orb_false_iff in H; destruct H
         | H : _ && _ = false |- _ => apply andb_false_iff in H; destruct H
         | H : (_ =? _)%nat = true |- _ => apply Nat.eqb_eq in H
         | H : (_ <=? _)%nat = true |- _ => apply Nat.leb_le in H
         | H : (_ =? _)%nat = false |- _ => apply Nat.eqb_neq in H
         | H : (_ <=? _)%nat = false |- _ => apply Nat.leb_gt in H
         end;
  lia.

Lemma space2_not_ascii (a b : ascii) : space2 a b = true -> asciiSpace a = false.
Proof. intros H. bytes. Qed.

Lemma space3_not_ascii (a b c : ascii) : space3 a b c = true -> asciiSpace a = false.
Proof. intros H. bytes. Qed.

Lemma space3_not_space2 (a b c : ascii) : space3 a b c = true -> space2 a b = false.
Proof. intros H. bytes. Qed.

Lemma space2_last_not_ascii (a b : ascii) : space2 a b = true -> asciiSpace b = false.
Proof. intros H. bytes. Qed.

Lemma space3_last_not_ascii (a b c : ascii) :
  space3 a b c = true -> asciiSpace c = false.
Proof. intros H. bytes. Qed.

Lemma space3_last_not_space2 (a b c : ascii) :
  space3 a b c = true -> space2 b c = false.
Proof. intros H. bytes. Qed.

(** The unfolding equations of the two trimming functions. *)
Lemma TrimLeftSpace_1 (a : ascii) (s : string) :
  asciiSpace a = true -> TrimLeftSpace (String a s) = TrimLeftSpace s.
Proof. intros H. cbn [TrimLeftSpace]. rewrite H. reflexivity. Qed.

Lemma TrimLeftSpace_2 (a b : ascii) (s : string) :
  space2 a b = true -> TrimLeftSpace (String a (String b s)) = TrimLeftSpace s.
Proof.
  intros H. cbn [TrimLeftSpace]. rewrite (space2_not_ascii a b H), H. reflexivity.
Qed.

Lemma TrimLeftSpace_3 (a b c : ascii) (s : string) :
  space3 a b c = true ->
  TrimLeftSpace (String a (String b (String c s))) = TrimLeftSpace s.
Proof.
  intros H. cbn [TrimLeftSpace].
  rewrite (space3_not_ascii a b c H), (space3_not_space2 a b c H), H. reflexivity.
Qed.

Lemma TrimLeftSpace_stop (s : string) :
  leading_space s = false -> TrimLeftSpace s = s.
Proof.
  unfold leading_space.
  destruct s as [|a [|b [|c s]]]; cbn [starts TrimLeftSpace]; try reflexivity.
  - destruct (asciiSpace a); [discriminate|reflexivity].
  - destruct (asciiSpace a); [discriminate|]. destruct (space2 a b); [discriminate|].
    reflexivity.
  - destruct (asciiSpace a); [discriminate|]. destruct (space2 a b); [discriminate|].
    cbn [orb]. intros ->. reflexivity.
Qed.

Lemma TrimLeftSpace_rev_1 (a : ascii) (s : string) :
  asciiSpace a = true -> TrimLeftSpace_rev (String a s) = TrimLeftSpace_rev s.
Proof. intros H. cbn [TrimLeftSpace_rev]. rewrite H. reflexivity. Qed.

Lemma TrimLeftSpace_rev_2 (a b : ascii) (s : string) :
  space2 b a = true ->
  TrimLeftSpace_rev (String a (String b s)) = TrimLeftSpace_rev s.
Proof.
  intros H. cbn [TrimLeftSpace_rev].
  rewrite (space2_last_not_ascii b a H), H. reflexivity.
Qed.

Lemma TrimLeftSpace_rev_3 (a b c : ascii) (s : string) :
  space3 c b a = true ->
  TrimLeftSpace_rev (String a (String b (String c s))) = TrimLeftSpace_rev s.
Proof.
  intros H. cbn [TrimLeftSpace_rev].
  rewrite (space3_last_not_ascii c b a H), (space3_last_not_space2 c b a H), H.
  reflexivity.
Qed.

Lemma TrimLeftSpace_rev_stop (s : string) :
  starts asciiSpace (fun a b => space2 b a) (fun a b c => space3 c b a) s = false ->
  TrimLeftSpace_rev s = s.
Proof.
  destruct s as [|a [|b [|c s]]]; cbn [starts TrimLeftSpace_rev]; try reflexivity.
  - destruct (asciiSpace a); [discriminate|reflexivity].
  - destruct (asciiSpace a); [discriminate|]. destruct (space2 b a); [discriminate|].
    reflexivity.
  - destruct (asciiSpace a); [discriminate|]. destruct (space2 b a); [discriminate|].
    cbn [orb]. intros ->. reflexivity.
Qed.

(** White space read backwards. *)
Lemma white_rev (s : string) :
  white s ->
  runs asciiSpace (fun a b => space2 b a) (fun a b c => space3 c b a) (string_rev s).
Proof.
  intros Hs. induction Hs.
  - constructor.
  - rewrite string_rev_cons. apply runs_app; [assumption|].
    apply runs_1; [assumption|constructor].
  - rewrite !string_rev_cons, append_assoc. apply runs_app; [assumption|].
    apply (runs_2 _ _ _ b a); [assumption|constructor].
  - rewrite !string_rev_cons, !append_assoc. apply runs_app; [assumption|].
    apply (runs_3 _ _ _ c b a); [assumption|constructor].
Qed.

Lemma rev_white (s : string) :
  runs asciiSpace (fun a b => space2 b a) (fun a b c => space3 c b a) s ->
  white (string_rev s).
Proof.
  intros Hs. induction Hs.
  - constructor.
  - rewrite string_rev_cons. apply runs_app; [assumption|].
    apply runs_1; [assumption|constructor].
  - rewrite !string_rev_cons, append_assoc. apply runs_app; [assumption|].
    apply (runs_2 _ _ _ b a); [assumption|constructor].
  - rewrite !string_rev_cons, !append_assoc. apply runs_app; [assumption|].
    apply (runs_3 _ _ _ c b a); [assumption|constructor].
Qed.

(** No white-space rune starts in a text that does not start with one and
    ends in the white space that follows it: the bytes that continue a
    white-space rune do not start one. *)
Lemma leading_space_before_white (c r : string) :
  c <> "" -> leading_space c = false -> white r -> leading_space (c +:+ r) = false.
Proof.
  intros Hne Hc Hr. unfold leading_space in *.
  destruct c as [|x [|y [|z c]]]; [contradiction| | |].
  - rewrite append_cons. change ("" +:+ r) with r.
    cbn [starts] in Hc |- *. rewrite orb_false_r in Hc. rewrite Hc. cbn [orb].
    inversion Hr as [|a s Ha Hs|a b s Hab Hs|a b c' s Habc Hs]; subst;
      [reflexivity| | |].
    + destruct s as [|b s]; [bytes|]. apply orb_false_iff. split; bytes.
    + apply orb_false_iff. split; bytes.
    + apply orb_false_iff. split; bytes.
  - rewrite !append_cons. change ("" +:+ r) with r.
    cbn [starts] in Hc |- *. rewrite orb_false_r in Hc.
    apply orb_false_iff in Hc. destruct Hc as [Hx Hxy]. rewrite Hx, Hxy. cbn [orb].
    inversion Hr as [|a s Ha Hs|a b s Hab Hs|a b c' s Habc Hs]; subst;
      [reflexivity| | |]; bytes.
  - rewrite !append_cons. exact Hc.
Qed.

Lemma TrimRightSpace_nil : TrimRightSpace "" = "".
Proof. reflexivity. Qed.

(** [TrimSpace] on some texts: white space goes from both ends, ASCII or not,
    and stays inside; a text of white space only becomes empty; the byte
    0xA0 on its own, which is not the encoding of a rune, stays. *)
Lemma TrimSpace_examples :
  TrimSpace "  REF-001 " = "REF-001"
  /\ TrimSpace (example.nbsp +:+ example.em_space +:+ "REF-001"
                +:+ example.tab +:+ example.ideographic_space +:+ example.newline)
     = "REF-001"
  /\ TrimSpace " REF 001 " = "REF 001"
  /\ TrimSpace "REF-001" = "REF-001"
  /\ TrimSpace (example.tab +:+ " " +:+ example.newline) = ""
  /\ TrimSpace (String (ascii_of_nat 0xa0) "REF-001")
     = String (ascii_of_nat 0xa0) "REF-001".
Proof. vm_compute. repeat split. Qed.

(** What [TrimSpace] returns: the text between a run of white space at the
    start and one at the end, and it neither starts nor ends with white
    space. *)
Lemma TrimSpace_cut (s : string) :
  exists l r,
    white l /\ white r /\ s = l +:+ TrimSpace s +:+ r
    /\ leading_space (TrimSpace s) = false
    /\ trailing_space (TrimSpace s) = false.
Proof.
  destruct (trim_cut asciiSpace space2 space3 TrimLeftSpace eq_refl
              TrimLeftSpace_1 TrimLeftSpace_2 TrimLeftSpace_3 TrimLeftSpace_stop s)
    as (l & Hl & Hs & Hlead).
  destruct (trim_cut asciiSpace (fun a b => space2 b a) (fun a b c => space3 c b a)
              TrimLeftSpace_rev eq_refl
              TrimLeftSpace_rev_1 TrimLeftSpace_rev_2 TrimLeftSpace_rev_3
              TrimLeftSpace_rev_stop (string_rev (TrimLeftSpace s)))
    as (r & Hr & Hu & Htrail).
  assert (Hmid : TrimLeftSpace s = TrimSpace s +:+ string_rev r).
  { rewrite <- (string_rev_involutive (TrimLeftSpace s)), Hu at 1.
    rewrite string_rev_app. reflexivity. }
  exists l, (string_rev r).
  split; [exact Hl|]. split; [apply rev_white; exact Hr|].
  split; [rewrite <- Hmid; exact Hs|]. split.
  - apply (starts_prefix _ _ _ _ (string_rev r)). rewrite <- Hmid. exact Hlead.
  - unfold trailing_space, TrimSpace, TrimRightSpace.
    rewrite string_rev_involutive. exact Htrail.
Qed.

(** And it is the only such text: whatever white space surrounds a text that
    neither starts nor ends with white space, [TrimSpace] returns that
    text. *)
Lemma TrimSpace_surrounded (l c r : string) :
  white l -> white r ->
  leading_space c = false -> trailing_space c = false ->
  TrimSpace (l +:+ c +:+ r) = c.
Proof.
  intros Hl Hr Hlead Htrail. unfold TrimSpace.
  rewrite (trim_runs asciiSpace space2 space3 TrimLeftSpace
             TrimLeftSpace_1 TrimLeftSpace_2 TrimLeftSpace_3 l (c +:+ r) Hl).
  destruct (string_dec c "") as [->|Hne].
  - change ("" +:+ r) with r. rewrite <- (append_nil_r r).
    rewrite (trim_runs asciiSpace space2 space3 TrimLeftSpace
               TrimLeftSpace_1 TrimLeftSpace_2 TrimLeftSpace_3 r "" Hr).
    reflexivity.
  - rewrite (TrimLeftSpace_stop _ (leading_space_before_white c r Hne Hlead Hr)).
    unfold TrimRightSpace. rewrite string_rev_app.
    rewrite (trim_runs asciiSpace (fun a b => space2 b a) (fun a b c => space3 c b a)
               TrimLeftSpace_rev TrimLeftSpace_rev_1 TrimLeftSpace_rev_2
               TrimLeftSpace_rev_3 (string_rev r) (string_rev c) (white_rev r Hr)).
    rewrite (TrimLeftSpace_rev_stop _ Htrail).
    apply string_rev_involutive.
Qed.

Section ValidCreation.

Context `{messaging.Codec}.

(** C9. For every valid request (positive amount, ETB or USD, a reference
    that is not empty once trimmed and that no record carries), when the
    store reports no failure and the identifier drawn is free,
    [CreatePayment] adds exactly one record to the table, with status
    PENDING, the currency and the trimmed reference of the request, and its
    amount as the column takes it; when the publish goes through it returns
    the response that carries this record's identifier, currency, reference
    and status PENDING and the amount of the request, which is the record's
    whenever the column holds that amount unchanged; otherwise it returns
    the created-but-not-published error. *)
Theorem CreatePayment_valid (io : service.CreateIO)
    (req : input.CreatePaymentRequest) (s : Sys) :
  PrimFloat.ltb 0%float (input.Amount req) = true ->
  input.Currency req = core.CurrencyETB \/ input.Currency req = core.CurrencyUSD ->
  TrimSpace (input.Reference req) <> "" ->
  (forall id row, table s !! id = Some row ->
                  db.Reference row <> TrimSpace (input.Reference req)) ->
  gorm.failure (service.exists_ io) = None ->
  gorm.failure (service.create io) = None ->
  table s !! uuid_New (service.entropy io) = None ->
  exists r s' row,
    service.CreatePayment io req s = (r, s')
    /\ table s' = <[db.ID row := row]> (table s)
    /\ table s !! db.ID row = None
    /\ size (table s') = S (size (table s))
    /\ db.Status row = db.PaymentStatusPending
    /\ db.Amount row = gorm.numeric (service.create io) (input.Amount req)
    /\ db.Currency_ row = input.Currency req
    /\ db.Reference row = TrimSpace (input.Reference req)
    /\ match messaging.PublishPaymentMessage (service.publish io) (db.ID row) (queue s) with
       | (None, q) =>
           queue s' = q
           /\ exists resp,
               r = Ok resp
               /\ input.ID resp = db.ID row
               /\ input.RespAmount resp = input.Amount req
               /\ (gorm.numeric (service.create io) (input.Amount req)
                   = input.Amount req ->
                   input.RespAmount resp = db.Amount row)
               /\ input.RespCurrency resp = db.Currency_ row
               /\ input.RespReference resp = db.Reference row
               /\ input.Status resp = core.PaymentStatusPending
       | (Some err, _) =>
           queue s' = queue s
           /\ r = Err (Wrap "payment created but failed to publish message: " err)
       end.
Proof.
  intros Hpos Hcur Href Hfresh Hexists Hcreate Hfree.
  pose proof (positive_not_leb_zero _ Hpos) as Hamount.
  pose proof (count_reference_none _ _ Hfresh) as Hzero.
  pose proof (CreatePayment_outcome io req s) as Hout.
  destruct (service.CreatePayment io req s) as [r s'].
  exists r, s', (new_row io req).
  split; [reflexivity|]. cbn [db.ID db.Status db.Amount db.Currency_ db.Reference new_row].
  inversion Hout as [ Ha Heq | Ha Hc1 Hc2 Heq | Ha Hc Hr Heq | text Hv He Heq
                    | Hv He Hc Heq | e Hv He Hc Hor Heq
                    | err' q' Hv He Hc Hcr Hf Hp Heq | q' Hv He Hc Hcr Hf Hp Heq ];
    subst.
  - congruence.
  - destruct Hcur; contradiction.
  - contradiction.
  - congruence.
  - lia.
  - destruct Hor as [(text & Hf & _)|(_ & [x Hx] & _)]; congruence.
  - subst. cbn [table queue]. rewrite Hp.
    repeat split; try assumption.
    apply map_size_insert_None. exact Hfree.
  - subst. cbn [table queue]. rewrite Hp.
    repeat split; try assumption.
    + apply map_size_insert_None. exact Hfree.
    + exists (new_response io req). repeat split.
      intros Hkept. symmetry. exact Hkept.
Qed.

(** C10. A successful [CreatePayment] stores and returns the submitted
    reference with the surrounding white space removed: the submitted
    reference is the returned one between a run of white space at its start
    and one at its end, the returned one neither starts nor ends with white
    space, and the record stored under the returned identifier carries it.
    After it, a request whose reference is that text in whatever white space,
    or any whose reference trims to the same text, otherwise valid and met by
    an available store, is refused with the conflict error and changes
    nothing. *)
Theorem reference_trimmed (io : service.CreateIO)
    (req : input.CreatePaymentRequest) (s s' : Sys)
    (resp : input.PaymentResponse) :
  service.CreatePayment io req s = (Ok resp, s') ->
  input.RespReference resp = TrimSpace (input.Reference req)
  /\ (exists l r,
        white l /\ white r
        /\ input.Reference req = l +:+ input.RespReference resp +:+ r)
  /\ leading_space (input.RespReference resp) = false
  /\ trailing_space (input.RespReference resp) = false
  /\ (exists row, table s' !! input.ID resp = Some row
                  /\ db.Reference row = input.RespReference resp)
  /\ (forall io2 req2 l2 r2,
        white l2 -> white r2 ->
        input.Reference req2 = l2 +:+ input.RespReference resp +:+ r2 ->
        PrimFloat.leb (input.Amount req2) 0%float = false ->
        input.Currency req2 = core.CurrencyETB
        \/ input.Currency req2 = core.CurrencyUSD ->
        gorm.failure (service.exists_ io2) = None ->
        service.CreatePayment io2 req2 s'
        = (Err (New "reference already exists"), s'))
  /\ (forall io2 req2,
        TrimSpace (input.Reference req2) = TrimSpace (input.Reference req) ->
        PrimFloat.leb (input.Amount req2) 0%float = false ->
        input.Currency req2 = core.CurrencyETB
        \/ input.Currency req2 = core.CurrencyUSD ->
        gorm.failure (service.exists_ io2) = None ->
        service.CreatePayment io2 req2 s'
        = (Err (New "reference already exists"), s')).
Proof.
  intros Hrun. pose proof (CreatePayment_outcome io req s) as Hout.
  rewrite Hrun in Hout. inversion Hout; subst.
  match goal with
  | Hv : passes_validation req |- _ => destruct Hv as (_ & _ & Href)
  end.
  cbn [input.RespReference input.ID new_response].
  set (s1 := mkSys _ _).
  assert (Hrow : table s1 !! uuid_New (service.entropy io) = Some (new_row io req))
    by apply lookup_insert_eq.
  destruct (TrimSpace_cut (input.Reference req)) as (l & r & Hl & Hr & Hcut & Hlead & Htrail).
  assert (Hconflict :
            forall io2 req2,
              TrimSpace (input.Reference req2) = TrimSpace (input.Reference req) ->
              PrimFloat.leb (input.Amount req2) 0%float = false ->
              input.Currency req2 = core.CurrencyETB
              \/ input.Currency req2 = core.CurrencyUSD ->
              gorm.failure (service.exists_ io2) = None ->
              service.CreatePayment io2 req2 s1
              = (Err (New "reference already exists"), s1)).
  { intros io2 req2 Hsame Hamount Hcur Hexists.
    assert (Hcount : (0 < gorm.count_reference (TrimSpace (input.Reference req2))
                            (table s1))%Z).
    { apply (count_reference_some _ _ _ _ Hrow). cbn. symmetry. exact Hsame. }
    pose proof (CreatePayment_outcome io2 req2 s1) as Hout2.
    destruct (service.CreatePayment io2 req2 s1) as [r2 s2].
    inversion Hout2 as [ Ha Heq | Ha Hc1 Hc2 Heq | Ha Hc' Hr' Heq | text Hv' He' Heq
                       | Hv' He' Hc' Heq | e Hv' He' Hc' Hor Heq
                       | err' q2 Hv' He' Hc' Hcr' Hf' Hp' Heq
                       | q2 Hv' He' Hc' Hcr' Hf' Hp' Heq ];
      subst.
    - congruence.
    - destruct Hcur; contradiction.
    - congruence.
    - congruence.
    - reflexivity.
    - lia.
    - lia.
    - lia. }
  split; [reflexivity|].
  split; [exists l, r; auto|].
  split; [exact Hlead|]. split; [exact Htrail|].
  split; [exists (new_row io req); split; [exact Hrow|reflexivity]|].
  split; [|exact Hconflict].
  intros io2 req2 l2 r2 Hl2 Hr2 Href2. apply Hconflict.
  rewrite Href2. apply TrimSpace_surrounded; assumption.
Qed.

End ValidCreation.

Lemma CreatePayment_valid_witness :
  let io := sample.createio 5%N in
  let req := sample.request 100.5%float "  REF-001 " in
  exists r s' row,
    service.CreatePayment (H := plain.codec) io req initial = (r, s')
    /\ table s' = <[db.ID row := row]> (table initial)
    /\ table initial !! db.ID row = None
    /\ size (table s') = S (size (table initial))
    /\ db.Status row = db.PaymentStatusPending
    /\ db.Amount row = gorm.numeric (service.create io) (input.Amount req)
    /\ db.Currency_ row = input.Currency req
    /\ db.Reference row = TrimSpace (input.Reference req)
    /\ match messaging.PublishPaymentMessage (H := plain.codec)
               (service.publish io) (db.ID row) (queue initial) with
       | (None, q) =>
           queue s' = q
           /\ exists resp,
               r = Ok resp
               /\ input.ID resp = db.ID row
               /\ input.RespAmount resp = input.Amount req
               /\ (gorm.numeric (service.create io) (input.Amount req)
                   = input.Amount req ->
                   input.RespAmount resp = db.Amount row)
               /\ input.RespCurrency resp = db.Currency_ row
               /\ input.RespReference resp = db.Reference row
               /\ input.Status resp = core.PaymentStatusPending
       | (Some err, _) =>
           queue s' = queue initial
           /\ r = Err (Wrap "payment created but failed to publish message: " err)
       end.
Proof.
  intros io req.
  apply (CreatePayment_valid (H := plain.codec) io req initial).
  - vm_compute. reflexivity.
  - right. reflexivity.
  - vm_compute. discriminate.
  - intros id row Hrow. vm_compute in Hrow. discriminate Hrow.
  - reflexivity.
  - reflexivity.
  - vm_compute. reflexivity.
Defined.

(** C9 (as stated) fails for an amount that has more than two decimals. The
    request for 100.125 USD is valid and goes through: the response carries
    100.125, and the record, whose column holds two decimals, 100.13. For
    100.5 the statement holds. *)
Lemma response_carries_record_refuted :
  let io := sample.createio 5%N in
  let req := sample.request 100.125%float "REF-001" in
  (PrimFloat.ltb 0%float (input.Amount req) = true
   /\ input.Currency req = core.CurrencyUSD
   /\ TrimSpace (input.Reference req) <> ""
   /\ gorm.failure (service.exists_ io) = None
   /\ gorm.failure (service.create io) = None
   /\ table initial !! uuid_New (service.entropy io) = None)
  /\ (exists resp row,
        service.CreatePayment (H := plain.codec) io req initial
        = (Ok resp, {| table := {[ db.ID row := row ]};
                       queue := [sample.notice (sample.body (db.ID row))] |})
        /\ input.ID resp = db.ID row
        /\ PrimFloat.eqb (input.RespAmount resp) 100.125%float = true
        /\ PrimFloat.eqb (db.Amount row) (PrimFloat.div 10013%float 100%float)
           = true)
  /\ ~ response_carries_record (H := plain.codec) io req initial
  /\ response_carries_record (H := plain.codec) io
       (sample.request 100.5%float "REF-001") initial.
Proof.
  intros io req. split; [|split; [|split]].
  - vm_compute. repeat split. discriminate.
  - exists (new_response io req), (new_row io req). vm_compute. repeat split.
  - intros (resp & row & Hresp & Htable & _ & _ & Hid & Hamount & _).
    assert (Hrun : service.CreatePayment (H := plain.codec) io req initial
                   = (Ok (new_response io req),
                      {| table := {[ uuid_New 5%N := new_row io req ]};
                         queue := [sample.notice (sample.body (uuid_New 5%N))] |}))
      by (vm_compute; reflexivity).
    rewrite Hrun in Hresp, Htable. cbn [fst snd table] in Hresp, Htable.
    injection Hresp as <-.
    cbn [input.ID new_response io sample.createio service.entropy] in Hid.
    assert (Hrow : ({[ uuid_New 5%N := new_row io req ]} : Table) !! uuid_New 5%N
                   = Some row).
    { rewrite Htable, <- Hid. apply lookup_insert_eq. }
    rewrite lookup_singleton_eq in Hrow. injection Hrow as <-.
    apply (f_equal (fun a => PrimFloat.eqb a 100.125%float)) in Hamount.
    vm_compute in Hamount. discriminate Hamount.
  - exists (new_response io (sample.request 100.5%float "REF-001")),
      (new_row io (sample.request 100.5%float "REF-001")).
    vm_compute. repeat split.
Qed.

Lemma reference_trimmed_witness :
  let io := sample.createio 5%N in
  let req := sample.request 100.5%float "  REF-001 " in
  let s' := (service.CreatePayment (H := plain.codec) io req initial).2 in
  let resp := new_response io req in
  let padded :=
    example.nbsp +:+ example.em_space +:+ "REF-001"
    +:+ example.tab +:+ example.ideographic_space +:+ example.newline in
  (input.RespReference resp = TrimSpace (input.Reference req)
   /\ (exists l r,
         white l /\ white r
         /\ input.Reference req = l +:+ input.RespReference resp +:+ r)
   /\ leading_space (input.RespReference resp) = false
   /\ trailing_space (input.RespReference resp) = false
   /\ (exists row, table s' !! input.ID resp = Some row
                   /\ db.Reference row = input.RespReference resp)
   /\ (forall io2 req2 l2 r2,
         white l2 -> white r2 ->
         input.Reference req2 = l2 +:+ input.RespReference resp +:+ r2 ->
         PrimFloat.leb (input.Amount req2) 0%float = false ->
         input.Currency req2 = core.CurrencyETB
         \/ input.Currency req2 = core.CurrencyUSD ->
         gorm.failure (service.exists_ io2) = None ->
         service.CreatePayment (H := plain.codec) io2 req2 s'
         = (Err (New "reference already exists"), s'))
   /\ (forall io2 req2,
         TrimSpace (input.Reference req2) = TrimSpace (input.Reference req) ->
         PrimFloat.leb (input.Amount req2) 0%float = false ->
         input.Currency req2 = core.CurrencyETB
         \/ input.Currency req2 = core.CurrencyUSD ->
         gorm.failure (service.exists_ io2) = None ->
         service.CreatePayment (H := plain.codec) io2 req2 s'
         = (Err (New "reference already exists"), s')))
  /\ input.RespReference resp = "REF-001"
  /\ (exists row, table s' !! input.ID resp = Some row
                  /\ db.Reference row = "REF-001")
  /\ service.CreatePayment (H := plain.codec) (sample.createio 6%N)
       (sample.request 20%float "REF-001   ") s'
     = (Err (New "reference already exists"), s')
  /\ service.CreatePayment (H := plain.codec) (sample.createio 6%N)
       (sample.request 20%float padded) s'
     = (Err (New "reference already exists"), s')
  /\ (service.CreatePayment (H := plain.codec) (sample.createio 6%N)
        (sample.request 20%float "REF-0 01") s').1
     = Ok (new_response (sample.createio 6%N) (sample.request 20%float "REF-0 01")).
Proof.
  intros io req s' resp padded. split.
  - apply (reference_trimmed (H := plain.codec) io req initial s' resp).
    vm_compute. reflexivity.
  - vm_compute. split; [reflexivity|]. split; [eexists; split; reflexivity|].
    repeat split.
Defined.

(** [CreatePayment] is its three steps taken back to back. *)
Lemma CreatePayment_by_steps `{messaging.Codec} (io : service.CreateIO)
    (req : input.CreatePaymentRequest) (s : Sys) :
  let first := service.CreatePayment_step io (service.Checking req) s in
  let second := service.CreatePayment_step io first.1 first.2 in
  let third := service.CreatePayment_step io second.1 second.2 in
  third = (service.Returned (service.CreatePayment io req s).1,
           (service.CreatePayment io req s).2).
Proof.
  unfold service.CreatePayment. cbn [service.CreatePayment_step].
  destruct (PrimFloat.leb (input.Amount req) 0%float); [reflexivity|].
  destruct (negb (String.eqb (input.Currency req) core.CurrencyETB)
            && negb (String.eqb (input.Currency req) core.CurrencyUSD));
    [reflexivity|].
  cbn [input.Reference input.Amount input.Currency].
  destruct (String.eqb (TrimSpace (input.Reference req)) ""); [reflexivity|].
  destruct (database.ReferenceExists (service.exists_ io)
              (TrimSpace (input.Reference req)) (table s)) as [[|]|e];
    try reflexivity.
  cbn [fst snd service.CreatePayment_step input.Reference input.Amount input.Currency].
  destruct (database.Create _ _ _) as [[[e|] payment] t]; [reflexivity|].
  cbn [fst snd service.CreatePayment_step table queue].
  destruct (messaging.PublishPaymentMessage _ _ _) as [[e|] q]; reflexivity.
Qed.

(** ** The order of the validations, and the amount that slips through *)

(** An amount that is not NaN and not positive is [<= 0]. *)
Lemma not_positive_leb_zero (a : float) :
  PrimFloat.is_nan a = false ->
  PrimFloat.ltb 0%float a = false ->
  PrimFloat.leb a 0%float = true.
Proof.
  unfold PrimFloat.is_nan. rewrite FloatAxioms.eqb_spec, FloatAxioms.ltb_spec, FloatAxioms.leb_spec.
  unfold SFeqb, SFltb, SFleb.
  replace (Prim2SF 0%float) with (S754_zero false) by (vm_compute; reflexivity).
  destruct (Prim2SF a) as [sg|sg| |sg m e]; cbn; try discriminate;
    destruct sg; cbn; try discriminate; reflexivity.
Qed.


(** C8, where the code departs from it. NaN is not greater than zero, yet
    it is not [<= 0] either: the amount check lets it through, and with a
    valid currency and reference the payment is created. *)
Theorem CreatePayment_nan_amount :
  let io := sample.createio 5%N in
  let req := sample.request nan "REF-NAN" in
  PrimFloat.ltb 0%float (input.Amount req) = false
  /\ service.CreatePayment (H := plain.codec) io req initial
     = (Ok (new_response io req),
        {| table := {[ uuid_New 5%N := new_row io req ]};
           queue := [sample.notice (sample.body (uuid_New 5%N))] |})
  /\ db.Amount (new_row io req) = nan.
Proof. vm_compute. repeat split. Qed.

(** ** Two creations racing on one reference *)

(** The insert that meets a row with its reference, put there since the
    existence check, returns the failure of the store behind the two
    create-failed prefixes, and the handler answers it like any other failed
    insert. *)
Lemma insert_duplicate_reference `{messaging.Codec} (io : service.CreateIO)
    (req : input.CreatePaymentRequest) (s : Sys) :
  gorm.failure (service.create io) = None ->
  table s !! uuid_New (service.entropy io) = None ->
  (0 < gorm.count_reference (input.Reference req) (table s))%Z ->
  service.CreatePayment_step io (service.Inserting req) s
  = (service.Returned
       (Err (Wrap "failed to create payment: "
               (Wrap "failed to create payment: "
                  (gorm.unique_violation "idx_payments_reference")))), s)
  /\ http.CreatePayment_reply
       (Err (Wrap "failed to create payment: "
               (Wrap "failed to create payment: "
                  (gorm.unique_violation "idx_payments_reference"))))
     = http.JSON http.StatusInternalServerError
         (http.ErrorBody "Failed to create payment").
Proof.
  intros Hcreate Hfree Hcount. split; [|vm_compute; reflexivity].
  cbn [service.CreatePayment_step]. unfold database.Create, gorm.Create.
  rewrite Hcreate.
  cbn [db.BeforeCreate database.fromCore db.ID db.Reference core.ID core.Reference].
  rewrite (proj2 (N.eqb_neq _ _) (uuid_New_not_Nil (service.entropy io))).
  destruct (decide (is_Some (table s !! uuid_New (service.entropy io))))
    as [[x Hx]|_]; [congruence|].
  rewrite (proj2 (Z.ltb_lt _ _) Hcount). reflexivity.
Qed.

(** C4, where the code departs from it. Two calls with one reference both
    pass the existence check before either inserts. The first insert goes
    through; the second meets the unique index, and its caller gets the
    create-failed error and the reply 500, where the existence check on the
    same table gives the conflict error and the reply 409. *)
Theorem duplicate_reference_race :
  let io_a := sample.createio 5%N in
  let io_b := sample.createio 6%N in
  let req := sample.request 100.5%float "REF-003" in
  let a1 := service.CreatePayment_step (H := plain.codec) io_a (service.Checking req) initial in
  let b1 := service.CreatePayment_step (H := plain.codec) io_b (service.Checking req) a1.2 in
  let a2 := service.CreatePayment_step (H := plain.codec) io_a a1.1 b1.2 in
  let b2 := service.CreatePayment_step (H := plain.codec) io_b b1.1 a2.2 in
  let late := service.CreatePayment_step (H := plain.codec) io_b (service.Checking req) a2.2 in
  a1.1 = service.Inserting req
  /\ b1.1 = service.Inserting req
  /\ table a2.2 = {[ uuid_New 5%N := new_row io_a req ]}
  /\ b2 = (service.Returned
             (Err (Wrap "failed to create payment: "
                     (Wrap "failed to create payment: "
                        (gorm.unique_violation "idx_payments_reference")))),
           a2.2)
  /\ http.CreatePayment_reply
       (Err (Wrap "failed to create payment: "
               (Wrap "failed to create payment: "
                  (gorm.unique_violation "idx_payments_reference"))))
     = http.JSON http.StatusInternalServerError
         (http.ErrorBody "Failed to create payment")
  /\ late = (service.Returned (Err (New "reference already exists")), a2.2)
  /\ http.CreatePayment_reply (Err (New "reference already exists"))
     = http.JSON http.StatusConflict (http.ErrorBody "reference already exists").
Proof. vm_compute. repeat split. Qed.

(** * Further properties *)

(** ** The repository *)

(** The two conversions between the entity and the row are inverse to each
    other. *)
Theorem toCore_fromCore (p : core.Payment) (r : db.Payment) :
  database.toCore (database.fromCore p) = p
  /\ database.fromCore (database.toCore r) = r.
Proof. destruct p, r. split; reflexivity. Qed.

Lemma BeforeCreate_not_Nil (entropy : N) (now : Time) (p : db.Payment) :
  db.ID (db.BeforeCreate entropy now p) <> uuid_Nil.
Proof.
  unfold db.BeforeCreate. cbn [db.ID].
  destruct (N.eqb (db.ID p) uuid_Nil) eqn:Hid.
  - apply uuid_New_not_Nil.
  - apply N.eqb_neq. exact Hid.
Qed.

Lemma stamp_once (now c : Time) :
  (if IsZero (if IsZero c then now else c) then now
   else if IsZero c then now else c)
  = (if IsZero c then now else c).
Proof.
  destruct (IsZero c) eqn:Hc; [destruct (IsZero now); reflexivity|].
  rewrite Hc. reflexivity.
Qed.

(** A timestamp the hook has set at a time that is not the zero time is set:
    a later run of the hook keeps it. *)
Lemma stamp_again (now now' c : Time) :
  IsZero now = false ->
  (if IsZero (if IsZero c then now else c) then now'
   else if IsZero c then now else c)
  = (if IsZero c then now else c).
Proof.
  intros Hnow. destruct (IsZero c) eqn:Hc; [rewrite Hnow|rewrite Hc]; reflexivity.
Qed.

(** The [BeforeCreate] hook leaves a row whose identifier is not nil; it
    keeps an identifier and timestamps that were set, never touches amount,
    currency, reference and status; and when the clock it read was not the
    zero time, running it again, with whatever random draw and at whatever
    time, changes nothing. *)
Theorem BeforeCreate_fills (entropy entropy' : N) (now now' : Time)
    (p : db.Payment) :
  let q := db.BeforeCreate entropy now p in
  db.ID q <> uuid_Nil
  /\ (db.ID p <> uuid_Nil -> db.ID q = db.ID p)
  /\ (IsZero (db.CreatedAt p) = false -> db.CreatedAt q = db.CreatedAt p)
  /\ (IsZero (db.UpdatedAt p) = false -> db.UpdatedAt q = db.UpdatedAt p)
  /\ db.Amount q = db.Amount p
  /\ db.Currency_ q = db.Currency_ p
  /\ db.Reference q = db.Reference p
  /\ db.Status q = db.Status p
  /\ (IsZero now = false -> db.BeforeCreate entropy' now' q = q).
Proof.
  intros q. subst q. unfold db.BeforeCreate. cbn [db.ID db.Amount db.Currency_
    db.Reference db.Status db.CreatedAt db.UpdatedAt].
  destruct (N.eqb (db.ID p) uuid_Nil) eqn:Hid.
  - split; [apply uuid_New_not_Nil|].
    split; [intros Hne; apply N.eqb_eq in Hid; contradiction|].
    split; [intros ->; reflexivity|]. split; [intros ->; reflexivity|].
    do 4 (split; [reflexivity|]).
    intros Hnow.
    rewrite (proj2 (N.eqb_neq _ _) (uuid_New_not_Nil entropy)).
    rewrite !(stamp_again now now' _ Hnow). reflexivity.
  - split; [apply N.eqb_neq; exact Hid|].
    split; [reflexivity|].
    split; [intros ->; reflexivity|]. split; [intros ->; reflexivity|].
    do 4 (split; [reflexivity|]).
    intros Hnow.
    rewrite Hid, !(stamp_again now now' _ Hnow). reflexivity.
Qed.

Lemma BeforeCreate_fills_witness :
  let p := database.fromCore (example.entity uuid_Nil "REF-013") in
  let q := db.BeforeCreate 7%N 1700000000%Z p in
  db.ID q <> uuid_Nil
  /\ db.CreatedAt q = 1700000000%Z
  /\ db.BeforeCreate 8%N 1800000000%Z q = q.
Proof.
  intros p q.
  destruct (BeforeCreate_fills 7%N 8%N 1700000000%Z 1800000000%Z p)
    as (Hid & _ & _ & _ & _ & _ & _ & _ & Hagain).
  split; [exact Hid|]. split; [reflexivity|]. apply Hagain. reflexivity.
Defined.

Lemma count_reference_pos_inv (reference : string) (t : Table) :
  (0 < gorm.count_reference reference t)%Z ->
  exists id row, t !! id = Some row /\ db.Reference row = reference.
Proof.
  unfold gorm.count_reference. intros Hpos.
  assert (Hne : filter (λ kv : UUID * db.Payment, db.Reference kv.2 = reference) t <> ∅).
  { apply map_size_non_empty_iff. lia. }
  apply map_choose in Hne. destruct Hne as (id & row & Hin).
  apply map_lookup_filter_Some in Hin. destruct Hin as [Hrow Href].
  exists id, row. split; [exact Hrow|exact Href].
Qed.

(** [ReferenceExists] answers true exactly when some row carries the
    reference; a failure of the store comes back behind the check-failed
    prefix. *)
Theorem ReferenceExists_spec (io : gorm.IO) (reference : string) (t : Table) :
  match gorm.failure io with
  | Some text =>
      database.ReferenceExists io reference t
      = Err (Wrap "failed to check reference: " (External text))
  | None =>
      exists b, database.ReferenceExists io reference t = Ok b
                /\ (b = true <->
                    exists id row, t !! id = Some row /\ db.Reference row = reference)
  end.
Proof.
  unfold database.ReferenceExists, gorm.Count.
  destruct (gorm.failure io) as [text|]; [reflexivity|].
  eexists. split; [reflexivity|]. rewrite Z.ltb_lt. split.
  - apply count_reference_pos_inv.
  - intros (id & row & Hrow & Href).
    exact (count_reference_some reference t id row Hrow Href).
Qed.

(** A payment created with an identifier of its own is found again under
    that identifier: [GetByID] returns the entity [Create] handed back with
    its amount and its timestamps as the columns hold them, hence that very
    entity when the columns hold them unchanged. The entity handed back is
    the one passed in, with the timestamps of the hook; rows under other
    identifiers are as before. *)
Theorem Create_then_GetByID (io io' : gorm.IO) (payment payment' : core.Payment)
    (t t' : Table) :
  core.ID payment <> uuid_Nil ->
  gorm.failure io' = None ->
  database.Create io payment t = (None, payment', t') ->
  database.GetByID io' (core.ID payment) t'
  = Ok (database.toCore (gorm.columns io (database.fromCore payment')))
  /\ (gorm.columns io (database.fromCore payment') = database.fromCore payment' ->
      database.GetByID io' (core.ID payment) t' = Ok payment')
  /\ core.ID payment' = core.ID payment
  /\ core.Amount payment' = core.Amount payment
  /\ core.Currency_ payment' = core.Currency_ payment
  /\ core.Reference payment' = core.Reference payment
  /\ core.Status payment' = core.Status payment
  /\ t !! core.ID payment = None
  /\ (forall id, id <> core.ID payment -> t' !! id = t !! id).
Proof.
  intros Hid Hio' Hcreate.
  unfold database.Create, gorm.Create in Hcreate.
  set (row := db.BeforeCreate _ _ _) in Hcreate.
  assert (Hrow : row = {| db.ID := core.ID payment;
                          db.Amount := core.Amount payment;
                          db.Currency_ := core.Currency_ payment;
                          db.Reference := core.Reference payment;
                          db.Status := core.Status payment;
                          db.CreatedAt := db.CreatedAt row;
                          db.UpdatedAt := db.UpdatedAt row |}).
  { subst row. unfold db.BeforeCreate, database.fromCore.
    cbn [db.ID db.Amount db.Currency_ db.Reference db.Status db.CreatedAt
         db.UpdatedAt].
    rewrite (proj2 (N.eqb_neq _ _) Hid). reflexivity. }
  assert (Hkey : db.ID row = core.ID payment) by (rewrite Hrow; reflexivity).
  destruct (gorm.failure io); [discriminate Hcreate|].
  destruct (decide (is_Some (t !! db.ID row))) as [|Hfree]; [discriminate Hcreate|].
  destruct (_ <? _)%Z; [discriminate Hcreate|].
  injection Hcreate as <- <-. rewrite Hkey in *.
  rewrite ?(proj2 (N.eqb_neq _ _) Hid).
  assert (Hget : database.GetByID io' (core.ID payment)
                   (<[core.ID payment := gorm.columns io row]> t)
                 = Ok (database.toCore (gorm.columns io row))).
  { unfold database.GetByID, gorm.First. rewrite Hio', lookup_insert_eq.
    reflexivity. }
  match goal with
  | |- context [database.fromCore ?p] =>
      assert (Hback : database.fromCore p = row) by exact (eq_sym Hrow);
      rewrite Hback
  end.
  rewrite Hget.
  split; [reflexivity|]. split.
  - intros ->. rewrite Hrow at 1. reflexivity.
  - cbn [core.ID core.Amount core.Currency_ core.Reference core.Status].
    repeat split.
    + destruct (t !! core.ID payment) eqn:E; [|reflexivity].
      exfalso. apply Hfree. eauto.
    + intros id Hne. apply lookup_insert_ne. congruence.
Qed.

Lemma Create_then_GetByID_witness :
  let payment := example.entity 11%N "REF-011" in
  let created := database.Create example.precise payment ∅ in
  (database.GetByID sample.healthy 11%N created.2
   = Ok (database.toCore
           (gorm.columns example.precise (database.fromCore created.1.2)))
   /\ (gorm.columns example.precise (database.fromCore created.1.2)
       = database.fromCore created.1.2 ->
       database.GetByID sample.healthy 11%N created.2 = Ok created.1.2)
   /\ core.ID created.1.2 = 11%N
   /\ core.Amount created.1.2 = core.Amount payment
   /\ core.Currency_ created.1.2 = core.Currency_ payment
   /\ core.Reference created.1.2 = core.Reference payment
   /\ core.Status created.1.2 = core.Status payment
   /\ (∅ : Table) !! 11%N = None
   /\ (forall id, id <> 11%N -> created.2 !! id = (∅ : Table) !! id))
  /\ core.CreatedAt created.1.2 = 1700000000123456789%Z
  /\ match database.GetByID sample.healthy 11%N created.2 with
     | Ok found => core.CreatedAt found = 1700000000123456000%Z
     | Err _ => False
     end.
Proof.
  intros payment created. split.
  - apply (Create_then_GetByID example.precise sample.healthy payment created.1.2
             ∅ created.2).
    + vm_compute. discriminate.
    + reflexivity.
    + vm_compute. reflexivity.
  - vm_compute. split; reflexivity.
Defined.

(** A payment handed to [Create] with the nil identifier is stored under the
    identifier the hook draws, but the entity handed back still carries nil:
    looking it up by the identifier of the entity finds nothing. *)
Theorem Create_nil_identifier (io io' : gorm.IO) (payment payment' : core.Payment)
    (t t' : Table) :
  core.ID payment = uuid_Nil ->
  t !! uuid_Nil = None ->
  gorm.failure io' = None ->
  database.Create io payment t = (None, payment', t') ->
  core.ID payment' = uuid_Nil
  /\ (exists row, t' !! uuid_New (gorm.random io) = Some row
                  /\ db.Reference row = core.Reference payment
                  /\ db.Status row = core.Status payment)
  /\ database.GetByID io' (core.ID payment') t' = Err (New "payment not found").
Proof.
  intros Hid Hnil Hio' Hcreate.
  destruct payment as [pid amount currency reference status created updated].
  cbn [core.ID core.Reference core.Status] in *. subst pid.
  unfold database.Create, gorm.Create, db.BeforeCreate, database.fromCore in Hcreate.
  cbn [core.ID core.Amount core.Currency_ core.Reference core.Status
       core.CreatedAt core.UpdatedAt db.ID db.Amount db.Currency_ db.Reference
       db.Status db.CreatedAt db.UpdatedAt] in Hcreate.
  rewrite N.eqb_refl in Hcreate.
  destruct (gorm.failure io); [discriminate Hcreate|].
  destruct (decide _) as [|Hfree]; [discriminate Hcreate|].
  destruct (_ <? _)%Z; [discriminate Hcreate|].
  injection Hcreate as Hp Ht. subst payment' t'.
  cbn [core.ID]. split; [reflexivity|]. split.
  - eexists. split; [apply lookup_insert_eq|]. split; reflexivity.
  - unfold database.GetByID, gorm.First. rewrite Hio'.
    rewrite lookup_insert_ne, Hnil; [reflexivity|].
    apply uuid_New_not_Nil.
Qed.

Lemma Create_nil_identifier_witness :
  let payment := example.entity uuid_Nil "REF-012" in
  let created := database.Create sample.healthy payment ∅ in
  core.ID created.1.2 = uuid_Nil
  /\ (exists row, created.2 !! uuid_New (gorm.random sample.healthy) = Some row
                  /\ db.Reference row = core.Reference payment
                  /\ db.Status row = core.Status payment)
  /\ database.GetByID sample.healthy (core.ID created.1.2) created.2
     = Err (New "payment not found").
Proof.
  intros payment created.
  apply (Create_nil_identifier sample.healthy sample.healthy payment created.1.2
           ∅ created.2).
  - reflexivity.
  - reflexivity.
  - reflexivity.
  - vm_compute. reflexivity.
Defined.

(** [Create] refuses a duplicate: when the identifier is taken, or a row
    carries the reference already, it returns the unique-constraint failure
    of the store behind its prefix and leaves entity and table as they
    were. *)
Theorem Create_refuses_duplicates (io : gorm.IO) (payment : core.Payment)
    (t : Table) :
  gorm.failure io = None ->
  core.ID payment <> uuid_Nil ->
  is_Some (t !! core.ID payment)
  \/ (exists id row, t !! id = Some row
                     /\ db.Reference row = core.Reference payment) ->
  exists constraint,
    database.Create io payment t
    = (Some (Wrap "failed to create payment: " (gorm.unique_violation constraint)),
       payment, t).
Proof.
  intros Hio Hid Hdup.
  unfold database.Create, gorm.Create.
  set (row := db.BeforeCreate _ _ _).
  assert (Hkey : db.ID row = core.ID payment).
  { subst row. unfold db.BeforeCreate, database.fromCore. cbn [db.ID].
    rewrite (proj2 (N.eqb_neq _ _) Hid). reflexivity. }
  assert (Href : db.Reference row = core.Reference payment) by reflexivity.
  rewrite Hio, Hkey, Href.
  destruct (decide (is_Some (t !! core.ID payment))) as [_|Hfree]; [eauto|].
  destruct Hdup as [Htaken|(id & r & Hr & Hsame)]; [contradiction|].
  rewrite (proj2 (Z.ltb_lt _ _) (count_reference_some _ _ _ _ Hr Hsame)). eauto.
Qed.

Lemma Create_refuses_duplicates_witness :
  exists constraint,
    database.Create sample.healthy (example.entity 12%N "REF-011")
      {[ 11%N := sample.row 11%N "REF-011" db.PaymentStatusSuccess ]}
    = (Some (Wrap "failed to create payment: " (gorm.unique_violation constraint)),
       example.entity 12%N "REF-011",
       {[ 11%N := sample.row 11%N "REF-011" db.PaymentStatusSuccess ]}).
Proof.
  apply (Create_refuses_duplicates sample.healthy (example.entity 12%N "REF-011")
           {[ 11%N := sample.row 11%N "REF-011" db.PaymentStatusSuccess ]}).
  - reflexivity.
  - vm_compute. discriminate.
  - right. exists 11%N, (sample.row 11%N "REF-011" db.PaymentStatusSuccess).
    split; [vm_compute; reflexivity|reflexivity].
Defined.

(** ** Looking a payment up *)



(** ** The table over the runs of the system *)

Section Integrity.

Context `{messaging.Codec}.

(** The insertions of a step: the key was free and is not nil, and no row
    carried the reference. *)
Lemma step_table_fresh (s s' : Sys) :
  step s s' ->
  table s' = table s
  \/ (exists row,
        table s' = <[db.ID row := row]> (table s)
        /\ table s !! db.ID row = None
        /\ db.ID row <> uuid_Nil
        /\ (forall id r, table s !! id = Some r ->
                         db.Reference r <> db.Reference row))
  \/ (exists id row target stamp,
        table s' = <[db.ID row :=
                       {| db.ID := db.ID row;
                          db.Amount := db.Amount row;
                          db.Currency_ := db.Currency_ row;
                          db.Reference := db.Reference row;
                          db.Status := target;
                          db.CreatedAt := db.CreatedAt row;
                          db.UpdatedAt := stamp |}]> (table s)
        /\ table s !! id = Some row).
Proof.
  intros Hstep.
  destruct Hstep as [io c s|io s|d s Hin].
  - destruct c as [req|req|payment|r]; cbn [service.CreatePayment_step].
    + repeat match goal with
             | |- context [if ?b then _ else _] => destruct b
             | |- context [match ?x with Ok _ => _ | Err _ => _ end] => destruct x
             end; left; reflexivity.
    + match goal with
      | |- context [database.Create ?i ?p ?t] =>
          pose proof (database_Create_cases i p t) as Hc; cbv zeta in Hc;
          destruct Hc as [[e He]|(p' & He & _ & _ & _ & _ & _ & _ & _ & Hfree & Hcount)];
          rewrite He; cbn [snd table]
      end; [left; reflexivity|].
      right; left.
      match goal with |- context [<[_ := ?r]> _] => exists r end.
      split; [reflexivity|]. split; [exact Hfree|]. split.
      * apply BeforeCreate_not_Nil.
      * intros id r Hr Href. unfold gorm.columns in Href.
        cbn [db.Reference] in Href.
        pose proof (count_reference_some _ _ _ _ Hr Href). lia.
    + destruct (messaging.PublishPaymentMessage _ _ _) as [[e|] q];
        left; reflexivity.
    + left; reflexivity.
  - unfold worker.deliver, worker.consume.
    destruct (queue s) as [|msg rest]; [left; reflexivity|].
    unfold messaging.ConsumePaymentMessages_turn.
    destruct (messaging.Unmarshal (messaging.Body msg)) as [pm|e];
      [|left; reflexivity].
    unfold worker.handler, service.ProcessPayment. cbn [table queue].
    match goal with
    | |- context [database.ProcessPayment ?i ?k ?tg ?t] =>
        destruct (ProcessPayment_cases i k tg t)
          as [[e He]|(row & stamp & He & Hrow & Hst)];
        rewrite He
    end.
    + destruct (messaging.isTerminalError _); left; reflexivity.
    + right; right. exists (messaging.PaymentID pm), row. do 2 eexists.
      cbn [snd table]. split; [reflexivity|exact Hrow].
  - left; reflexivity.
Qed.

End Integrity.

Section Invariants.

Context `{messaging.Codec}.

Lemma step_integrity (s s' : Sys) :
  step s s' ->
  keyed (table s) /\ unique_references (table s) /\ table s !! uuid_Nil = None ->
  keyed (table s') /\ unique_references (table s') /\ table s' !! uuid_Nil = None.
Proof.
  intros Hstep (Hk & Hu & Hnil).
  destruct (step_table_fresh s s' Hstep)
    as [->|[(new & -> & Hfree & Hid & Hfresh)|(k & old & target & stamp & -> & Hold)]].
  - auto.
  - split; [apply keyed_insert; exact Hk|]. split.
    + intros id1 id2 row1 row2. rewrite !lookup_insert.
      destruct (decide (db.ID new = id1)) as [<-|Hne1];
        destruct (decide (db.ID new = id2)) as [<-|Hne2].
      * reflexivity.
      * intros [= <-] Hrow2 Href. exfalso.
        exact (Hfresh id2 row2 Hrow2 (eq_sym Href)).
      * intros Hrow1 [= <-] Href. exfalso.
        exact (Hfresh id1 row1 Hrow1 Href).
      * apply Hu.
    + rewrite lookup_insert_ne; [exact Hnil|exact Hid].
  - pose proof (Hk k old Hold) as Hkey. rewrite Hkey.
    split; [|split].
    + intros id r. rewrite lookup_insert.
      destruct (decide (k = id)) as [<-|Hne]; [|apply Hk].
      intros [= <-]. reflexivity.
    + intros id1 id2 row1 row2. rewrite !lookup_insert.
      destruct (decide (k = id1)) as [<-|Hne1];
        destruct (decide (k = id2)) as [<-|Hne2].
      * reflexivity.
      * intros [= <-] Hrow2 Href. cbn [db.Reference] in Href.
        exact (Hu k id2 old row2 Hold Hrow2 Href).
      * intros Hrow1 [= <-] Href. cbn [db.Reference] in Href.
        exact (Hu id1 k row1 old Hrow1 Hold Href).
      * apply Hu.
    + rewrite lookup_insert_ne; [exact Hnil|].
      intros ->. rewrite Hnil in Hold. discriminate Hold.
Qed.

Lemma reachable_integrity (s : Sys) :
  reachable s ->
  keyed (table s) /\ unique_references (table s) /\ table s !! uuid_Nil = None.
Proof.
  induction 1 as [|s s' _ IH Hstep].
  - cbn. split; [|split].
    + intros id row. rewrite lookup_empty. discriminate.
    + intros id1 id2 row1 row2. rewrite lookup_empty. discriminate.
    + apply lookup_empty.
  - exact (step_integrity s s' Hstep IH).
Qed.

(** In every reachable state each row is stored under its own identifier, no
    two rows carry the same reference, and no row is stored under the nil
    identifier: the checks of [Create] and the write of [ProcessPayment] keep
    the keys of the table intact however creations and workers interleave. *)
Theorem reachable_store_integrity (s : Sys) :
  reachable s ->
  keyed (table s) /\ unique_references (table s) /\ table s !! uuid_Nil = None.
Proof. exact (reachable_integrity s). Qed.

(** From a reachable state no step changes the identifier, amount, currency,
    reference or creation time of a payment that is there. *)
Theorem attributes_immutable (s s' : Sys) (id : UUID) (row row' : db.Payment) :
  reachable s ->
  step s s' ->
  table s !! id = Some row ->
  table s' !! id = Some row' ->
  db.ID row' = db.ID row
  /\ db.Amount row' = db.Amount row
  /\ db.Currency_ row' = db.Currency_ row
  /\ db.Reference row' = db.Reference row
  /\ db.CreatedAt row' = db.CreatedAt row.
Proof.
  intros Hreach Hstep Hrow Hrow'.
  destruct (reachable_integrity s Hreach) as (Hk & _ & _).
  destruct (step_table_fresh s s' Hstep)
    as [Heq|[(new & Heq & Hfree & _)|(k & old & target & stamp & Heq & Hold)]];
    rewrite Heq in Hrow'; clear Heq.
  - assert (row' = row) as -> by congruence. repeat split.
  - rewrite lookup_insert_ne in Hrow'; [|congruence].
    assert (row' = row) as -> by congruence. repeat split.
  - rewrite (Hk k old Hold) in Hrow'. rewrite lookup_insert in Hrow'.
    destruct (decide (k = id)) as [<-|Hne].
    + injection Hrow' as <-. assert (old = row) as -> by congruence.
      pose proof (Hk k row Hold) as Hkey. cbn. auto.
    + assert (row' = row) as -> by congruence. repeat split.
Qed.

End Invariants.

Lemma reachable_store_integrity_witness :
  let s := (service.CreatePayment_step (H := plain.codec) (sample.createio 5)
              (service.Inserting (sample.request 100.5%float "REF-001"))
              initial).2 in
  keyed (table s) /\ unique_references (table s) /\ table s !! uuid_Nil = None.
Proof.
  intros s.
  apply (reachable_store_integrity (H := plain.codec) s).
  apply (reachable_step (H := plain.codec) initial s).
  - apply reachable_initial.
  - apply (step_api (H := plain.codec)).
Defined.

Lemma attributes_immutable_witness :
  let io := sample.createio 5 in
  let req := sample.request 100.5%float "REF-001" in
  let s0 := (service.CreatePayment_step (H := plain.codec) io (service.Inserting req)
               initial).2 in
  let s := (service.CreatePayment_step (H := plain.codec) io
              (service.Publishing (database.toCore (new_row io req))) s0).2 in
  let s' := worker.deliver (H := plain.codec) (sample.processio 0.25%float) s in
  let row' :=
    {| db.ID := uuid_New 5%N;
       db.Amount := 100.5%float;
       db.Currency_ := "USD";
       db.Reference := "REF-001";
       db.Status := db.PaymentStatusSuccess;
       db.CreatedAt := 1700000000%Z;
       db.UpdatedAt := 1700000000%Z |} in
  db.ID row' = db.ID (new_row io req)
  /\ db.Amount row' = db.Amount (new_row io req)
  /\ db.Currency_ row' = db.Currency_ (new_row io req)
  /\ db.Reference row' = db.Reference (new_row io req)
  /\ db.CreatedAt row' = db.CreatedAt (new_row io req).
Proof.
  intros io req s0 s s' row'.
  apply (attributes_immutable (H := plain.codec) s s' (uuid_New 5%N)
           (new_row io req) row').
  - apply (reachable_step (H := plain.codec) s0 s).
    + apply (reachable_step (H := plain.codec) initial s0).
      * apply reachable_initial.
      * apply (step_api (H := plain.codec)).
    + apply (step_api (H := plain.codec)).
  - apply (step_worker (H := plain.codec)).
  - vm_compute. reflexivity.
  - vm_compute. reflexivity.
Defined.

(** ** What a creation leaves untouched, and the notice it publishes *)

Section CreationFrame.

Context `{messaging.Codec}.

(** [CreatePayment] never alters or removes a payment that is there, and
    never removes or reorders a notice that is queued. It publishes exactly
    when it returns a response: then one notice goes to the tail of the
    queue, persistent, not redelivered, its body the encoding of the new
    identifier; on every error the queue is as it was. *)
Theorem CreatePayment_frame (io : service.CreateIO)
    (req : input.CreatePaymentRequest) (s : Sys) :
  let run := service.CreatePayment io req s in
  (forall id row, table s !! id = Some row -> table run.2 !! id = Some row)
  /\ match run.1 with
     | Ok resp =>
         exists body,
           messaging.Marshal
             {| messaging.PaymentID := input.ID resp;
                messaging.Timestamp := messaging.stamped (service.publish io) |}
           = Ok body
           /\ queue run.2
              = (queue s
                 ++ [{| messaging.ContentType := "application/json";
                        messaging.DeliveryMode := messaging.Persistent;
                        messaging.Published := messaging.sent (service.publish io);
                        messaging.Body := body;
                        messaging.Redelivered := false |}])%list
     | Err _ => queue run.2 = queue s
     end.
Proof.
  intros run. subst run.
  pose proof (CreatePayment_outcome io req s) as Hout.
  destruct (service.CreatePayment io req s) as [r s'].
  inversion Hout as [ Ha Heq | Ha Hc1 Hc2 Heq | Ha Hc Hr Heq | text Hv He Heq
                    | Hv He Hc Heq | e Hv He Hc Hor Heq
                    | err' q' Hv He Hc Hcr Hf Hp Heq | q' Hv He Hc Hcr Hf Hp Heq ];
    subst; cbn [fst snd table queue]; try (split; [solve [auto]|reflexivity]).
  - split; [|reflexivity].
    intros id row Hrow. rewrite lookup_insert_ne; [exact Hrow|congruence].
  - split.
    + intros id row Hrow. rewrite lookup_insert_ne; [exact Hrow|congruence].
    + cbn [input.ID new_response].
      unfold messaging.PublishPaymentMessage in Hp.
      destruct (messaging.Marshal _) as [body|e]; [|discriminate Hp].
      destruct (messaging.refused (service.publish io)); [discriminate Hp|].
      injection Hp as <-. exists body. split; reflexivity.
Qed.

End CreationFrame.

(** ** The conditional transition, whatever the store does *)

(** [ProcessPayment] is all or nothing. When it returns an error, whichever
    call failed, even the commit after a save that went through, the table is
    as it was. When it returns nil, the record was PENDING, it is now stored
    with the target status and the update time of the hook, as its column
    takes it, every other attribute kept, and no other row has changed. *)
Theorem ProcessPayment_effect (io : database.TxIO) (id : UUID)
    (target : core.PaymentStatus) (t : Table) :
  let run := database.ProcessPayment io id target t in
  match run.1 with
  | Some _ => run.2 = t
  | None =>
      exists row,
        t !! id = Some row
        /\ db.Status row = db.PaymentStatusPending
        /\ run.2 !! db.ID row
           = Some {| db.ID := db.ID row;
                     db.Amount := db.Amount row;
                     db.Currency_ := db.Currency_ row;
                     db.Reference := db.Reference row;
                     db.Status := target;
                     db.CreatedAt := db.CreatedAt row;
                     db.UpdatedAt :=
                       gorm.timestamp (database.save io)
                         (gorm.clock (database.save io)) |}
        /\ (forall k, k <> db.ID row -> run.2 !! k = t !! k)
  end.
Proof.
  intros run. subst run.
  unfold database.ProcessPayment, gorm.Transaction, database.ProcessPayment_fc,
    gorm.First, gorm.Save.
  destruct (database.begin io); [reflexivity|].
  destruct (gorm.failure (database.lock io)).
  { destruct (decide (External s = ErrRecordNotFound)); reflexivity. }
  destruct (t !! id) as [row|] eqn:Hrow.
  2:{ destruct (decide (ErrRecordNotFound = ErrRecordNotFound)); reflexivity. }
  destruct (String.eqb (db.Status row) db.PaymentStatusPending) eqn:Hst;
    cbn [negb]; [|reflexivity].
  destruct (gorm.failure (database.save io)); [reflexivity|].
  destruct (database.commit io); [reflexivity|].
  cbn [fst snd]. exists row. split; [reflexivity|].
  split; [apply String.eqb_eq; exact Hst|].
  cbn [db.BeforeUpdate db.ID db.Amount db.Currency_ db.Reference db.Status
       db.CreatedAt].
  split; [apply lookup_insert_eq|].
  intros k Hne. apply lookup_insert_ne. congruence.
Qed.

(** ** Processing one payment again and again *)

(** The processor on a payment that left PENDING: the already-processed
    error behind its prefix, nothing written. *)
Lemma processor_not_pending (io : service.ProcessIO) (id : UUID) (t : Table)
    (row : db.Payment) :
  readable (service.tx io) ->
  t !! id = Some row ->
  db.Status row <> db.PaymentStatusPending ->
  service.ProcessPayment io id t
  = (Some (Wrap "failed to process payment: " (AlreadyProcessed (db.Status row))), t).
Proof.
  intros [Hb Hl] Hrow Hst. unfold service.ProcessPayment.
  rewrite (ProcessPayment_not_pending _ _ _ _ _ Hb Hl Hrow Hst). reflexivity.
Qed.

Lemma process_all_not_pending (ios : list service.ProcessIO) (id : UUID)
    (t : Table) (row : db.Payment) :
  Forall (fun io => readable (service.tx io)) ios ->
  t !! id = Some row ->
  db.Status row <> db.PaymentStatusPending ->
  process_all ios id t
  = (repeat (Some (Wrap "failed to process payment: "
                     (AlreadyProcessed (db.Status row)))) (length ios), t).
Proof.
  intros Hios Hrow Hst. induction Hios as [|io ios Hio _ IH].
  - reflexivity.
  - cbn [process_all length repeat].
    rewrite (processor_not_pending io id t row Hio Hrow Hst), IH. reflexivity.
Qed.

(** Idempotent processing. The processor called any number of times in a row
    for a PENDING payment, the store available to the first call and
    readable to the others: the first call returns nil and moves the payment
    to the status it picked, SUCCESS or FAILED; every later call returns the
    already-processed error carrying that status; and the table after the
    last call is the table after the first. *)
Theorem processing_idempotent (io : service.ProcessIO)
    (ios : list service.ProcessIO) (id : UUID) (t : Table) (row : db.Payment) :
  t !! id = Some row ->
  db.ID row = id ->
  db.Status row = db.PaymentStatusPending ->
  available (service.tx io) ->
  Forall (fun io' => readable (service.tx io')) ios ->
  let first := service.ProcessPayment io id t in
  first.1 = None
  /\ (exists row1, first.2 !! id = Some row1 /\ db.Status row1 = picked io)
  /\ terminal (picked io)
  /\ process_all (io :: ios) id t
     = (None :: repeat (Some (Wrap "failed to process payment: "
                                (AlreadyProcessed (picked io)))) (length ios),
        first.2).
Proof.
  intros Hrow Hid Hst Hav Hios first. subst first.
  cbn [process_all]. unfold service.ProcessPayment at 1 2 3.
  fold (picked io).
  rewrite (ProcessPayment_pending _ id (picked io) t row Hav Hrow Hst).
  cbn [fst snd]. rewrite Hid.
  set (row1 := db.mkPayment _ _ _ _ _ _ _).
  assert (Hrow1 : <[id := row1]> t !! id = Some row1) by apply lookup_insert_eq.
  assert (Hterm : terminal (picked io)).
  { unfold picked. destruct (PrimFloat.ltb _ _); [left|right]; reflexivity. }
  assert (Hnot : db.Status row1 <> db.PaymentStatusPending).
  { cbn. destruct Hterm as [-> | ->]; discriminate. }
  split; [reflexivity|]. split; [exists row1; split; [exact Hrow1|reflexivity]|].
  split; [exact Hterm|].
  unfold service.ProcessPayment at 1. fold (picked io).
  rewrite (ProcessPayment_pending _ id (picked io) t row Hav Hrow Hst), Hid.
  fold row1.
  rewrite (process_all_not_pending ios id _ row1 Hios Hrow1 Hnot). reflexivity.
Qed.

Lemma processing_idempotent_witness :
  let io := sample.processio 0.25%float in
  let ios := [sample.processio 0.75%float; sample.processio 0.25%float] in
  let t : Table := {[ 1%N := sample.row 1%N "REF-001" db.PaymentStatusPending ]} in
  let first := service.ProcessPayment io 1%N t in
  first.1 = None
  /\ (exists row1, first.2 !! 1%N = Some row1 /\ db.Status row1 = picked io)
  /\ terminal (picked io)
  /\ process_all (io :: ios) 1%N t
     = (None :: repeat (Some (Wrap "failed to process payment: "
                                (AlreadyProcessed (picked io)))) (length ios),
        first.2).
Proof.
  intros io ios t.
  apply (processing_idempotent io ios 1%N t
           (sample.row 1%N "REF-001" db.PaymentStatusPending)).
  - vm_compute. reflexivity.
  - reflexivity.
  - reflexivity.
  - vm_compute. repeat split.
  - repeat constructor.
Defined.

(** ** The worker on duplicates *)

Section Duplicates.

Context `{messaging.Codec}.

Lemma consume_not_pending (io : service.ProcessIO) (s : Sys) (id : UUID)
    (row : db.Payment) (d : messaging.Delivery) (rest : list messaging.Delivery) :
  queue s = d :: rest ->
  addressed id d ->
  readable (service.tx io) ->
  table s !! id = Some row ->
  db.Status row <> db.PaymentStatusPending ->
  worker.consume io s
  = Some (messaging.Ack false, {| table := table s; queue := rest |}).
Proof.
  intros Hq (pm & Hdec & Hid) Hread Hrow Hst.
  unfold worker.consume, messaging.ConsumePaymentMessages_turn, worker.handler.
  rewrite Hq, Hdec, Hid. cbn [table queue].
  rewrite (processor_not_pending io id (table s) row Hread Hrow Hst).
  rewrite isTerminalError_already_processed. reflexivity.
Qed.

Lemma run_not_pending (ios : list service.ProcessIO) (s : Sys) (id : UUID)
    (row : db.Payment) :
  table s !! id = Some row ->
  db.Status row <> db.PaymentStatusPending ->
  Forall (addressed id) (queue s) ->
  Forall (fun io => readable (service.tx io)) ios ->
  length ios = length (queue s) ->
  worker.settlements ios s = repeat (messaging.Ack false) (length ios)
  /\ worker.run ios s = {| table := table s; queue := [] |}.
Proof.
  intros Hrow Hst Hq Hios. revert s Hrow Hq.
  induction Hios as [|io ios Hio _ IH]; intros s Hrow Hq Hlen.
  - cbn. destruct s as [t q]. cbn in *. destruct q; [auto|discriminate Hlen].
  - destruct (queue s) as [|d rest] eqn:Hqueue; [discriminate Hlen|].
    inversion Hq as [|? ? Hd Hrest]; subst.
    cbn [worker.settlements worker.run length repeat]. unfold worker.deliver.
    rewrite (consume_not_pending io s id row d rest Hqueue Hd Hio Hrow Hst).
    destruct (IH {| table := table s; queue := rest |} Hrow Hrest)
      as [Hset Hrun]; [cbn in *; congruence|].
    rewrite Hset, Hrun. split; reflexivity.
Qed.

(** Duplicates are absorbed. With a queue that holds nothing but notices for
    one PENDING payment, however many, and a store that is available to the
    first turn and readable to the others, the consumer acknowledges every
    one of them, the queue ends empty, and the payment has changed status
    once: to what the first turn picked. *)
Theorem duplicates_absorbed (io : service.ProcessIO) (ios : list service.ProcessIO)
    (s : Sys) (id : UUID) (row : db.Payment) (d : messaging.Delivery)
    (rest : list messaging.Delivery) :
  table s !! id = Some row ->
  db.ID row = id ->
  db.Status row = db.PaymentStatusPending ->
  queue s = d :: rest ->
  Forall (addressed id) (d :: rest) ->
  available (service.tx io) ->
  Forall (fun io' => readable (service.tx io')) ios ->
  length ios = length rest ->
  worker.settlements (io :: ios) s = repeat (messaging.Ack false) (S (length ios))
  /\ queue (worker.run (io :: ios) s) = []
  /\ table (worker.run (io :: ios) s) = (service.ProcessPayment io id (table s)).2
  /\ exists row1, table (worker.run (io :: ios) s) !! id = Some row1
                  /\ db.Status row1 = picked io.
Proof.
  intros Hrow Hid Hst Hq Hall Hav Hios Hlen.
  inversion Hall as [|? ? (pm & Hdec & Hpm) Hrest]; subst.
  assert (Hfirst : service.ProcessPayment io (db.ID row) (table s)
                   = (None, <[db.ID row :=
                                {| db.ID := db.ID row;
                                   db.Amount := db.Amount row;
                                   db.Currency_ := db.Currency_ row;
                                   db.Reference := db.Reference row;
                                   db.Status := picked io;
                                   db.CreatedAt := db.CreatedAt row;
                                   db.UpdatedAt :=
                                     gorm.timestamp (database.save (service.tx io))
                                       (gorm.clock (database.save (service.tx io))) |}]>
                              (table s))).
  { unfold service.ProcessPayment. fold (picked io).
    rewrite (ProcessPayment_pending _ _ (picked io) _ row Hav Hrow Hst).
    reflexivity. }
  set (row1 := db.mkPayment _ _ _ _ _ _ _) in Hfirst.
  assert (Hconsume : worker.consume io s
                     = Some (messaging.Ack false,
                             {| table := <[db.ID row := row1]> (table s);
                                queue := rest |})).
  { unfold worker.consume, messaging.ConsumePaymentMessages_turn, worker.handler.
    rewrite Hq, Hdec, Hpm. cbn [table queue]. rewrite Hfirst. reflexivity. }
  assert (Hrow1 : <[db.ID row := row1]> (table s) !! db.ID row = Some row1)
    by apply lookup_insert_eq.
  assert (Hnot : db.Status row1 <> db.PaymentStatusPending).
  { cbn. unfold picked. destruct (PrimFloat.ltb _ _); discriminate. }
  cbn [worker.settlements worker.run length repeat]. unfold worker.deliver.
  rewrite Hconsume, Hfirst. cbn [snd].
  destruct (run_not_pending ios
              {| table := <[db.ID row := row1]> (table s); queue := rest |}
              (db.ID row) row1 Hrow1 Hnot Hrest Hios Hlen) as [Hset Hrun].
  rewrite Hset, Hrun. cbn [table queue].
  repeat split. exists row1. split; [exact Hrow1|reflexivity].
Qed.

(** An acknowledgement never outruns the transition. When the failures of
    the store carry neither marker phrase and the table is keyed, a notice
    that decodes is acknowledged only if afterwards its payment is unknown to
    the table or no longer PENDING; and a notice rejected with requeue has
    left the table exactly as it was. *)
Theorem acknowledged_means_settled (io : service.ProcessIO) (s s' : Sys)
    (msg : messaging.Delivery) (rest : list messaging.Delivery)
    (pm : messaging.PaymentMessage) (a : messaging.Settlement) :
  keyed (table s) ->
  unmarked_failures (service.tx io) ->
  queue s = msg :: rest ->
  messaging.Unmarshal (messaging.Body msg) = Ok pm ->
  worker.consume io s = Some (a, s') ->
  (a = messaging.Ack false ->
   table s' !! messaging.PaymentID pm = None
   \/ exists row, table s' !! messaging.PaymentID pm = Some row
                  /\ db.Status row <> db.PaymentStatusPending)
  /\ (a = messaging.Nack false true -> table s' = table s).
Proof.
  intros Hk Hclean Hq Hdec.
  unfold worker.consume, messaging.ConsumePaymentMessages_turn, worker.handler,
    service.ProcessPayment.
  rewrite Hq, Hdec. cbn [table queue].
  match goal with
  | |- context [database.ProcessPayment ?i ?k ?tg ?t] =>
      destruct (database.ProcessPayment i k tg t) as [[e|] t'] eqn:E
  end.
  - destruct (ProcessPayment_error _ _ _ _ _ _ E) as [-> Hshape].
    destruct Hshape
      as [(text & Hb & ->)|[(text & Hl & ->)|[(Hb & Hl & Hnone & ->)
         |[(row & Hb & Hl & Hrow & Hst & ->)|[(text & Hs & ->)|(text & Hc & ->)]]]]].
    + destruct (isTerminalError_unmarked text (Hclean text (or_introl Hb))) as (-> & _).
      intros [= <- <-]. cbn [table]. split; [discriminate|reflexivity].
    + destruct (isTerminalError_unmarked text
                  (Hclean text (or_intror (or_introl Hl)))) as (_ & -> & _).
      intros [= <- <-]. cbn [table]. split; [discriminate|reflexivity].
    + rewrite isTerminalError_not_found.
      intros [= <- <-]. cbn [table]. split; [left; exact Hnone|discriminate].
    + rewrite isTerminalError_already_processed.
      intros [= <- <-]. cbn [table].
      split; [right; exists row; split; assumption|discriminate].
    + destruct (isTerminalError_unmarked text
                  (Hclean text (or_intror (or_intror (or_introl Hs))))) as (_ & _ & ->).
      intros [= <- <-]. cbn [table]. split; [discriminate|reflexivity].
    + destruct (isTerminalError_unmarked text
                  (Hclean text (or_intror (or_intror (or_intror Hc))))) as (-> & _).
      intros [= <- <-]. cbn [table]. split; [discriminate|reflexivity].
  - intros [= <- <-]. cbn [table]. split; [|discriminate]. intros _. right.
    match type of E with
    | database.ProcessPayment ?i ?k ?tg ?t = _ =>
        destruct (ProcessPayment_cases i k tg t)
          as [[e He]|(row & stamp & He & Hrow & Hst)];
        rewrite E in He; [discriminate He|]
    end.
    injection He as ->. rewrite (Hk _ _ Hrow).
    eexists. split; [apply lookup_insert_eq|].
    cbn. destruct (PrimFloat.ltb _ _); discriminate.
Qed.

End Duplicates.

Lemma duplicates_absorbed_witness :
  let io := sample.processio 0.25%float in
  let ios := [sample.processio 0.75%float; sample.processio 0.25%float] in
  let d := sample.notice (sample.body 1%N) in
  let s := {| table := {[ 1%N := sample.row 1%N "REF-001" db.PaymentStatusPending ]};
              queue := [d; redelivered d; redelivered d] |} in
  worker.settlements (H := plain.codec) (io :: ios) s
  = repeat (messaging.Ack false) (S (length ios))
  /\ queue (worker.run (H := plain.codec) (io :: ios) s) = []
  /\ table (worker.run (H := plain.codec) (io :: ios) s)
     = (service.ProcessPayment io 1%N (table s)).2
  /\ exists row1, table (worker.run (H := plain.codec) (io :: ios) s) !! 1%N
                  = Some row1
                  /\ db.Status row1 = picked io.
Proof.
  intros io ios d s.
  apply (duplicates_absorbed (H := plain.codec) io ios s 1%N
           (sample.row 1%N "REF-001" db.PaymentStatusPending) d
           [redelivered d; redelivered d]).
  - vm_compute. reflexivity.
  - reflexivity.
  - reflexivity.
  - reflexivity.
  - repeat constructor;
      (exists {| messaging.PaymentID := 1%N; messaging.Timestamp := 1700000002%Z |};
       split; [vm_compute; reflexivity|reflexivity]).
  - vm_compute. repeat split.
  - repeat constructor.
  - reflexivity.
Defined.

Lemma acknowledged_means_settled_witness :
  let io := sample.processio 0.25%float in
  let msg := sample.notice (sample.body 1%N) in
  let s := {| table := {[ 1%N := sample.row 1%N "REF-001" db.PaymentStatusPending ]};
              queue := [msg] |} in
  let s' := worker.deliver (H := plain.codec) io s in
  (messaging.Ack false = messaging.Ack false ->
   table s' !! 1%N = None
   \/ exists row, table s' !! 1%N = Some row
                  /\ db.Status row <> db.PaymentStatusPending)
  /\ (messaging.Ack false = messaging.Nack false true -> table s' = table s).
Proof.
  intros io msg s s'.
  apply (acknowledged_means_settled (H := plain.codec) io s s' msg []
           {| messaging.PaymentID := 1%N; messaging.Timestamp := 1700000002%Z |}
           (messaging.Ack false)).
  - intros id row Hrow. subst s. cbn [table] in Hrow.
    apply lookup_singleton_Some in Hrow.
    destruct Hrow as [<- <-]. reflexivity.
  - intros text [Hf|[Hf|[Hf|Hf]]]; vm_compute in Hf; discriminate Hf.
  - reflexivity.
  - vm_compute. reflexivity.
  - vm_compute. reflexivity.
Defined.

(** ** The classification of errors by their text *)

Lemma Contains_append_l (p s sub : string) :
  Contains s sub = true -> Contains (p +:+ s) sub = true.
Proof.
  intros Hs. induction p as [|c p IH]; [exact Hs|].
  change (Contains (String c p +:+ s) sub)
    with (HasPrefix (String c (p +:+ s)) sub || Contains (p +:+ s) sub).
  rewrite IH. apply orb_true_r.
Qed.

(** Wrapping never hides a permanent outcome from [isTerminalError]: an
    error it recognises is still recognised behind any prefix, so behind any
    number of them; and nil is never taken for one. *)
Theorem isTerminalError_wrap (prefix : string) (e : error) :
  messaging.isTerminalError (Some e) = true ->
  messaging.isTerminalError (Some (Wrap prefix e)) = true
  /\ messaging.isTerminalError None = false.
Proof.
  unfold messaging.isTerminalError. cbn [Error]. intros Hterm.
  split; [|reflexivity].
  apply orb_true_iff in Hterm. apply orb_true_iff.
  destruct Hterm as [Ha|Hn]; [left|right]; apply Contains_append_l; assumption.
Qed.

Lemma isTerminalError_wrap_witness :
  messaging.isTerminalError
    (Some (Wrap "worker 3: " (Wrap "failed to process payment: " NotFound))) = true
  /\ messaging.isTerminalError None = false.
Proof.
  apply (isTerminalError_wrap "worker 3: "
           (Wrap "failed to process payment: " NotFound)).
  vm_compute. reflexivity.
Defined.

(** ** From the request to the terminal status *)

Section EndToEnd.

Context `{messaging.Codec}.

(** Create, look up, process, look up. After a successful [CreatePayment] on
    an empty queue, [GetPayment] of the new identifier returns the response
    of the creation, status PENDING, with the amount and the creation time
    as the columns hold them: the very response of the creation when the
    columns hold them unchanged. If the codec reads back the notice it wrote
    and the store is available, the worker's next turn acknowledges that
    notice and empties the queue, and [GetPayment] then returns the same but
    for the status, which is the one the processor picked. *)
Theorem create_process_get (io : service.CreateIO) (req : input.CreatePaymentRequest)
    (s s1 : Sys) (resp : input.PaymentResponse) (pio : service.ProcessIO)
    (gio : gorm.IO) :
  queue s = [] ->
  service.CreatePayment io req s = (Ok resp, s1) ->
  (forall body,
     messaging.Marshal
       {| messaging.PaymentID := input.ID resp;
          messaging.Timestamp := messaging.stamped (service.publish io) |} = Ok body ->
     messaging.Unmarshal body
     = Ok {| messaging.PaymentID := input.ID resp;
             messaging.Timestamp := messaging.stamped (service.publish io) |}) ->
  available (service.tx pio) ->
  gorm.failure gio = None ->
  service.GetPayment gio (input.ID resp) s1
  = Ok (read_back io resp core.PaymentStatusPending)
  /\ (gorm.numeric (service.create io) (input.RespAmount resp)
      = input.RespAmount resp ->
      gorm.timestamp (service.create io) (input.CreatedAt resp)
      = input.CreatedAt resp ->
      service.GetPayment gio (input.ID resp) s1 = Ok resp)
  /\ input.Status resp = core.PaymentStatusPending
  /\ exists s2,
       worker.consume pio s1 = Some (messaging.Ack false, s2)
       /\ queue s2 = []
       /\ service.GetPayment gio (input.ID resp) s2
          = Ok (read_back io resp (picked pio)).
Proof.
  intros Hempty Hrun Hcodec Hav Hgio.
  pose proof (CreatePayment_outcome io req s) as Hout.
  rewrite Hrun in Hout. inversion Hout; subst.
  match goal with
  | Hp : messaging.PublishPaymentMessage _ _ _ = (None, _) |- _ =>
      unfold messaging.PublishPaymentMessage in Hp; rewrite Hempty in Hp;
      cbn [input.ID new_response] in Hcodec;
      destruct (messaging.Marshal _) as [body|e] eqn:Hm; [|discriminate Hp];
      destruct (messaging.refused (service.publish io)); [discriminate Hp|];
      injection Hp as <-
  end.
  specialize (Hcodec body eq_refl).
  unfold read_back.
  cbn [input.ID input.RespAmount input.RespCurrency input.RespReference
       input.Status input.CreatedAt new_response].
  set (id := uuid_New (service.entropy io)) in *.
  assert (Hrow : <[id := new_row io req]> (table s) !! id = Some (new_row io req))
    by apply lookup_insert_eq.
  assert (Hget : service.GetPayment gio id
                   {| table := <[id := new_row io req]> (table s);
                      queue := [{| messaging.ContentType := "application/json";
                                   messaging.DeliveryMode := messaging.Persistent;
                                   messaging.Published :=
                                     messaging.sent (service.publish io);
                                   messaging.Body := body;
                                   messaging.Redelivered := false |}] |}
                 = Ok {| input.ID := id;
                         input.RespAmount :=
                           gorm.numeric (service.create io) (input.Amount req);
                         input.RespCurrency := input.Currency req;
                         input.RespReference := TrimSpace (input.Reference req);
                         input.Status := core.PaymentStatusPending;
                         input.CreatedAt :=
                           gorm.timestamp (service.create io)
                             (gorm.clock (service.create io)) |}).
  { unfold service.GetPayment, database.GetByID, gorm.First. cbn [table].
    rewrite Hgio, Hrow. reflexivity. }
  split; [exact Hget|]. split; [|split; [reflexivity|]].
  - intros Hamount Hcreated. rewrite Hget, Hamount, Hcreated. reflexivity.
  - eexists. split; [|split].
    + unfold worker.consume, messaging.ConsumePaymentMessages_turn, worker.handler.
      cbn [queue table app messaging.Body]. rewrite Hcodec.
      cbn [messaging.PaymentID]. unfold service.ProcessPayment. fold (picked pio).
      rewrite (ProcessPayment_pending _ id (picked pio) _ (new_row io req) Hav Hrow
                 eq_refl).
      reflexivity.
    + reflexivity.
    + unfold service.GetPayment, database.GetByID, gorm.First. cbn [table].
      rewrite Hgio. cbn [db.ID new_row]. fold id. rewrite lookup_insert_eq.
      reflexivity.
Qed.


End EndToEnd.

Lemma create_process_get_witness :
  let io := example.creating 5%N in
  let req := sample.request 100.125%float "  REF-001 " in
  let pio := sample.processio 0.25%float in
  let resp := new_response io req in
  let s1 := (service.CreatePayment (H := plain.codec) io req initial).2 in
  (service.GetPayment sample.healthy (input.ID resp) s1
   = Ok (read_back io resp core.PaymentStatusPending)
   /\ (gorm.numeric (service.create io) (input.RespAmount resp)
       = input.RespAmount resp ->
       gorm.timestamp (service.create io) (input.CreatedAt resp)
       = input.CreatedAt resp ->
       service.GetPayment sample.healthy (input.ID resp) s1 = Ok resp)
   /\ input.Status resp = core.PaymentStatusPending
   /\ exists s2,
        worker.consume (H := plain.codec) pio s1 = Some (messaging.Ack false, s2)
        /\ queue s2 = []
        /\ service.GetPayment sample.healthy (input.ID resp) s2
           = Ok (read_back io resp (picked pio)))
  /\ PrimFloat.eqb (input.RespAmount resp) 100.125%float = true
  /\ PrimFloat.eqb
       (input.RespAmount (read_back io resp core.PaymentStatusPending))
       (PrimFloat.div 10013%float 100%float) = true
  /\ input.CreatedAt resp = 1700000000123456789%Z
  /\ input.CreatedAt (read_back io resp core.PaymentStatusPending)
     = 1700000000123456000%Z.
Proof.
  intros io req pio resp s1. split.
  - apply (create_process_get (H := plain.codec) io req initial s1 resp pio
             sample.healthy).
    + reflexivity.
    + vm_compute. reflexivity.
    + intros body Hbody. vm_compute in Hbody. injection Hbody as <-.
      vm_compute. reflexivity.
    + vm_compute. repeat split.
    + reflexivity.
  - vm_compute. repeat split.
Defined.

(** ** Setting the client up and closing it *)

(** [NewRabbitMQClientConcrete] never returns an error while holding on to
    what it opened: at whichever call the set-up fails, the channel and the
    connection opened so far have been closed, channel first. When it
    returns a client, one connection and one channel are open, the exchange
    and the queue are declared durable and bound with the routing key, and
    [Close] on that client closes both, returning what closing the
    connection returned. *)
Theorem client_releases (io : messaging.SetupIO) (url : string)
    (closing : option string) :
  let run := messaging.NewRabbitMQClientConcrete io url in
  match run.1 with
  | Err e =>
      held run.2 = (0, 0)%Z
      /\ (exists prefix text, e = Wrap prefix (External text))
      /\ (forall n, nth_error run.2 n = Some messaging.ConnClosed ->
                    S n = length run.2)
  | Ok c =>
      held run.2 = (1, 1)%Z
      /\ run.2 = [messaging.Dialed url; messaging.ChannelOpened;
                  messaging.ExchangeDeclared "payments" "direct" true;
                  messaging.QueueDeclared "payment_processing" true;
                  messaging.QueueBound "payment_processing" "payment.created"
                    "payments"]
      /\ (messaging.Close closing c).2
         = [messaging.ChannelClosed; messaging.ConnClosed]
      /\ held (run.2 ++ (messaging.Close closing c).2)%list = (0, 0)%Z
      /\ (messaging.Close closing c).1 = option_map External closing
  end.
Proof.
  intros run. subst run. unfold messaging.NewRabbitMQClientConcrete.
  destruct (messaging.dial io) as [text|].
  { cbn. split; [reflexivity|]. split; [eauto|]. intros [|n]; discriminate. }
  destruct (messaging.open_channel io) as [text|].
  { cbn. split; [reflexivity|]. split; [eauto|].
    intros [|[|[|n]]]; cbn; try discriminate; reflexivity. }
  destruct (messaging.declare_exchange io) as [text|].
  { cbn. split; [reflexivity|]. split; [eauto|].
    intros [|[|[|[|[|n]]]]]; cbn; try discriminate; reflexivity. }
  destruct (messaging.declare_queue io) as [text|].
  { cbn. split; [reflexivity|]. split; [eauto|].
    intros [|[|[|[|[|[|n]]]]]]; cbn; try discriminate; reflexivity. }
  destruct (messaging.bind_queue io) as [text|].
  { cbn. split; [reflexivity|]. split; [eauto|].
    intros [|[|[|[|[|[|[|n]]]]]]]; cbn; try discriminate; reflexivity. }
  cbn. repeat split.
Qed.

(** ** Reading the status *)

Section Reading.

Context `{messaging.Codec}.

(** In every reachable state a payment is pending or terminal and not both,
    as [IsPending] and [IsTerminal] tell; the predicates of the entity agree
    with those of the row across [toCore]; and [IsTerminal] holds exactly of
    SUCCESS and FAILED. *)
Theorem status_predicates (s : Sys) (id : UUID) (row : db.Payment) :
  reachable s ->
  table s !! id = Some row ->
  xorb (db.IsPending row) (db.IsTerminal row) = true
  /\ core.IsPending (database.toCore row) = db.IsPending row
  /\ core.IsTerminal (database.toCore row) = db.IsTerminal row
  /\ (db.IsTerminal row = true <-> terminal (db.Status row)).
Proof.
  intros Hreach Hrow.
  pose proof (reachable_known_status s Hreach id row Hrow) as Hknown.
  unfold db.IsPending, db.IsTerminal, core.IsPending, core.IsTerminal, terminal.
  cbn [database.toCore core.Status].
  split; [|split; [reflexivity|split; [reflexivity|]]].
  - destruct Hknown as [-> |[-> | ->]]; reflexivity.
  - rewrite orb_true_iff, !String.eqb_eq. reflexivity.
Qed.

(** In every reachable state a successful [GetPayment] answers about the
    identifier it was asked for, with one of the three statuses; and it
    fails exactly when the store fails or the table does not hold the
    identifier. *)
Theorem GetPayment_reachable (s : Sys) (gio : gorm.IO) (id : UUID) :
  reachable s ->
  match service.GetPayment gio id s with
  | Ok resp =>
      input.ID resp = id
      /\ known_status (input.Status resp)
      /\ gorm.failure gio = None
      /\ exists row, table s !! id = Some row
                     /\ input.RespReference resp = db.Reference row
  | Err e =>
      (exists text, gorm.failure gio = Some text
                    /\ e = Wrap "failed to get payment: "
                             (Wrap "failed to get payment: " (External text)))
      \/ (gorm.failure gio = None /\ table s !! id = None
          /\ e = Wrap "failed to get payment: " (New "payment not found"))
  end.
Proof.
  intros Hreach.
  unfold service.GetPayment, database.GetByID, gorm.First.
  destruct (gorm.failure gio) as [text|].
  - destruct (decide (External text = ErrRecordNotFound)) as [Habs|_];
      [discriminate Habs|]. left. eauto.
  - destruct (table s !! id) as [row|] eqn:Hrow.
    + cbn [service.PaymentResponse_of database.toCore input.ID input.Status
           input.RespReference core.ID core.Status core.Reference].
      split; [exact (reachable_keyed s Hreach id row Hrow)|].
      split; [exact (reachable_known_status s Hreach id row Hrow)|].
      split; [reflexivity|]. exists row. split; reflexivity.
    + destruct (decide (ErrRecordNotFound = ErrRecordNotFound)) as [_|Habs];
        [|contradiction].
      right. auto.
Qed.

End Reading.

Lemma status_predicates_witness :
  let io := sample.createio 5%N in
  let req := sample.request 100.5%float "REF-001" in
  let s := (service.CreatePayment_step (H := plain.codec) io (service.Inserting req)
              initial).2 in
  xorb (db.IsPending (new_row io req)) (db.IsTerminal (new_row io req)) = true
  /\ core.IsPending (database.toCore (new_row io req)) = db.IsPending (new_row io req)
  /\ core.IsTerminal (database.toCore (new_row io req)) = db.IsTerminal (new_row io req)
  /\ (db.IsTerminal (new_row io req) = true <-> terminal (db.Status (new_row io req))).
Proof.
  intros io req s.
  apply (status_predicates (H := plain.codec) s (uuid_New 5%N) (new_row io req)).
  - apply (reachable_step (H := plain.codec) initial s).
    + apply reachable_initial.
    + apply (step_api (H := plain.codec)).
  - vm_compute. reflexivity.
Defined.

Lemma GetPayment_reachable_witness :
  let io := sample.createio 5%N in
  let req := sample.request 100.5%float "REF-001" in
  let s := (service.CreatePayment_step (H := plain.codec) io (service.Inserting req)
              initial).2 in
  match service.GetPayment sample.healthy (uuid_New 5%N) s with
  | Ok resp =>
      input.ID resp = uuid_New 5%N
      /\ known_status (input.Status resp)
      /\ gorm.failure sample.healthy = None
      /\ exists row, table s !! uuid_New 5%N = Some row
                     /\ input.RespReference resp = db.Reference row
  | Err e =>
      (exists text, gorm.failure sample.healthy = Some text
                    /\ e = Wrap "failed to get payment: "
                             (Wrap "failed to get payment: " (External text)))
      \/ (gorm.failure sample.healthy = None /\ table s !! uuid_New 5%N = None
          /\ e = Wrap "failed to get payment: " (New "payment not found"))
  end.
Proof.
  intros io req s.
  apply (GetPayment_reachable (H := plain.codec) s sample.healthy (uuid_New 5%N)).
  apply (reachable_step (H := plain.codec) initial s).
  - apply reachable_initial.
  - apply (step_api (H := plain.codec)).
Defined.
